(** * The Mbed TLS network stream driver of rsyslog, and its select() companion

    A shallow embedding of [runtime/nsd_mbedtls.c] and
    [runtime/nsdsel_mbedtls.c].

    Conventions of the embedding.
    - A C [int], [ssize_t] or [rsRetVal] is a [Z]; a [const uchar *] is an
      [option string] ([None] is the NULL pointer, the string holds the bytes
      before the terminating NUL).
    - The driver talks to three collaborators whose code is elsewhere: the
      plain TCP driver [nsd_ptcp] (and [nsdsel_ptcp]), the Mbed TLS library
      and the C library.  What a collaborator answers is an argument of the
      embedded function; that it was called is recorded in a trace of
      [call]s, which every embedded function returns.  A loop that repeats
      a call gets the answers as a function of the number of the call, and
      fuel: [None] is a loop that has not been left when the fuel is used
      up.
    - The payload bytes that travel through [Rcv] and [Send] are not
      modelled, only lengths and status codes. *)

From Stdlib Require Import ZArith List String Ascii Bool Lia Permutation.
Import ListNotations.
Local Open Scope Z_scope.

(** ** Status codes *)

(** The [rsRetVal] enumerators of rsyslog.h and the error codes of the
    Mbed TLS headers that the two files use.  Neither header belongs to the
    two files embedded here, so the numeric values are parameters. *)
Class Codes : Type := {
  RS_RET_OK : Z;
  RS_RET_NO_ERRCODE : Z;
  RS_RET_OUT_OF_MEMORY : Z;
  RS_RET_EOF : Z;
  RS_RET_INVALID_DRVR_MODE : Z;
  RS_RET_TLS_HANDSHAKE_ERR : Z;
  RS_RET_VALUE_NOT_SUPPORTED : Z;
  RS_RET_CONNECTION_ABORTREQ : Z;
  RS_RET_CLOSED : Z;
  RS_RET_RETRY : Z;
  RS_RET_RCV_ERR : Z;
  MBEDTLS_ERR_SSL_WANT_READ : Z;
  MBEDTLS_ERR_SSL_WANT_WRITE : Z;
  MBEDTLS_ERR_SSL_PEER_CLOSE_NOTIFY : Z;
  MBEDTLS_SSL_VERIFY_NONE : Z;
  MBEDTLS_SSL_VERIFY_REQUIRED : Z
}.

Fixpoint differs_from_all (x : Z) (l : list Z) : Prop :=
  match l with
  | [] => True
  | y :: t => x <> y /\ differs_from_all x t
  end.

Fixpoint distinct (l : list Z) : Prop :=
  match l with
  | [] => True
  | x :: t => differs_from_all x t /\ distinct t
  end.

(** What the code relies on: [RS_RET_OK] is [0] (the Mbed TLS calls, which
    answer [0] for success, are checked with [CHKiRet]); the enumerators of
    [rsRetVal] are distinct; the Mbed TLS error codes are negative and
    distinct; the two verification policies differ. *)
Record CodesOk (c : Codes) : Prop := {
  ok_zero : RS_RET_OK = 0;
  rs_distinct :
    distinct [RS_RET_OK; RS_RET_NO_ERRCODE; RS_RET_OUT_OF_MEMORY;
              RS_RET_EOF; RS_RET_INVALID_DRVR_MODE;
              RS_RET_TLS_HANDSHAKE_ERR; RS_RET_VALUE_NOT_SUPPORTED;
              RS_RET_CONNECTION_ABORTREQ; RS_RET_CLOSED; RS_RET_RETRY;
              RS_RET_RCV_ERR];
  want_read_neg : MBEDTLS_ERR_SSL_WANT_READ < 0;
  want_write_neg : MBEDTLS_ERR_SSL_WANT_WRITE < 0;
  close_notify_neg : MBEDTLS_ERR_SSL_PEER_CLOSE_NOTIFY < 0;
  ssl_distinct :
    distinct [MBEDTLS_ERR_SSL_WANT_READ; MBEDTLS_ERR_SSL_WANT_WRITE;
              MBEDTLS_ERR_SSL_PEER_CLOSE_NOTIFY];
  verify_distinct : MBEDTLS_SSL_VERIFY_NONE <> MBEDTLS_SSL_VERIFY_REQUIRED
}.

(** One assignment of values, after rsyslog.h and mbedtls/ssl.h; used
    wherever a statement is evaluated on a concrete input. *)
Definition released_codes : Codes := {|
  RS_RET_OK := 0;
  RS_RET_NO_ERRCODE := -1;
  RS_RET_OUT_OF_MEMORY := -6;
  RS_RET_EOF := -2026;
  RS_RET_INVALID_DRVR_MODE := -2081;
  RS_RET_TLS_HANDSHAKE_ERR := -2083;
  RS_RET_VALUE_NOT_SUPPORTED := -2086;
  RS_RET_CONNECTION_ABORTREQ := -2089;
  RS_RET_CLOSED := -2099;
  RS_RET_RETRY := -2100;
  RS_RET_RCV_ERR := -2165;
  MBEDTLS_ERR_SSL_WANT_READ := -26880;      (* -0x6900 *)
  MBEDTLS_ERR_SSL_WANT_WRITE := -26752;     (* -0x6880 *)
  MBEDTLS_ERR_SSL_PEER_CLOSE_NOTIFY := -30848; (* -0x7880 *)
  MBEDTLS_SSL_VERIFY_NONE := 0;
  MBEDTLS_SSL_VERIFY_REQUIRED := 2
|}.

(** ** Data *)

(** A handle on an [nsd_ptcp] object (the [nsd_t *pTcp] of the struct). *)
Definition nsd_ptcp_t := nat.

(** [struct nsd_mbedtls_s] of nsd_mbedtls.h.  The Mbed TLS contexts embedded
    in the struct are opaque; the calls made on them appear in traces. *)
Record nsd_mbedtls_t : Type := {
  pTcp : option nsd_ptcp_t;
  pszCAFile : option string;
  pszCRLFile : option string;
  pszKeyFile : option string;
  pszCertFile : option string;
  iMode : Z;
  bAbortConn : Z;
  authMode : Z;
  bChkName : Z;
  bHaveSess : Z;
  DrvrVerifyDepth : Z;
  pPermPeer : option string;
  sock : Z;
  bHaveCaCert : Z;
  bHaveCrl : Z;
  bHaveKey : Z;
  bHaveCert : Z
}.

(** The Mbed TLS contexts a driver embeds. *)
Inductive tls_object : Type :=
  ctx_entropy | ctx_ctr_drbg | ctx_srvcert | ctx_pkey | ctx_crl | ctx_cacert
| ctx_conf | ctx_ssl.

(** [nsdsel_waitOp_t] of nsd.h. *)
Inductive nsdsel_waitOp_t : Type := NSDSEL_RD | NSDSEL_WR | NSDSEL_RDWR.

(** What a trace records: a call into a collaborator; a status that the
    code checks with [CHKiRet] ([answered]); the outcome of an allocation
    that it checks with [CHKmalloc] ([allocated]). *)
Inductive call : Type :=
| nsd_ptcp_Construct
| nsd_ptcp_Destruct (p : option nsd_ptcp_t)
| nsd_ptcp_Abort (p : option nsd_ptcp_t)
| nsd_ptcp_Rcv (p : option nsd_ptcp_t)
| nsd_ptcp_Send (p : option nsd_ptcp_t)
| nsd_ptcp_Connect (p : option nsd_ptcp_t)
| nsd_ptcp_AcceptConnReq (p : option nsd_ptcp_t)
| nsd_ptcp_GetSock (p : option nsd_ptcp_t)
| nsdsel_ptcp_Add (p : option nsd_ptcp_t) (waitOp : nsdsel_waitOp_t)
| nsdsel_ptcp_Select
| nsdsel_ptcp_IsReady (p : option nsd_ptcp_t) (waitOp : nsdsel_waitOp_t)
| mbedtls_ssl_read
| mbedtls_ssl_write
| mbedtls_ssl_close_notify
| mbedtls_ssl_handshake
| mbedtls_ssl_config_defaults
| mbedtls_ssl_conf_own_cert
| mbedtls_ssl_setup
| mbedtls_ssl_conf_rng
| mbedtls_ssl_conf_authmode (mode : Z)
| mbedtls_ssl_conf_ca_chain (ca crl : bool)
| mbedtls_ssl_conf_verify
| mbedtls_ssl_set_hostname (name : option string)
| mbedtls_ssl_set_bio
| mbedtls_ctr_drbg_seed
| mbedtls_pk_parse_keyfile (path : string)
| mbedtls_x509_crt_parse_file (path : string)
| mbedtls_x509_crl_parse_file (path : string)
| mbedtls_init (o : tls_object)
| mbedtls_free (o : tls_object)
| calloc_obj
| free_obj
| free_str (s : option string)
| LogError (msg : string)
| LogMsg (msg : string)
| answered (iRet : Z)
| allocated (null : bool)
| logMbedtlsError (err mbedtls_err : Z).

Definition trace := list call.

(** ** Control flow of the rsyslog macros *)

(** [CHKiRet], [ABORT_FINALIZE] and [FINALIZE] jump to the [finalize_it]
    label with [iRet] set; what the body did before the jump stays done.  A
    body is a state transformer that either goes on with a value or leaves
    for [finalize_it] with a status. *)
Inductive flow (A : Type) : Type :=
| Next (a : A)
| Finalize (iRet : Z).
Arguments Next {A} a.
Arguments Finalize {A} iRet.

Definition M (S A : Type) : Type := S * trace -> flow A * (S * trace).

Definition ret {S A} (a : A) : M S A := fun s => (Next a, s).

Definition bind {S A B} (m : M S A) (k : A -> M S B) : M S B :=
  fun s =>
    match m s with
    | (Next a, s') => k a s'
    | (Finalize iRet, s') => (Finalize iRet, s')
    end.

Declare Scope drv_scope.
Delimit Scope drv_scope with drv.
Notation "x <- m ;; k" := (bind m (fun x => k))
  (at level 61, m at next level, right associativity) : drv_scope.
Notation "m ;; k" := (bind m (fun _ => k))
  (at level 61, right associativity) : drv_scope.
Local Open Scope drv_scope.

Definition get {S} : M S S := fun s => (Next (fst s), s).
Definition modify {S} (f : S -> S) : M S unit :=
  fun s => (Next tt, (f (fst s), snd s)).
Definition emit {S} (c : call) : M S unit :=
  fun s => (Next tt, (fst s, snd s ++ [c])).
Definition when {S} (b : bool) (m : M S unit) : M S unit :=
  if b then m else ret tt.

Definition is_null {A} (p : option A) : bool :=
  match p with None => true | Some _ => false end.

(** ** Field updates of [nsd_mbedtls_t] ([pThis->field = v]) *)

Definition set_pTcp (v : option nsd_ptcp_t) (d : nsd_mbedtls_t) :=
  {| pTcp := v; pszCAFile := pszCAFile d; pszCRLFile := pszCRLFile d;
     pszKeyFile := pszKeyFile d; pszCertFile := pszCertFile d;
     iMode := iMode d; bAbortConn := bAbortConn d; authMode := authMode d;
     bChkName := bChkName d; bHaveSess := bHaveSess d;
     DrvrVerifyDepth := DrvrVerifyDepth d; pPermPeer := pPermPeer d;
     sock := sock d; bHaveCaCert := bHaveCaCert d; bHaveCrl := bHaveCrl d;
     bHaveKey := bHaveKey d; bHaveCert := bHaveCert d |}.

Definition set_pszCAFile (v : option string) (d : nsd_mbedtls_t) :=
  {| pTcp := pTcp d; pszCAFile := v; pszCRLFile := pszCRLFile d;
     pszKeyFile := pszKeyFile d; pszCertFile := pszCertFile d;
     iMode := iMode d; bAbortConn := bAbortConn d; authMode := authMode d;
     bChkName := bChkName d; bHaveSess := bHaveSess d;
     DrvrVerifyDepth := DrvrVerifyDepth d; pPermPeer := pPermPeer d;
     sock := sock d; bHaveCaCert := bHaveCaCert d; bHaveCrl := bHaveCrl d;
     bHaveKey := bHaveKey d; bHaveCert := bHaveCert d |}.

Definition set_pszCRLFile (v : option string) (d : nsd_mbedtls_t) :=
  {| pTcp := pTcp d; pszCAFile := pszCAFile d; pszCRLFile := v;
     pszKeyFile := pszKeyFile d; pszCertFile := pszCertFile d;
     iMode := iMode d; bAbortConn := bAbortConn d; authMode := authMode d;
     bChkName := bChkName d; bHaveSess := bHaveSess d;
     DrvrVerifyDepth := DrvrVerifyDepth d; pPermPeer := pPermPeer d;
     sock := sock d; bHaveCaCert := bHaveCaCert d; bHaveCrl := bHaveCrl d;
     bHaveKey := bHaveKey d; bHaveCert := bHaveCert d |}.

Definition set_pszKeyFile (v : option string) (d : nsd_mbedtls_t) :=
  {| pTcp := pTcp d; pszCAFile := pszCAFile d; pszCRLFile := pszCRLFile d;
     pszKeyFile := v; pszCertFile := pszCertFile d;
     iMode := iMode d; bAbortConn := bAbortConn d; authMode := authMode d;
     bChkName := bChkName d; bHaveSess := bHaveSess d;
     DrvrVerifyDepth := DrvrVerifyDepth d; pPermPeer := pPermPeer d;
     sock := sock d; bHaveCaCert := bHaveCaCert d; bHaveCrl := bHaveCrl d;
     bHaveKey := bHaveKey d; bHaveCert := bHaveCert d |}.

Definition set_pszCertFile (v : option string) (d : nsd_mbedtls_t) :=
  {| pTcp := pTcp d; pszCAFile := pszCAFile d; pszCRLFile := pszCRLFile d;
     pszKeyFile := pszKeyFile d; pszCertFile := v;
     iMode := iMode d; bAbortConn := bAbortConn d; authMode := authMode d;
     bChkName := bChkName d; bHaveSess := bHaveSess d;
     DrvrVerifyDepth := DrvrVerifyDepth d; pPermPeer := pPermPeer d;
     sock := sock d; bHaveCaCert := bHaveCaCert d; bHaveCrl := bHaveCrl d;
     bHaveKey := bHaveKey d; bHaveCert := bHaveCert d |}.

Definition set_iMode (v : Z) (d : nsd_mbedtls_t) :=
  {| pTcp := pTcp d; pszCAFile := pszCAFile d; pszCRLFile := pszCRLFile d;
     pszKeyFile := pszKeyFile d; pszCertFile := pszCertFile d;
     iMode := v; bAbortConn := bAbortConn d; authMode := authMode d;
     bChkName := bChkName d; bHaveSess := bHaveSess d;
     DrvrVerifyDepth := DrvrVerifyDepth d; pPermPeer := pPermPeer d;
     sock := sock d; bHaveCaCert := bHaveCaCert d; bHaveCrl := bHaveCrl d;
     bHaveKey := bHaveKey d; bHaveCert := bHaveCert d |}.

Definition set_bAbortConn (v : Z) (d : nsd_mbedtls_t) :=
  {| pTcp := pTcp d; pszCAFile := pszCAFile d; pszCRLFile := pszCRLFile d;
     pszKeyFile := pszKeyFile d; pszCertFile := pszCertFile d;
     iMode := iMode d; bAbortConn := v; authMode := authMode d;
     bChkName := bChkName d; bHaveSess := bHaveSess d;
     DrvrVerifyDepth := DrvrVerifyDepth d; pPermPeer := pPermPeer d;
     sock := sock d; bHaveCaCert := bHaveCaCert d; bHaveCrl := bHaveCrl d;
     bHaveKey := bHaveKey d; bHaveCert := bHaveCert d |}.

Definition set_authMode (v : Z) (d : nsd_mbedtls_t) :=
  {| pTcp := pTcp d; pszCAFile := pszCAFile d; pszCRLFile := pszCRLFile d;
     pszKeyFile := pszKeyFile d; pszCertFile := pszCertFile d;
     iMode := iMode d; bAbortConn := bAbortConn d; authMode := v;
     bChkName := bChkName d; bHaveSess := bHaveSess d;
     DrvrVerifyDepth := DrvrVerifyDepth d; pPermPeer := pPermPeer d;
     sock := sock d; bHaveCaCert := bHaveCaCert d; bHaveCrl := bHaveCrl d;
     bHaveKey := bHaveKey d; bHaveCert := bHaveCert d |}.

Definition set_bChkName (v : Z) (d : nsd_mbedtls_t) :=
  {| pTcp := pTcp d; pszCAFile := pszCAFile d; pszCRLFile := pszCRLFile d;
     pszKeyFile := pszKeyFile d; pszCertFile := pszCertFile d;
     iMode := iMode d; bAbortConn := bAbortConn d; authMode := authMode d;
     bChkName := v; bHaveSess := bHaveSess d;
     DrvrVerifyDepth := DrvrVerifyDepth d; pPermPeer := pPermPeer d;
     sock := sock d; bHaveCaCert := bHaveCaCert d; bHaveCrl := bHaveCrl d;
     bHaveKey := bHaveKey d; bHaveCert := bHaveCert d |}.

Definition set_bHaveSess (v : Z) (d : nsd_mbedtls_t) :=
  {| pTcp := pTcp d; pszCAFile := pszCAFile d; pszCRLFile := pszCRLFile d;
     pszKeyFile := pszKeyFile d; pszCertFile := pszCertFile d;
     iMode := iMode d; bAbortConn := bAbortConn d; authMode := authMode d;
     bChkName := bChkName d; bHaveSess := v;
     DrvrVerifyDepth := DrvrVerifyDepth d; pPermPeer := pPermPeer d;
     sock := sock d; bHaveCaCert := bHaveCaCert d; bHaveCrl := bHaveCrl d;
     bHaveKey := bHaveKey d; bHaveCert := bHaveCert d |}.

Definition set_DrvrVerifyDepth (v : Z) (d : nsd_mbedtls_t) :=
  {| pTcp := pTcp d; pszCAFile := pszCAFile d; pszCRLFile := pszCRLFile d;
     pszKeyFile := pszKeyFile d; pszCertFile := pszCertFile d;
     iMode := iMode d; bAbortConn := bAbortConn d; authMode := authMode d;
     bChkName := bChkName d; bHaveSess := bHaveSess d;
     DrvrVerifyDepth := v; pPermPeer := pPermPeer d;
     sock := sock d; bHaveCaCert := bHaveCaCert d; bHaveCrl := bHaveCrl d;
     bHaveKey := bHaveKey d; bHaveCert := bHaveCert d |}.

Definition set_pPermPeer (v : option string) (d : nsd_mbedtls_t) :=
  {| pTcp := pTcp d; pszCAFile := pszCAFile d; pszCRLFile := pszCRLFile d;
     pszKeyFile := pszKeyFile d; pszCertFile := pszCertFile d;
     iMode := iMode d; bAbortConn := bAbortConn d; authMode := authMode d;
     bChkName := bChkName d; bHaveSess := bHaveSess d;
     DrvrVerifyDepth := DrvrVerifyDepth d; pPermPeer := v;
     sock := sock d; bHaveCaCert := bHaveCaCert d; bHaveCrl := bHaveCrl d;
     bHaveKey := bHaveKey d; bHaveCert := bHaveCert d |}.

Definition set_sock (v : Z) (d : nsd_mbedtls_t) :=
  {| pTcp := pTcp d; pszCAFile := pszCAFile d; pszCRLFile := pszCRLFile d;
     pszKeyFile := pszKeyFile d; pszCertFile := pszCertFile d;
     iMode := iMode d; bAbortConn := bAbortConn d; authMode := authMode d;
     bChkName := bChkName d; bHaveSess := bHaveSess d;
     DrvrVerifyDepth := DrvrVerifyDepth d; pPermPeer := pPermPeer d;
     sock := v; bHaveCaCert := bHaveCaCert d; bHaveCrl := bHaveCrl d;
     bHaveKey := bHaveKey d; bHaveCert := bHaveCert d |}.

Definition set_bHaveCaCert (v : Z) (d : nsd_mbedtls_t) :=
  {| pTcp := pTcp d; pszCAFile := pszCAFile d; pszCRLFile := pszCRLFile d;
     pszKeyFile := pszKeyFile d; pszCertFile := pszCertFile d;
     iMode := iMode d; bAbortConn := bAbortConn d; authMode := authMode d;
     bChkName := bChkName d; bHaveSess := bHaveSess d;
     DrvrVerifyDepth := DrvrVerifyDepth d; pPermPeer := pPermPeer d;
     sock := sock d; bHaveCaCert := v; bHaveCrl := bHaveCrl d;
     bHaveKey := bHaveKey d; bHaveCert := bHaveCert d |}.

Definition set_bHaveCrl (v : Z) (d : nsd_mbedtls_t) :=
  {| pTcp := pTcp d; pszCAFile := pszCAFile d; pszCRLFile := pszCRLFile d;
     pszKeyFile := pszKeyFile d; pszCertFile := pszCertFile d;
     iMode := iMode d; bAbortConn := bAbortConn d; authMode := authMode d;
     bChkName := bChkName d; bHaveSess := bHaveSess d;
     DrvrVerifyDepth := DrvrVerifyDepth d; pPermPeer := pPermPeer d;
     sock := sock d; bHaveCaCert := bHaveCaCert d; bHaveCrl := v;
     bHaveKey := bHaveKey d; bHaveCert := bHaveCert d |}.

Definition set_bHaveKey (v : Z) (d : nsd_mbedtls_t) :=
  {| pTcp := pTcp d; pszCAFile := pszCAFile d; pszCRLFile := pszCRLFile d;
     pszKeyFile := pszKeyFile d; pszCertFile := pszCertFile d;
     iMode := iMode d; bAbortConn := bAbortConn d; authMode := authMode d;
     bChkName := bChkName d; bHaveSess := bHaveSess d;
     DrvrVerifyDepth := DrvrVerifyDepth d; pPermPeer := pPermPeer d;
     sock := sock d; bHaveCaCert := bHaveCaCert d; bHaveCrl := bHaveCrl d;
     bHaveKey := v; bHaveCert := bHaveCert d |}.

Definition set_bHaveCert (v : Z) (d : nsd_mbedtls_t) :=
  {| pTcp := pTcp d; pszCAFile := pszCAFile d; pszCRLFile := pszCRLFile d;
     pszKeyFile := pszKeyFile d; pszCertFile := pszCertFile d;
     iMode := iMode d; bAbortConn := bAbortConn d; authMode := authMode d;
     bChkName := bChkName d; bHaveSess := bHaveSess d;
     DrvrVerifyDepth := DrvrVerifyDepth d; pPermPeer := pPermPeer d;
     sock := sock d; bHaveCaCert := bHaveCaCert d; bHaveCrl := bHaveCrl d;
     bHaveKey := bHaveKey d; bHaveCert := v |}.

(** ** The C library *)

(** [strcasecmp] of POSIX in the C locale, where [tolower] moves the 26
    letters A..Z and nothing else.  [cur] reads the byte under the pointer
    ([0] at the end of the string), [next] advances it. *)
Definition uchar (a : ascii) : Z := Z.of_N (N_of_ascii a).

Definition cur (s : string) : Z :=
  match s with EmptyString => 0 | String a _ => uchar a end.

Definition next (s : string) : string :=
  match s with EmptyString => EmptyString | String _ t => t end.

Definition tolower (c : Z) : Z :=
  if (65 <=? c) && (c <=? 90) then c + 32 else c.

Fixpoint strcasecmp (s1 s2 : string) : Z :=
  let result := tolower (cur s1) - tolower (cur s2) in
  if result =? 0 then
    match s1 with
    | EmptyString => 0
    | String a t1 => if uchar a =? 0 then 0 else strcasecmp t1 (next s2)
    end
  else result.

(** ** nsd_mbedtls.c *)

Section nsd_mbedtls.
Context {codes : Codes}.

(** [DEFiRet] starts [iRet] at [RS_RET_OK]; a body that runs to its end
    returns that. *)
Definition iRet_of {A} (r : flow A) : Z :=
  match r with Next _ => RS_RET_OK | Finalize iRet => iRet end.

(** Run a body from an empty trace up to [finalize_it]. *)
Definition exec {S A} (body : M S A) (s : S) : Z * S * trace :=
  let '(r, (s', tr)) := body (s, []) in (iRet_of r, s', tr).

Definition ABORT_FINALIZE {S A} (iRet : Z) : M S A :=
  fun s => (Finalize iRet, s).

(** [FINALIZE] is a bare [goto finalize_it].  Everywhere the two files use
    it, [iRet] is [RS_RET_OK] at that point (it is its initial value, or a
    [CHKiRet] just passed). *)
Definition FINALIZE {S A} : M S A := ABORT_FINALIZE RS_RET_OK.

(** [CHKiRet(f(...))] on a collaborator [f] that answers [rc]. *)
Definition CHKiRet {S} (c : call) (rc : Z) : M S unit :=
  emit c ;; emit (answered rc) ;;
  if rc =? RS_RET_OK then ret tt else ABORT_FINALIZE rc.

(** [CHKiRet(f(pThis))] on a function [f] of this file. *)
Definition CHKiRet_fn {S} (f : S -> Z * S * trace) : M S unit :=
  fun s =>
    let '(iRet, s', tr) := f (fst s) in
    (if iRet =? RS_RET_OK then Next tt else Finalize iRet,
     (s', snd s ++ tr ++ [answered iRet])).

(** [CHKmalloc(p = ...)] where the allocation gave NULL or not. *)
Definition CHKmalloc {S} (null : bool) : M S unit :=
  emit (allocated null) ;;
  if null then ABORT_FINALIZE RS_RET_OUT_OF_MEMORY else ret tt.

(** *** Session and credentials *)

Record cred_answers : Type := {
  GetDfltNetstrmDrvrKeyFile : option string;
  GetDfltNetstrmDrvrCertFile : option string;
  GetDfltNetstrmDrvrCAF : option string;
  GetDfltNetstrmDrvrCRLF : option string;
  ret_pk_parse_keyfile : string -> Z;
  ret_x509_crt_parse_file : string -> Z;
  ret_x509_crl_parse_file : string -> Z
}.

Definition mbedtlsInitCred (a : cred_answers) (pThis : nsd_mbedtls_t)
  : Z * nsd_mbedtls_t * trace :=
  let keyFile := if is_null (pszKeyFile pThis)
                 then GetDfltNetstrmDrvrKeyFile a else pszKeyFile pThis in
  let certFile := if is_null (pszCertFile pThis)
                  then GetDfltNetstrmDrvrCertFile a else pszCertFile pThis in
  let cafile := if is_null (pszCAFile pThis)
                then GetDfltNetstrmDrvrCAF a else pszCAFile pThis in
  let crlfile := if is_null (pszCRLFile pThis)
                 then GetDfltNetstrmDrvrCRLF a else pszCRLFile pThis in
  let '(iRet, d, tr) :=
    exec (
      match keyFile with
      | Some f =>
          emit (mbedtls_free ctx_pkey) ;; emit (mbedtls_init ctx_pkey) ;;
          CHKiRet (mbedtls_pk_parse_keyfile f) (ret_pk_parse_keyfile a f) ;;
          modify (set_bHaveKey 1)
      | None => ret tt
      end ;;
      match certFile with
      | Some f =>
          emit (mbedtls_free ctx_srvcert) ;; emit (mbedtls_init ctx_srvcert) ;;
          CHKiRet (mbedtls_x509_crt_parse_file f) (ret_x509_crt_parse_file a f) ;;
          modify (set_bHaveCert 1)
      | None => ret tt
      end ;;
      match cafile with
      | Some f =>
          emit (mbedtls_free ctx_cacert) ;; emit (mbedtls_init ctx_cacert) ;;
          CHKiRet (mbedtls_x509_crt_parse_file f) (ret_x509_crt_parse_file a f) ;;
          modify (set_bHaveCaCert 1)
      | None => ret tt
      end ;;
      match crlfile with
      | Some f =>
          emit (mbedtls_free ctx_crl) ;; emit (mbedtls_init ctx_crl) ;;
          CHKiRet (mbedtls_x509_crl_parse_file f) (ret_x509_crl_parse_file a f) ;;
          modify (set_bHaveCrl 1)
      | None => ret tt
      end) pThis in
  (* finalize_it *)
  (iRet, d,
   tr ++ (if negb (iRet =? 0)
          then [LogMsg "nsd mbedtls: error parsing crypto config"] else [])).

Record session_answers : Type := {
  ret_gettimeofday : Z;
  localtime_r_null : bool;
  ret_asprintf : Z;
  ret_ctr_drbg_seed : Z
}.

Definition get_custom_string (a : session_answers) : Z :=
  if negb (ret_gettimeofday a =? RS_RET_OK) then ret_gettimeofday a
  else if localtime_r_null a then RS_RET_NO_ERRCODE
  else if ret_asprintf a =? -1 then RS_RET_OUT_OF_MEMORY
  else RS_RET_OK.

Definition mbedtlsInitSession (a : session_answers) (pThis : nsd_mbedtls_t)
  : Z * nsd_mbedtls_t * trace :=
  let '(iRet, d, tr) :=
    exec (
      CHKiRet_fn (fun d => (get_custom_string a, d, [])) ;;
      CHKiRet mbedtls_ctr_drbg_seed (ret_ctr_drbg_seed a)) pThis in
  (* finalize_it *)
  (iRet, d,
   tr ++ (if negb (iRet =? RS_RET_OK)
          then [LogError "mbedtlsInitSession failed to INIT Session"] else [])).

(** [is_pending r]: [r] is one of the two codes by which Mbed TLS says that
    the call must be repeated. *)
Definition is_pending (r : Z) : bool :=
  (r =? MBEDTLS_ERR_SSL_WANT_READ) || (r =? MBEDTLS_ERR_SSL_WANT_WRITE).

(** The [while] loop of [mbedtlsEndSess].  [close_notify i] is what the
    [i]th call of [mbedtls_ssl_close_notify] answers; every iteration makes
    one call, [fuel] bounds the calls that are followed.  The result is the
    number of calls after which the loop was left, [None] when [fuel] calls
    did not leave it. *)
Fixpoint mbedtlsEndSess_loop (fuel : nat) (close_notify : nat -> Z) (i : nat)
  : option nat :=
  match fuel with
  | O => None
  | S fuel' =>
      let mbedtlsRet := close_notify i in
      if negb (mbedtlsRet =? 0) then
        if negb (mbedtlsRet =? MBEDTLS_ERR_SSL_WANT_READ)
           && negb (mbedtlsRet =? MBEDTLS_ERR_SSL_WANT_WRITE)
        then Some (S i)                        (* break *)
        else mbedtlsEndSess_loop fuel' close_notify (S i)
      else Some (S i)
  end.

Definition mbedtlsEndSess (fuel : nat) (close_notify : nat -> Z)
  (pThis : nsd_mbedtls_t) : option (nsd_mbedtls_t * trace) :=
  if negb (bHaveSess pThis =? 0) then
    match mbedtlsEndSess_loop fuel close_notify 0 with
    | Some n => Some (set_bHaveSess 0 pThis, repeat mbedtls_ssl_close_notify n)
    | None => None
    end
  else Some (pThis, []).

(** *** Construction and destruction *)

(** The body between [BEGINobjConstruct] and [ENDobjConstruct], run on the
    zeroed object. *)
Definition calloc_nsd_mbedtls : nsd_mbedtls_t :=
  {| pTcp := None; pszCAFile := None; pszCRLFile := None; pszKeyFile := None;
     pszCertFile := None; iMode := 0; bAbortConn := 0; authMode := 0;
     bChkName := 0; bHaveSess := 0; DrvrVerifyDepth := 0; pPermPeer := None;
     sock := 0; bHaveCaCert := 0; bHaveCrl := 0; bHaveKey := 0;
     bHaveCert := 0 |}.

Definition nsd_mbedtlsInitialize (ret_ptcp_Construct : Z * option nsd_ptcp_t)
  : Z * nsd_mbedtls_t * trace :=
  (fst ret_ptcp_Construct,
   set_pTcp (snd ret_ptcp_Construct) calloc_nsd_mbedtls,
   [nsd_ptcp_Construct; mbedtls_init ctx_ssl; mbedtls_init ctx_conf;
    mbedtls_init ctx_cacert; mbedtls_init ctx_crl; mbedtls_init ctx_pkey;
    mbedtls_init ctx_srvcert; mbedtls_init ctx_ctr_drbg;
    mbedtls_init ctx_entropy]).

(** Modelled from the spec: the wrapper that the [ENDobjConstruct] macro of
    obj-types.h puts around the body.  Construct allocates the object (the
    only way it fails, then with out-of-memory and no object), runs the body
    on it, which allocates the nested plain TCP transport and initialises the
    TLS library state, and hands the object out. *)
Definition nsd_mbedtlsConstruct (calloc_null : bool)
  (ret_ptcp_Construct : Z * option nsd_ptcp_t)
  : Z * option nsd_mbedtls_t * trace :=
  if calloc_null then (RS_RET_OUT_OF_MEMORY, None, [calloc_obj])
  else
    let '(_, pThis, tr) := nsd_mbedtlsInitialize ret_ptcp_Construct in
    (RS_RET_OK, Some pThis, calloc_obj :: tr).

(** The destructor: the body between [CODESTARTobjDestruct] and
    [ENDobjDestruct].  The result is the state of the object at the end of
    the body and the calls made. *)
Definition nsd_mbedtlsDestruct_body (fuel : nat) (close_notify : nat -> Z)
  (pThis : nsd_mbedtls_t) : option (nsd_mbedtls_t * trace) :=
  match (if iMode pThis =? 1 then mbedtlsEndSess fuel close_notify pThis
         else Some (pThis, [])) with
  | None => None
  | Some (d, tr) =>
      let '(d, tr) :=
        match pTcp d with
        | Some p => (set_pTcp None d, tr ++ [nsd_ptcp_Destruct (Some p)])
        | None => (d, tr)
        end in
      Some (d,
            tr ++ [free_str (pszCAFile d); free_str (pszCRLFile d);
                   free_str (pszKeyFile d); free_str (pszCertFile d);
                   free_str (pPermPeer d);
                   mbedtls_free ctx_entropy; mbedtls_free ctx_ctr_drbg;
                   mbedtls_free ctx_srvcert; mbedtls_free ctx_pkey;
                   mbedtls_free ctx_crl; mbedtls_free ctx_cacert;
                   mbedtls_free ctx_conf; mbedtls_free ctx_ssl])
  end.

(** Modelled from the spec: the wrapper that the [BEGINobjDestruct] and
    [ENDobjDestruct] macros of obj-types.h put around the body.
    Destruction runs the body, which closes the session and releases all
    held resources, and then the object itself is released. *)
Definition nsd_mbedtlsDestruct (fuel : nat) (close_notify : nat -> Z)
  (pThis : nsd_mbedtls_t) : option (nsd_mbedtls_t * trace) :=
  match nsd_mbedtlsDestruct_body fuel close_notify pThis with
  | None => None
  | Some (d, tr) => Some (d, tr ++ [free_obj])
  end.

(** *** Option setters *)

Definition SetMode (pThis : nsd_mbedtls_t) (mode : Z)
  : Z * nsd_mbedtls_t * trace :=
  if negb (mode =? 0) && negb (mode =? 1) then
    (RS_RET_INVALID_DRVR_MODE, pThis,
     [LogError "error: driver mode %d not supported by mbedtls netstream driver"])
  else (RS_RET_OK, set_iMode mode pThis, []).

Definition SetAuthMode (pThis : nsd_mbedtls_t) (mode : option string)
  : Z * nsd_mbedtls_t * trace :=
  let pThis := set_bChkName 0 pThis in
  if match mode with
     | None => true
     | Some m => strcasecmp m "x509/name" =? 0
     end
  then
    (RS_RET_OK, set_bChkName 1 (set_authMode MBEDTLS_SSL_VERIFY_REQUIRED pThis), [])
  else if match mode with
          | None => false
          | Some m => strcasecmp m "x509/certvalid" =? 0
          end
  then (RS_RET_OK, set_authMode MBEDTLS_SSL_VERIFY_REQUIRED pThis, [])
  else if match mode with
          | None => false
          | Some m => strcasecmp m "anon" =? 0
          end
  then (RS_RET_OK, set_authMode MBEDTLS_SSL_VERIFY_NONE pThis, [])
  else
    (RS_RET_VALUE_NOT_SUPPORTED, pThis,
     [LogError "error: authentication mode '%s' not supported by mbedtls netstream driver"]).

Definition SetPermitExpiredCerts (pThis : nsd_mbedtls_t) (mode : option string)
  : Z * nsd_mbedtls_t * trace :=
  if match mode with
     | None => false
     | Some m => negb (strcasecmp m "off" =? 0)
     end
  then
    (RS_RET_VALUE_NOT_SUPPORTED, pThis,
     [LogError "error: permitexpiredcerts mode '%s' not supported by mbedtls netstream driver"])
  else (RS_RET_OK, pThis, []).

(** *** Abort, Rcv, Send *)

Definition Abort (pThis : nsd_mbedtls_t) : Z * nsd_mbedtls_t * trace :=
  if iMode pThis =? 0 then (RS_RET_OK, pThis, [nsd_ptcp_Abort (pTcp pThis)])
  else (RS_RET_OK, pThis, []).

(** [Rcv]: [lenBuf] is [*pLenBuf] on entry, [ret_ptcp_Rcv] is the status of
    [nsd_ptcp.Rcv] with the length it leaves in [*pLenBuf], [n] is what
    [mbedtls_ssl_read] answers.  The result is [iRet], [*pLenBuf] on exit and
    the calls made. *)
Definition Rcv (pThis : nsd_mbedtls_t) (lenBuf : Z) (ret_ptcp_Rcv : Z * Z)
  (n : Z) : Z * Z * trace :=
  let '(iRet, lenBuf, tr) :=
    if negb (bAbortConn pThis =? 0) then
      (RS_RET_CONNECTION_ABORTREQ, lenBuf, [])
    else if iMode pThis =? 0 then
      (fst ret_ptcp_Rcv, snd ret_ptcp_Rcv, [nsd_ptcp_Rcv (pTcp pThis)])
    else
      (* --- in TLS mode now --- *)
      if (n =? MBEDTLS_ERR_SSL_WANT_READ) || (n =? MBEDTLS_ERR_SSL_WANT_WRITE)
      then (RS_RET_RETRY, lenBuf, [mbedtls_ssl_read])
      else if n =? MBEDTLS_ERR_SSL_PEER_CLOSE_NOTIFY
      then (RS_RET_CLOSED, lenBuf, [mbedtls_ssl_read])
      else if n <? 0
      then (RS_RET_RCV_ERR, lenBuf,
            [mbedtls_ssl_read; logMbedtlsError RS_RET_RCV_ERR n])
      else if n =? 0
      then (RS_RET_EOF, lenBuf, [mbedtls_ssl_read])
      else (RS_RET_OK, n, [mbedtls_ssl_read]) in
  (* finalize_it *)
  if negb (iRet =? RS_RET_OK) && negb (iRet =? RS_RET_RETRY)
  then (iRet, 0, tr)
  else (iRet, lenBuf, tr).

(** How the [while] loop of [Send] is left. *)
Inductive send_exit : Type :=
| written (iSent : Z)        (* the loop condition failed: fall through *)
| aborted (iSent : Z).       (* ABORT_FINALIZE(iSent) *)

(** The [while] loop of [Send].  [ssl_write i] is what the [i]th call of
    [mbedtls_ssl_write] answers; the result also counts the calls made. *)
Fixpoint Send_loop (fuel : nat) (ssl_write : nat -> Z) (i : nat)
  : option (send_exit * nat) :=
  match fuel with
  | O => None
  | S fuel' =>
      let iSent := ssl_write i in
      if iSent <=? 0 then
        if negb (iSent =? MBEDTLS_ERR_SSL_WANT_READ)
           && negb (iSent =? MBEDTLS_ERR_SSL_WANT_WRITE)
        then Some (aborted iSent, S i)
        else Send_loop fuel' ssl_write (S i)
      else Some (written iSent, S i)
  end.

(** [Send]: [lenBuf] is [*pLenBuf] on entry; the result is [iRet],
    [*pLenBuf] on exit and the calls made, [None] when [fuel] calls of
    [mbedtls_ssl_write] did not end the loop. *)
Definition Send (fuel : nat) (pThis : nsd_mbedtls_t) (lenBuf : Z)
  (ret_ptcp_Send : Z * Z) (ssl_write : nat -> Z) : option (Z * Z * trace) :=
  if negb (bAbortConn pThis =? 0) then
    Some (RS_RET_CONNECTION_ABORTREQ, lenBuf, [])
  else if iMode pThis =? 0 then
    Some (fst ret_ptcp_Send, snd ret_ptcp_Send, [nsd_ptcp_Send (pTcp pThis)])
  else
    (* in TLS mode now *)
    match Send_loop fuel ssl_write 0 with
    | None => None
    | Some (aborted iSent, n) =>
        Some (iSent, lenBuf,
              repeat mbedtls_ssl_write n
              ++ [logMbedtlsError RS_RET_NO_ERRCODE iSent])
    | Some (written iSent, n) =>
        Some (RS_RET_OK, iSent, repeat mbedtls_ssl_write n)
    end.

(** *** Connect and AcceptConnReq *)

(** The answers of the calls that set a TLS session up and shake hands. *)
Record tls_answers : Type := {
  ret_ssl_config_defaults : Z;
  ret_ssl_conf_own_cert : Z;
  ret_ssl_setup : Z;
  ret_ssl_set_hostname : Z;
  ret_ptcp_GetSock : Z * Z;          (* status, the socket *)
  ret_ssl_handshake : Z
}.

Record connect_answers : Type := {
  connect_session : session_answers;
  connect_cred : cred_answers;
  ret_ptcp_Connect : Z;
  connect_tls : tls_answers
}.

Definition Connect (a : connect_answers) (pThis : nsd_mbedtls_t)
  (host : string) : Z * nsd_mbedtls_t * trace :=
  let t := connect_tls a in
  exec (
    CHKiRet_fn (mbedtlsInitSession (connect_session a)) ;;
    CHKiRet_fn (mbedtlsInitCred (connect_cred a)) ;;
    CHKiRet (nsd_ptcp_Connect (pTcp pThis)) (ret_ptcp_Connect a) ;;
    when (iMode pThis =? 0) FINALIZE ;;
    (* we reach this point if in TLS mode *)
    CHKiRet mbedtls_ssl_config_defaults (ret_ssl_config_defaults t) ;;
    d <- get ;;
    emit mbedtls_ssl_conf_rng ;;
    emit (mbedtls_ssl_conf_authmode (authMode d)) ;;
    emit (mbedtls_ssl_conf_ca_chain (negb (bHaveCaCert d =? 0))
                                    (negb (bHaveCrl d =? 0))) ;;
    emit mbedtls_ssl_conf_verify ;;
    when (negb (bHaveKey d =? 0) && negb (bHaveCert d =? 0))
      (CHKiRet mbedtls_ssl_conf_own_cert (ret_ssl_conf_own_cert t)) ;;
    CHKiRet mbedtls_ssl_setup (ret_ssl_setup t) ;;
    (if negb (bChkName d =? 0)
     then CHKiRet (mbedtls_ssl_set_hostname
                     (Some (match pPermPeer d with
                            | Some peer => peer
                            | None => host
                            end)))
                  (ret_ssl_set_hostname t)
     else CHKiRet (mbedtls_ssl_set_hostname None) (ret_ssl_set_hostname t)) ;;
    CHKiRet (nsd_ptcp_GetSock (pTcp d)) (fst (ret_ptcp_GetSock t)) ;;
    modify (set_sock (snd (ret_ptcp_GetSock t))) ;;
    emit mbedtls_ssl_set_bio ;;
    let mbedtlsRet := ret_ssl_handshake t in
    emit mbedtls_ssl_handshake ;;
    when (negb (mbedtlsRet =? 0)
          && negb (mbedtlsRet =? MBEDTLS_ERR_SSL_WANT_READ)
          && negb (mbedtlsRet =? MBEDTLS_ERR_SSL_WANT_WRITE))
      (emit (logMbedtlsError RS_RET_TLS_HANDSHAKE_ERR mbedtlsRet) ;;
       ABORT_FINALIZE RS_RET_TLS_HANDSHAKE_ERR) ;;
    modify (set_bHaveSess 1)) pThis.

Record accept_answers : Type := {
  calloc_null : bool;
  ret_ptcp_Construct : Z * option nsd_ptcp_t;
  ret_ptcp_Destruct : Z;
  ret_ptcp_AcceptConnReq : Z * option nsd_ptcp_t;
  strdup_pPermPeer_null : bool;
  strdup_pszCertFile_null : bool;
  strdup_pszKeyFile_null : bool;
  strdup_pszCAFile_null : bool;
  strdup_pszCRLFile_null : bool;
  accept_session : session_answers;
  accept_cred : cred_answers;
  accept_tls : tls_answers
}.

(** The body of [AcceptConnReq] from the second [CHKiRet] on, as a
    transformer of the new driver [pNew]; its value is what it stores in
    [*ppNew]. *)
Record accept_locals : Type := {
  pNew : nsd_mbedtls_t;
  ppNew : option nsd_mbedtls_t
}.

Definition on_pNew (f : nsd_mbedtls_t -> nsd_mbedtls_t) (l : accept_locals)
  : accept_locals :=
  {| pNew := f (pNew l); ppNew := ppNew l |}.

Definition fn_on_pNew (f : nsd_mbedtls_t -> Z * nsd_mbedtls_t * trace)
  (l : accept_locals) : Z * accept_locals * trace :=
  let '(iRet, d, tr) := f (pNew l) in
  (iRet, {| pNew := d; ppNew := ppNew l |}, tr).

(** [*ppNew = (nsd_t* ) pNew] *)
Definition store_ppNew (l : accept_locals) : accept_locals :=
  {| pNew := pNew l; ppNew := Some (pNew l) |}.

Definition AcceptConnReq_body (a : accept_answers) (pThis : nsd_mbedtls_t)
  : M accept_locals unit :=
  let t := accept_tls a in
  l <- get ;;
  CHKiRet (nsd_ptcp_Destruct (pTcp (pNew l))) (ret_ptcp_Destruct a) ;;
  modify (on_pNew (set_pTcp None)) ;;
  CHKiRet (nsd_ptcp_AcceptConnReq (pTcp pThis))
          (fst (ret_ptcp_AcceptConnReq a)) ;;
  modify (on_pNew (set_pTcp (snd (ret_ptcp_AcceptConnReq a)))) ;;
  when (iMode pThis =? 0)
    (* we are in non-TLS mode, so we are done *)
    (modify store_ppNew ;; FINALIZE) ;;
  (* copy Properties to pnew first *)
  modify (on_pNew (set_authMode (authMode pThis))) ;;
  modify (on_pNew (set_bChkName (bChkName pThis))) ;;
  when (negb (is_null (pPermPeer pThis)))
    (CHKmalloc (strdup_pPermPeer_null a) ;;
     modify (on_pNew (set_pPermPeer (pPermPeer pThis)))) ;;
  modify (on_pNew (set_DrvrVerifyDepth (DrvrVerifyDepth pThis))) ;;
  when (negb (is_null (pszCertFile pThis)))
    (CHKmalloc (strdup_pszCertFile_null a) ;;
     modify (on_pNew (set_pszCertFile (pszCertFile pThis)))) ;;
  when (negb (is_null (pszKeyFile pThis)))
    (CHKmalloc (strdup_pszKeyFile_null a) ;;
     modify (on_pNew (set_pszKeyFile (pszKeyFile pThis)))) ;;
  when (negb (is_null (pszCAFile pThis)))
    (CHKmalloc (strdup_pszCAFile_null a) ;;
     modify (on_pNew (set_pszCAFile (pszCAFile pThis)))) ;;
  when (negb (is_null (pszCRLFile pThis)))
    (CHKmalloc (strdup_pszCRLFile_null a) ;;
     modify (on_pNew (set_pszCRLFile (pszCRLFile pThis)))) ;;
  modify (on_pNew (set_iMode (iMode pThis))) ;;
  (* if we reach this point, we are in TLS mode *)
  CHKiRet_fn (fn_on_pNew (mbedtlsInitSession (accept_session a))) ;;
  CHKiRet_fn (fn_on_pNew (mbedtlsInitCred (accept_cred a))) ;;
  CHKiRet mbedtls_ssl_config_defaults (ret_ssl_config_defaults t) ;;
  l <- get ;;
  let d := pNew l in
  emit mbedtls_ssl_conf_rng ;;
  emit (mbedtls_ssl_conf_authmode (authMode d)) ;;
  emit (mbedtls_ssl_conf_ca_chain (negb (bHaveCaCert d =? 0))
                                  (negb (bHaveCrl d =? 0))) ;;
  emit mbedtls_ssl_conf_verify ;;
  when (negb (bHaveKey d =? 0) && negb (bHaveCert d =? 0))
    (CHKiRet mbedtls_ssl_conf_own_cert (ret_ssl_conf_own_cert t)) ;;
  CHKiRet mbedtls_ssl_setup (ret_ssl_setup t) ;;
  (if negb (bChkName d =? 0) && negb (is_null (pPermPeer d))
   then CHKiRet (mbedtls_ssl_set_hostname (pPermPeer d))
                (ret_ssl_set_hostname t)
   else CHKiRet (mbedtls_ssl_set_hostname None) (ret_ssl_set_hostname t)) ;;
  CHKiRet (nsd_ptcp_GetSock (pTcp d)) (fst (ret_ptcp_GetSock t)) ;;
  modify (on_pNew (set_sock (snd (ret_ptcp_GetSock t)))) ;;
  emit mbedtls_ssl_set_bio ;;
  let mbedtlsRet := ret_ssl_handshake t in
  emit mbedtls_ssl_handshake ;;
  when (negb (mbedtlsRet =? 0)
        && negb (mbedtlsRet =? MBEDTLS_ERR_SSL_WANT_READ)
        && negb (mbedtlsRet =? MBEDTLS_ERR_SSL_WANT_WRITE))
    (emit (logMbedtlsError RS_RET_TLS_HANDSHAKE_ERR mbedtlsRet) ;;
     ABORT_FINALIZE RS_RET_TLS_HANDSHAKE_ERR) ;;
  modify (on_pNew (set_bHaveSess 1)) ;;
  modify store_ppNew.

(** [AcceptConnReq] on the listener [pThis].  The result is [iRet], what the
    caller finds in [*ppNew] ([None]: never assigned) and the calls made.
    [fuel] and [close_notify] are those of the destructor that the
    [finalize_it] block runs on failure. *)
Definition AcceptConnReq (fuel : nat) (close_notify : nat -> Z)
  (a : accept_answers) (pThis : nsd_mbedtls_t)
  : option (Z * option nsd_mbedtls_t * trace) :=
  let '(iRet0, pNew0, tr0) :=
    nsd_mbedtlsConstruct (calloc_null a) (ret_ptcp_Construct a) in
  match pNew0 with
  | None => Some (iRet0, None, tr0)         (* pNew == NULL at finalize_it *)
  | Some d0 =>
      let '(iRet, l, tr) :=
        if iRet0 =? RS_RET_OK
        then exec (AcceptConnReq_body a pThis) {| pNew := d0; ppNew := None |}
        else (iRet0, {| pNew := d0; ppNew := None |}, []) in
      (* finalize_it *)
      if negb (iRet =? RS_RET_OK) then
        match nsd_mbedtlsDestruct fuel close_notify (pNew l) with
        | None => None
        | Some (_, trd) => Some (iRet, ppNew l, tr0 ++ tr ++ trd)
        end
      else Some (iRet, ppNew l, tr0 ++ tr)
  end.

End nsd_mbedtls.

(** ** nsdsel_mbedtls.c *)

(** The arithmetic of a C [int]: 32 bits, two's complement. *)
Definition INT_MIN : Z := - 2 ^ 31.
Definition INT_MAX : Z := 2 ^ 31 - 1.
Definition int_wrap (z : Z) : Z := (z + 2 ^ 31) mod 2 ^ 32 - 2 ^ 31.

(** [struct nsdsel_mbedtls_s] of nsdsel_mbedtls.h; [sel_pTcp] is its [pTcp],
    the handle on the aggregated [nsdsel_ptcp] object. *)
Record nsdsel_mbedtls_t : Type := {
  sel_pTcp : option nat;
  iBufferRcvReady : Z
}.

Definition set_iBufferRcvReady (v : Z) (s : nsdsel_mbedtls_t) :=
  {| sel_pTcp := sel_pTcp s; iBufferRcvReady := v |}.

Definition is_NSDSEL_RD (waitOp : nsdsel_waitOp_t) : bool :=
  match waitOp with NSDSEL_RD => true | _ => false end.

Section nsdsel_mbedtls.
Context {codes : Codes}.

(** In the three functions, [bytes_avail] is what
    [mbedtls_ssl_get_bytes_avail] answers for the session of [pNsd] (a
    [size_t]), and [ret_ptcp_*] is what the aggregated [nsdsel_ptcp] object
    answers if it is called. *)

(** Add a socket to the select set. *)
Definition Add (pThis : nsdsel_mbedtls_t) (pNsd : nsd_mbedtls_t)
  (bytes_avail : N) (waitOp : nsdsel_waitOp_t) (ret_ptcp_Add : Z)
  : Z * nsdsel_mbedtls_t * trace :=
  if (iMode pNsd =? 1)
     && (is_NSDSEL_RD waitOp && negb (bytes_avail =? 0)%N)
  then
    (RS_RET_OK,
     set_iBufferRcvReady (int_wrap (iBufferRcvReady pThis + 1)) pThis, [])
  else
    (* if we reach this point, we need no special handling *)
    (ret_ptcp_Add, pThis, [nsdsel_ptcp_Add (pTcp pNsd) waitOp]).

(** Perform the select(); the second component is [*piNumReady]. *)
Definition Select (pThis : nsdsel_mbedtls_t) (ret_ptcp_Select : Z * Z)
  : Z * Z * trace :=
  if iBufferRcvReady pThis >? 0 then
    (* we still have data ready! *)
    (RS_RET_OK, iBufferRcvReady pThis, [])
  else
    (fst ret_ptcp_Select, snd ret_ptcp_Select, [nsdsel_ptcp_Select]).

(** Check if a socket is ready for IO; the second component is
    [*pbIsReady]. *)
Definition IsReady (pThis : nsdsel_mbedtls_t) (pNsd : nsd_mbedtls_t)
  (bytes_avail : N) (waitOp : nsdsel_waitOp_t) (ret_ptcp_IsReady : Z * Z)
  : Z * Z * nsdsel_mbedtls_t * trace :=
  if (iMode pNsd =? 1)
     && (is_NSDSEL_RD waitOp && (0 <? bytes_avail)%N)
  then
    (RS_RET_OK, 1,
     set_iBufferRcvReady (int_wrap (iBufferRcvReady pThis - 1)) pThis, [])
  else if negb (iBufferRcvReady pThis =? 0) then
    (RS_RET_OK, 0, pThis, [])
  else
    (fst ret_ptcp_IsReady, snd ret_ptcp_IsReady, pThis,
     [nsdsel_ptcp_IsReady (pTcp pNsd) waitOp]).

End nsdsel_mbedtls.

(** ** A polling round *)

(** One driver as a polling loop presents it to the multiplexer: the driver,
    the bytes its TLS session holds decrypted, the wait operation, and what
    the aggregated plain TCP multiplexer answers for it if asked. *)
Record polled : Type := {
  drv : nsd_mbedtls_t;
  avail : N;
  op : nsdsel_waitOp_t;
  ans_Add : Z;
  ans_IsReady : Z * Z
}.

(** The drivers for which [Add] and [IsReady] take the buffered-bytes
    shortcut: TLS mode, waiting to read, decrypted bytes at hand. *)
Definition buffered (q : polled) : bool :=
  (iMode (drv q) =? 1) && (is_NSDSEL_RD (op q) && (0 <? avail q)%N).

(** The number of drivers of a round that take the buffered-bytes
    shortcut. *)
Fixpoint nb_buffered (l : list polled) : Z :=
  match l with
  | [] => 0
  | q :: l' => (if buffered q then 1 else 0) + nb_buffered l'
  end.

Section round.
Context {codes : Codes}.

(** [Add] for every driver of the round, in order. *)
Fixpoint Add_all (pThis : nsdsel_mbedtls_t) (l : list polled)
  : nsdsel_mbedtls_t * trace :=
  match l with
  | [] => (pThis, [])
  | q :: l' =>
      let '(_, pThis', tr) := Add pThis (drv q) (avail q) (op q) (ans_Add q) in
      let '(pThis'', tr') := Add_all pThis' l' in
      (pThis'', tr ++ tr')
  end.

(** [IsReady] for every driver of the round, in order; the result lists the
    answers in [*pbIsReady]. *)
Fixpoint IsReady_all (pThis : nsdsel_mbedtls_t) (l : list polled)
  : nsdsel_mbedtls_t * list Z * trace :=
  match l with
  | [] => (pThis, [], [])
  | q :: l' =>
      let '(_, b, pThis', tr) :=
        IsReady pThis (drv q) (avail q) (op q) (ans_IsReady q) in
      let '(pThis'', bs, tr') := IsReady_all pThis' l' in
      (pThis'', b :: bs, tr ++ tr')
  end.

End round.

(** ** Specifications of bodies *)

(** [triple P m Q E]: started in a state and trace that satisfy [P], the
    body [m] either goes on with a value and [Q], or leaves for
    [finalize_it] with a status and [E]. *)
Definition triple {S A} (P : S -> trace -> Prop) (m : M S A)
  (Q : A -> S -> trace -> Prop) (E : Z -> S -> trace -> Prop) : Prop :=
  forall s tr, P s tr ->
    match m (s, tr) with
    | (Next a, (s', tr')) => Q a s' tr'
    | (Finalize iRet, (s', tr')) => E iRet s' tr'
    end.

(** Steps that keep an invariant.  The invariant has two parts, [ok] on the
    calls of the trace and [J] on the state; [X] is what holds of a status
    with which a step leaves. *)
Section invariant.
Context {S : Type}.
Variable ok : call -> Prop.
Variable J : S -> Prop.
Variable X : Z -> Prop.

Definition Inv (s : S) (tr : trace) : Prop := Forall ok tr /\ J s.

Definition Exit (iRet : Z) (s : S) (tr : trace) : Prop :=
  X iRet /\ Inv s tr.

Definition step {A} (m : M S A) : Prop :=
  triple Inv m (fun _ => Inv) Exit.

End invariant.



(** ** Option strings up to the case of letters *)

(** The C string that [s] denotes: the bytes before the first NUL. *)
Fixpoint c_str (s : string) : string :=
  match s with
  | EmptyString => EmptyString
  | String a t => if uchar a =? 0 then EmptyString else String a (c_str t)
  end.

(** Two bytes that are equal, or the capital and the small form of one of
    the letters A..Z. *)
Definition same_letter (a b : ascii) : bool :=
  let x := uchar a in
  let y := uchar b in
  (x =? y)
  || ((65 <=? x) && (x <=? 90) && (y =? x + 32))
  || ((65 <=? y) && (y <=? 90) && (x =? y + 32)).

(** [case_variant s t]: [t] is [s] with some of its letters in the other
    case. *)
Fixpoint case_variant (s t : string) : bool :=
  match s, t with
  | EmptyString, EmptyString => true
  | String a s', String b t' => same_letter a b && case_variant s' t'
  | _, _ => false
  end.

(** ** Handshake outcomes *)

(** The answers of [mbedtls_ssl_handshake] that are success or one of the
    two pending codes. *)
Definition handshake_ok {codes : Codes} (h : Z) : bool :=
  (h =? 0) || is_pending h.

(** The calls other than the handshake and the release of a driver. *)
Definition setup_call (c : call) : Prop :=
  c <> mbedtls_ssl_handshake /\ c <> free_obj.

(** What [Connect] owes after a handshake: [b0] is [bHaveSess] on entry,
    [h] the answer of [mbedtls_ssl_handshake], the rest is the result. *)
Definition Connect_post {codes : Codes} (b0 h : Z)
  (iRet : Z) (d : nsd_mbedtls_t) (tr : trace) : Prop :=
  In mbedtls_ssl_handshake tr ->
  (handshake_ok h = true -> iRet = RS_RET_OK /\ bHaveSess d = 1)
  /\ (handshake_ok h = false ->
      iRet = RS_RET_TLS_HANDSHAKE_ERR /\ bHaveSess d = b0).

(** What the body of [AcceptConnReq] owes at [finalize_it]. *)
Definition accept_post {codes : Codes} (h : Z)
  (iRet : Z) (l : accept_locals) (tr : trace) : Prop :=
  ~ In free_obj tr
  /\ (iRet = RS_RET_OK ->
      ppNew l = Some (pNew l) /\ bHaveSess (pNew l) = 1
      /\ In mbedtls_ssl_handshake tr /\ handshake_ok h = true)
  /\ (iRet <> RS_RET_OK ->
      ppNew l = None /\ bHaveSess (pNew l) = 0
      /\ (In mbedtls_ssl_handshake tr ->
          handshake_ok h = false /\ iRet = RS_RET_TLS_HANDSHAKE_ERR)).

(** ** Concrete inputs *)

(** A driver in TLS mode, as [SetAuthMode(NULL)] and a completed [Connect]
    leave it; used to evaluate statements on a concrete input. *)
Definition tls_driver : nsd_mbedtls_t :=
  {| pTcp := Some 7%nat; pszCAFile := Some "ca.pem"%string; pszCRLFile := None;
     pszKeyFile := Some "key.pem"%string; pszCertFile := Some "cert.pem"%string;
     iMode := 1; bAbortConn := 0; authMode := 2; bChkName := 1;
     bHaveSess := 1; DrvrVerifyDepth := 0;
     pPermPeer := Some "peer.example.net"%string;
     sock := 5; bHaveCaCert := 1; bHaveCrl := 0; bHaveKey := 1;
     bHaveCert := 1 |}.

(** A driver in plain TCP mode, freshly constructed. *)
Definition plain_driver : nsd_mbedtls_t :=
  {| pTcp := Some 8%nat; pszCAFile := None; pszCRLFile := None;
     pszKeyFile := None; pszCertFile := None;
     iMode := 0; bAbortConn := 0; authMode := 0; bChkName := 0;
     bHaveSess := 0; DrvrVerifyDepth := 0; pPermPeer := None;
     sock := 6; bHaveCaCert := 0; bHaveCrl := 0; bHaveKey := 0;
     bHaveCert := 0 |}.

(** A multiplexer at the start of a round, and one with two dummy
    registrations outstanding. *)
Definition sel_idle : nsdsel_mbedtls_t :=
  {| sel_pTcp := Some 1%nat; iBufferRcvReady := 0 |}.

Definition sel_two : nsdsel_mbedtls_t :=
  {| sel_pTcp := Some 1%nat; iBufferRcvReady := 2 |}.

(** A round of three drivers, two of which hold decrypted bytes. *)
Definition round_three : list polled :=
  [ {| drv := tls_driver; avail := 100; op := NSDSEL_RD;
       ans_Add := 0; ans_IsReady := (0, 0) |};
    {| drv := plain_driver; avail := 0; op := NSDSEL_RD;
       ans_Add := 0; ans_IsReady := (0, 1) |};
    {| drv := tls_driver; avail := 3; op := NSDSEL_RD;
       ans_Add := 0; ans_IsReady := (0, 0) |} ].

(** Answers of a library call that is pending twice (want-read, then
    want-write) and answers [r] from then on. *)
Definition pending_twice_then (r : Z) (j : nat) : Z :=
  match j with
  | O => -26880
  | S O => -26752
  | _ => r
  end.

(** Collaborators that answer success everywhere, up to the handshake,
    which answers [h]. *)
Definition session_good : session_answers :=
  {| ret_gettimeofday := 0; localtime_r_null := false; ret_asprintf := 41;
     ret_ctr_drbg_seed := 0 |}.

Definition cred_good : cred_answers :=
  {| GetDfltNetstrmDrvrKeyFile := None; GetDfltNetstrmDrvrCertFile := None;
     GetDfltNetstrmDrvrCAF := None; GetDfltNetstrmDrvrCRLF := None;
     ret_pk_parse_keyfile := fun _ => 0;
     ret_x509_crt_parse_file := fun _ => 0;
     ret_x509_crl_parse_file := fun _ => 0 |}.

Definition tls_good (h : Z) : tls_answers :=
  {| ret_ssl_config_defaults := 0; ret_ssl_conf_own_cert := 0;
     ret_ssl_setup := 0; ret_ssl_set_hostname := 0;
     ret_ptcp_GetSock := (0, 5); ret_ssl_handshake := h |}.

Definition connect_good (h : Z) : connect_answers :=
  {| connect_session := session_good; connect_cred := cred_good;
     ret_ptcp_Connect := 0; connect_tls := tls_good h |}.

Definition accept_good (h : Z) : accept_answers :=
  {| calloc_null := false; ret_ptcp_Construct := (0, Some 9%nat);
     ret_ptcp_Destruct := 0; ret_ptcp_AcceptConnReq := (0, Some 10%nat);
     strdup_pPermPeer_null := false; strdup_pszCertFile_null := false;
     strdup_pszKeyFile_null := false; strdup_pszCAFile_null := false;
     strdup_pszCRLFile_null := false;
     accept_session := session_good; accept_cred := cred_good;
     accept_tls := tls_good h |}.

(** The same, except that the key file does not parse
    (MBEDTLS_ERR_PK_KEY_INVALID_FORMAT). *)
Definition accept_bad_key : accept_answers :=
  {| calloc_null := false; ret_ptcp_Construct := (0, Some 9%nat);
     ret_ptcp_Destruct := 0; ret_ptcp_AcceptConnReq := (0, Some 10%nat);
     strdup_pPermPeer_null := false; strdup_pszCertFile_null := false;
     strdup_pszKeyFile_null := false; strdup_pszCAFile_null := false;
     strdup_pszCRLFile_null := false;
     accept_session := session_good;
     accept_cred :=
       {| GetDfltNetstrmDrvrKeyFile := None;
          GetDfltNetstrmDrvrCertFile := None;
          GetDfltNetstrmDrvrCAF := None; GetDfltNetstrmDrvrCRLF := None;
          ret_pk_parse_keyfile := fun _ => -15616;
          ret_x509_crt_parse_file := fun _ => 0;
          ret_x509_crl_parse_file := fun _ => 0 |};
     accept_tls := tls_good 0 |}.

(** A driver configured for TLS that has no session yet: a client before
    [Connect], or a listener. *)
Definition tls_configured : nsd_mbedtls_t := set_bHaveSess 0 tls_driver.

(** A close-notify that succeeds at once. *)
Definition close_at_once (j : nat) : Z := 0.

(** ** Further codes *)

(** The codes that the remaining entry points of nsd_mbedtls.c use: two more
    enumerators of [rsRetVal], the Mbed TLS codes of the network callbacks
    and of the verification callback, the [errno] values that
    [mbedtlsNetRecv] tells apart, and the two peer types that [SetPermPeers]
    admits.  As with [Codes], the headers are elsewhere and the values are
    parameters. *)
Class NetCodes : Type := {
  RS_RET_IO_ERROR : Z;
  RS_RET_VALUE_NOT_IN_THIS_MODE : Z;
  MBEDTLS_ERR_NET_RECV_FAILED : Z;
  MBEDTLS_ERR_NET_SEND_FAILED : Z;
  MBEDTLS_ERR_NET_CONN_RESET : Z;
  MBEDTLS_ERR_X509_FATAL_ERROR : Z;
  EAGAIN : Z;
  EWOULDBLOCK : Z;
  EINTR : Z;
  EPIPE : Z;
  ECONNRESET : Z;
  PERM_PEER_TYPE_UNDECIDED : Z;
  PERM_PEER_TYPE_PLAIN : Z
}.

(** What is assumed of them: the Mbed TLS codes are negative, and differ
    from one another and from the two pending codes; the [errno] values of
    the two groups that [mbedtlsNetRecv] tells apart are disjoint ([EAGAIN]
    and [EWOULDBLOCK] may coincide); the new enumerators of [rsRetVal] differ
    from those they are compared with. *)
Record NetCodesOk (c : Codes) (n : NetCodes) : Prop := {
  recv_failed_neg : MBEDTLS_ERR_NET_RECV_FAILED < 0;
  send_failed_neg : MBEDTLS_ERR_NET_SEND_FAILED < 0;
  conn_reset_neg : MBEDTLS_ERR_NET_CONN_RESET < 0;
  x509_fatal_neg : MBEDTLS_ERR_X509_FATAL_ERROR < 0;
  net_distinct :
    distinct [MBEDTLS_ERR_SSL_WANT_READ; MBEDTLS_ERR_SSL_WANT_WRITE;
              MBEDTLS_ERR_NET_RECV_FAILED; MBEDTLS_ERR_NET_SEND_FAILED;
              MBEDTLS_ERR_NET_CONN_RESET];
  errno_again_pipe : differs_from_all EAGAIN [EPIPE; ECONNRESET];
  errno_wouldblock_pipe : differs_from_all EWOULDBLOCK [EPIPE; ECONNRESET];
  errno_intr_pipe : differs_from_all EINTR [EPIPE; ECONNRESET];
  not_in_this_mode_distinct :
    differs_from_all RS_RET_VALUE_NOT_IN_THIS_MODE
      [RS_RET_OK; RS_RET_OUT_OF_MEMORY; RS_RET_VALUE_NOT_SUPPORTED]
}.

(** One assignment of values, after rsyslog.h, mbedtls/net_sockets.h,
    mbedtls/x509.h, the errno.h of Linux and net.h. *)
Definition released_net_codes : NetCodes := {|
  RS_RET_IO_ERROR := -2027;
  RS_RET_VALUE_NOT_IN_THIS_MODE := -2087;
  MBEDTLS_ERR_NET_RECV_FAILED := -76;       (* -0x004C *)
  MBEDTLS_ERR_NET_SEND_FAILED := -78;       (* -0x004E *)
  MBEDTLS_ERR_NET_CONN_RESET := -80;        (* -0x0050 *)
  MBEDTLS_ERR_X509_FATAL_ERROR := -12288;   (* -0x3000 *)
  EAGAIN := 11;
  EWOULDBLOCK := 11;
  EINTR := 4;
  EPIPE := 32;
  ECONNRESET := 104;
  PERM_PEER_TYPE_UNDECIDED := 0;
  PERM_PEER_TYPE_PLAIN := 1
|}.

(** ** nsd_mbedtls.c: the remaining option setters and the callbacks *)

(** [strdup]: NULL when there is no memory, a copy otherwise. *)
Definition strdup (null : bool) (s : string) : option string :=
  if null then None else Some s.

(** The fields of a [permittedPeers_t] (net.h) that [SetPermPeers] reads:
    the ID and the type of the entry.  The linked list that [pNext] makes of
    such entries is a list, NULL being the empty one. *)
Record permittedPeers_t : Type := {
  pszID : string;
  etryType : Z
}.

Section nsd_mbedtls_options.
Context {codes : Codes} {net : NetCodes}.

(** Set permitted peers.  [strdup_null] tells whether the [strdup] of the
    ID, if the code gets there, finds no memory. *)
Definition SetPermPeers (pThis : nsd_mbedtls_t)
  (pPermPeers : list permittedPeers_t) (strdup_null : bool)
  : Z * nsd_mbedtls_t * trace :=
  exec (
    match pPermPeers with
    | p :: pNext =>
        when (negb (authMode pThis =? MBEDTLS_SSL_VERIFY_REQUIRED)
              || (bChkName pThis =? 0))
          (emit (LogError "SetPermPeers not supported by mbedtls netstream driver in the configured authentication mode") ;;
           ABORT_FINALIZE RS_RET_VALUE_NOT_IN_THIS_MODE) ;;
        when (negb (etryType p =? PERM_PEER_TYPE_UNDECIDED)
              && negb (etryType p =? PERM_PEER_TYPE_PLAIN))
          (emit (LogError "SetPermPeers: only plain text peer authentication supported by mbedtls netstream driver") ;;
           ABORT_FINALIZE RS_RET_VALUE_NOT_SUPPORTED) ;;
        when (match pNext with [] => false | _ :: _ => true end)
          (emit (LogMsg "SetPermPeers warning: only one peer supported by mbedtls netstream driver")) ;;
        emit (free_str (pPermPeer pThis)) ;;
        modify (set_pPermPeer (strdup strdup_null (pszID p))) ;;
        CHKmalloc strdup_null
    | [] =>
        emit (free_str (pPermPeer pThis)) ;;
        modify (set_pPermPeer None)
    end) pThis.

Definition SetGnutlsPriorityString (pThis : nsd_mbedtls_t)
  (gnutlsPriorityString : option string) : Z * nsd_mbedtls_t * trace :=
  exec (
    when (is_null gnutlsPriorityString) FINALIZE ;;
    emit (LogError "error: SetGnutlsPriorityString: %s not supported by mbedtls netstream driver") ;;
    (ABORT_FINALIZE RS_RET_VALUE_NOT_SUPPORTED : M nsd_mbedtls_t unit)) pThis.

Definition SetCheckExtendedKeyUsage (pThis : nsd_mbedtls_t)
  (ChkExtendedKeyUsage : Z) : Z * nsd_mbedtls_t * trace :=
  (RS_RET_OK, pThis,
   if negb (ChkExtendedKeyUsage =? 1)
   then [LogMsg "warning: driver ChkExtendedKeyUsage %d ignored as not supported by mbedtls netstream driver"]
   else []).

Definition SetPrioritizeSAN (pThis : nsd_mbedtls_t) (prioritizeSan : Z)
  : Z * nsd_mbedtls_t * trace :=
  (RS_RET_OK, pThis,
   if negb (prioritizeSan =? 1)
   then [LogMsg "warning: driver PrioritizeSAN %d ignored as not supported by mbedtls netstream driver"]
   else []).

Definition SetTlsVerifyDepth (pThis : nsd_mbedtls_t) (verifyDepth : Z)
  : Z * nsd_mbedtls_t * trace :=
  (RS_RET_OK, set_DrvrVerifyDepth verifyDepth pThis, []).

(** The four setters of credential paths.  Each releases the old string,
    then stores NULL or a copy of the new one; [strdup_null] tells whether
    that copy finds no memory. *)
Definition SetTlsCAFile (pThis : nsd_mbedtls_t) (caFile : option string)
  (strdup_null : bool) : Z * nsd_mbedtls_t * trace :=
  exec (
    emit (free_str (pszCAFile pThis)) ;;
    match caFile with
    | None => modify (set_pszCAFile None)
    | Some f =>
        modify (set_pszCAFile (strdup strdup_null f)) ;;
        CHKmalloc strdup_null
    end) pThis.

Definition SetTlsCRLFile (pThis : nsd_mbedtls_t) (crlFile : option string)
  (strdup_null : bool) : Z * nsd_mbedtls_t * trace :=
  exec (
    emit (free_str (pszCRLFile pThis)) ;;
    match crlFile with
    | None => modify (set_pszCRLFile None)
    | Some f =>
        modify (set_pszCRLFile (strdup strdup_null f)) ;;
        CHKmalloc strdup_null
    end) pThis.

Definition SetTlsKeyFile (pThis : nsd_mbedtls_t) (pszFile : option string)
  (strdup_null : bool) : Z * nsd_mbedtls_t * trace :=
  exec (
    emit (free_str (pszKeyFile pThis)) ;;
    match pszFile with
    | None => modify (set_pszKeyFile None)
    | Some f =>
        modify (set_pszKeyFile (strdup strdup_null f)) ;;
        CHKmalloc strdup_null
    end) pThis.

Definition SetTlsCertFile (pThis : nsd_mbedtls_t) (pszFile : option string)
  (strdup_null : bool) : Z * nsd_mbedtls_t * trace :=
  exec (
    emit (free_str (pszCertFile pThis)) ;;
    match pszFile with
    | None => modify (set_pszCertFile None)
    | Some f =>
        modify (set_pszCertFile (strdup strdup_null f)) ;;
        CHKmalloc strdup_null
    end) pThis.

(** *** The callbacks handed to Mbed TLS *)

(** Allow Mbed TLS to read data from the network.  [slen] is what [recv]
    answers and [oserr] the [errno] it leaves; the result is the [int] that
    the callback returns. *)
Definition mbedtlsNetRecv (slen oserr : Z) : Z :=
  if slen <? 0 then
    if (oserr =? EAGAIN) || (oserr =? EWOULDBLOCK) || (oserr =? EINTR)
    then MBEDTLS_ERR_SSL_WANT_READ
    else if (oserr =? EPIPE) || (oserr =? ECONNRESET)
    then MBEDTLS_ERR_NET_CONN_RESET
    else MBEDTLS_ERR_NET_RECV_FAILED
  else int_wrap slen.

(** Allow Mbed TLS to write data to the network.  [ret_ptcp_Send] is the
    status of [nsd_ptcp.Send] and the length it leaves in [slen]. *)
Definition mbedtlsNetSend (pThis : nsd_mbedtls_t) (ret_ptcp_Send : Z * Z)
  : Z * trace :=
  (if fst ret_ptcp_Send =? RS_RET_IO_ERROR
   then MBEDTLS_ERR_NET_SEND_FAILED
   else int_wrap (snd ret_ptcp_Send),
   [nsd_ptcp_Send (pTcp pThis)]).

(** The verification callback: [depth] is the depth of the certificate in
    the chain. *)
Definition verify (pThis : nsd_mbedtls_t) (depth : Z) : Z :=
  if negb (DrvrVerifyDepth pThis =? 0) && (depth >? DrvrVerifyDepth pThis)
  then MBEDTLS_ERR_X509_FATAL_ERROR
  else 0.

(** *** The drivers that the interface can produce *)

(** The operations that [nsd_mbedtlsQueryInterface] hands out, as far as
    they write to the driver object: a driver is [reachable] when it is the
    result of the constructor body followed by any number of them, or the
    driver that [AcceptConnReq] hands out on a reachable listener.  ([Rcv],
    [Send] and the operations that only pass a call on to [nsd_ptcp] write
    nothing to the object, and the destructor ends it.) *)
Inductive reachable : nsd_mbedtls_t -> Prop :=
| reach_Construct (r : Z * option nsd_ptcp_t) :
    reachable (snd (fst (nsd_mbedtlsInitialize r)))
| reach_SetMode d mode :
    reachable d -> reachable (snd (fst (SetMode d mode)))
| reach_SetAuthMode d mode :
    reachable d -> reachable (snd (fst (SetAuthMode d mode)))
| reach_SetPermitExpiredCerts d mode :
    reachable d -> reachable (snd (fst (SetPermitExpiredCerts d mode)))
| reach_SetPermPeers d p null :
    reachable d -> reachable (snd (fst (SetPermPeers d p null)))
| reach_SetGnutlsPriorityString d s :
    reachable d -> reachable (snd (fst (SetGnutlsPriorityString d s)))
| reach_SetCheckExtendedKeyUsage d v :
    reachable d -> reachable (snd (fst (SetCheckExtendedKeyUsage d v)))
| reach_SetPrioritizeSAN d v :
    reachable d -> reachable (snd (fst (SetPrioritizeSAN d v)))
| reach_SetTlsVerifyDepth d n :
    reachable d -> reachable (snd (fst (SetTlsVerifyDepth d n)))
| reach_SetTlsCAFile d f null :
    reachable d -> reachable (snd (fst (SetTlsCAFile d f null)))
| reach_SetTlsCRLFile d f null :
    reachable d -> reachable (snd (fst (SetTlsCRLFile d f null)))
| reach_SetTlsKeyFile d f null :
    reachable d -> reachable (snd (fst (SetTlsKeyFile d f null)))
| reach_SetTlsCertFile d f null :
    reachable d -> reachable (snd (fst (SetTlsCertFile d f null)))
| reach_Abort d :
    reachable d -> reachable (snd (fst (Abort d)))
| reach_Connect d a host :
    reachable d -> reachable (snd (fst (Connect a d host)))
| reach_AcceptConnReq d fuel close_notify a iRet d' tr :
    reachable d ->
    AcceptConnReq fuel close_notify a d = Some (iRet, Some d', tr) ->
    reachable d'.

End nsd_mbedtls_options.

(** ** The life of the Mbed TLS contexts *)

(** The contexts that a call works on, after the arguments [&(pThis->...)]
    of its call sites.  ([mbedtls_x509_crt_parse_file] is called on two
    contexts and is left out.) *)
Definition uses (c : call) (o : tls_object) : bool :=
  match c, o with
  | mbedtls_ssl_read, ctx_ssl
  | mbedtls_ssl_write, ctx_ssl
  | mbedtls_ssl_close_notify, ctx_ssl
  | mbedtls_ssl_handshake, ctx_ssl
  | mbedtls_ssl_set_hostname _, ctx_ssl
  | mbedtls_ssl_set_bio, ctx_ssl
  | mbedtls_ssl_setup, ctx_ssl
  | mbedtls_ssl_setup, ctx_conf
  | mbedtls_ssl_config_defaults, ctx_conf
  | mbedtls_ssl_conf_rng, ctx_conf
  | mbedtls_ssl_conf_rng, ctx_ctr_drbg
  | mbedtls_ssl_conf_authmode _, ctx_conf
  | mbedtls_ssl_conf_ca_chain _ _, ctx_conf
  | mbedtls_ssl_conf_ca_chain true _, ctx_cacert
  | mbedtls_ssl_conf_ca_chain _ true, ctx_crl
  | mbedtls_ssl_conf_verify, ctx_conf
  | mbedtls_ssl_conf_own_cert, ctx_conf
  | mbedtls_ssl_conf_own_cert, ctx_srvcert
  | mbedtls_ssl_conf_own_cert, ctx_pkey
  | mbedtls_ctr_drbg_seed, ctx_ctr_drbg
  | mbedtls_ctr_drbg_seed, ctx_entropy
  | mbedtls_pk_parse_keyfile _, ctx_pkey
  | mbedtls_pk_parse_keyfile _, ctx_ctr_drbg
  | mbedtls_x509_crl_parse_file _, ctx_crl => true
  | _, _ => false
  end.

Definition same_ctx (o o' : tls_object) : bool :=
  match o, o' with
  | ctx_entropy, ctx_entropy | ctx_ctr_drbg, ctx_ctr_drbg
  | ctx_srvcert, ctx_srvcert | ctx_pkey, ctx_pkey | ctx_crl, ctx_crl
  | ctx_cacert, ctx_cacert | ctx_conf, ctx_conf | ctx_ssl, ctx_ssl => true
  | _, _ => false
  end.

(** Follow one context [o] along a trace.  [live] tells whether [o] is
    initialised; the result is [live] at the end of the trace, and [None]
    when the trace initialises [o] while it is initialised, or releases or
    uses it while it is not. *)
Fixpoint ctx_run (o : tls_object) (live : bool) (tr : trace) : option bool :=
  match tr with
  | [] => Some live
  | mbedtls_init o' :: t =>
      if same_ctx o o'
      then if live then None else ctx_run o true t
      else ctx_run o live t
  | mbedtls_free o' :: t =>
      if same_ctx o o'
      then if live then ctx_run o false t else None
      else ctx_run o live t
  | c :: t =>
      if uses c o && negb live then None else ctx_run o live t
  end.

(** A segment of a trace that finds every context initialised and leaves
    it so. *)
Definition contexts_kept (seg : trace) : Prop :=
  forall o : tls_object, ctx_run o true seg = Some true.

(** [appends W J m]: from a state that satisfies [J], the body [m] adds to
    the trace a segment that satisfies [W], and ends, either way, in a state
    that satisfies [J]. *)
Definition appends {S A} (W : trace -> Prop) (J : S -> Prop) (m : M S A)
  : Prop :=
  forall s tr, J s ->
    exists seg, snd (snd (m (s, tr))) = tr ++ seg
                /\ W seg /\ J (fst (snd (m (s, tr)))).

Section lifecycle.
Context {codes : Codes} {net : NetCodes}.

(** What a client does to its driver between construction and
    destruction: the setters, [Connect], [Rcv], [Send] and [Abort], each
    with its arguments and the answers of the collaborators. *)
Inductive client_op : Type :=
| op_SetMode (mode : Z)
| op_SetAuthMode (mode : option string)
| op_SetPermPeers (pPermPeers : list permittedPeers_t) (strdup_null : bool)
| op_SetTlsCAFile (caFile : option string) (strdup_null : bool)
| op_SetTlsCRLFile (crlFile : option string) (strdup_null : bool)
| op_SetTlsKeyFile (pszFile : option string) (strdup_null : bool)
| op_SetTlsCertFile (pszFile : option string) (strdup_null : bool)
| op_Connect (a : connect_answers) (host : string)
| op_Rcv (lenBuf : Z) (ret_ptcp_Rcv : Z * Z) (n : Z)
| op_Send (fuel : nat) (lenBuf : Z) (ret_ptcp_Send : Z * Z)
    (ssl_write : nat -> Z)
| op_Abort.

(** One operation on the driver [d]: the driver it leaves and the calls it
    makes; [None] when a [Send] does not return. *)
Definition client_step (o : client_op) (d : nsd_mbedtls_t)
  : option (nsd_mbedtls_t * trace) :=
  match o with
  | op_SetMode mode =>
      Some (snd (fst (SetMode d mode)), snd (SetMode d mode))
  | op_SetAuthMode mode =>
      Some (snd (fst (SetAuthMode d mode)), snd (SetAuthMode d mode))
  | op_SetPermPeers p null =>
      Some (snd (fst (SetPermPeers d p null)), snd (SetPermPeers d p null))
  | op_SetTlsCAFile f null =>
      Some (snd (fst (SetTlsCAFile d f null)), snd (SetTlsCAFile d f null))
  | op_SetTlsCRLFile f null =>
      Some (snd (fst (SetTlsCRLFile d f null)), snd (SetTlsCRLFile d f null))
  | op_SetTlsKeyFile f null =>
      Some (snd (fst (SetTlsKeyFile d f null)), snd (SetTlsKeyFile d f null))
  | op_SetTlsCertFile f null =>
      Some (snd (fst (SetTlsCertFile d f null)),
            snd (SetTlsCertFile d f null))
  | op_Connect a host =>
      Some (snd (fst (Connect a d host)), snd (Connect a d host))
  | op_Rcv lenBuf r n => Some (d, snd (Rcv d lenBuf r n))
  | op_Send fuel lenBuf r ssl_write =>
      match Send fuel d lenBuf r ssl_write with
      | Some (_, _, tr) => Some (d, tr)
      | None => None
      end
  | op_Abort => Some (snd (fst (Abort d)), snd (Abort d))
  end.

(** The operations of a list, one after the other. *)
Fixpoint client_run (l : list client_op) (d : nsd_mbedtls_t)
  : option (nsd_mbedtls_t * trace) :=
  match l with
  | [] => Some (d, [])
  | o :: l' =>
      match client_step o d with
      | None => None
      | Some (d', tr) =>
          match client_run l' d' with
          | None => None
          | Some (d'', tr') => Some (d'', tr ++ tr')
          end
      end
  end.

End lifecycle.

(** The calls that neither initialise nor release a context. *)
Definition keeps_contexts (c : call) : Prop :=
  match c with
  | mbedtls_init _ | mbedtls_free _ => False
  | _ => True
  end.

(** A life of a client in TLS mode with credential files of its own: a
    connect that fails in the handshake, one that succeeds, a send and a
    receive. *)
Definition client_life : list client_op :=
  [op_SetMode 1; op_SetAuthMode None;
   op_SetTlsCAFile (Some "ca.pem"%string) false;
   op_SetTlsKeyFile (Some "key.pem"%string) false;
   op_SetTlsCertFile (Some "cert.pem"%string) false;
   op_Connect (connect_good (-30592)) "logs.example.net"%string;
   op_Connect (connect_good 0) "logs.example.net"%string;
   op_Send 3 100 (0, 0) (pending_twice_then 42);
   op_Rcv 4096 (0, 0) 17].

(** ** Credential files *)

(** The file that [mbedtlsInitCred] works on: the one set on the driver,
    or else the default of the global configuration. *)
Definition or_default (own dflt : option string) : option string :=
  if is_null own then dflt else own.

Definition keyFile_of (a : cred_answers) (d : nsd_mbedtls_t) :=
  or_default (pszKeyFile d) (GetDfltNetstrmDrvrKeyFile a).
Definition certFile_of (a : cred_answers) (d : nsd_mbedtls_t) :=
  or_default (pszCertFile d) (GetDfltNetstrmDrvrCertFile a).
Definition cafile_of (a : cred_answers) (d : nsd_mbedtls_t) :=
  or_default (pszCAFile d) (GetDfltNetstrmDrvrCAF a).
Definition crlfile_of (a : cred_answers) (d : nsd_mbedtls_t) :=
  or_default (pszCRLFile d) (GetDfltNetstrmDrvrCRLF a).

(** Raise a flag of the driver if there is a file. *)
Definition have (file : option string)
  (set : Z -> nsd_mbedtls_t -> nsd_mbedtls_t) (d : nsd_mbedtls_t)
  : nsd_mbedtls_t :=
  match file with Some _ => set 1 d | None => d end.

(** The message of [mbedtlsInitCred]. *)
Definition crypto_config_error : call :=
  LogMsg "nsd mbedtls: error parsing crypto config".

(** Answers for a key file that does not parse
    (MBEDTLS_ERR_PK_KEY_INVALID_FORMAT) where the global configuration names
    key, certificate and CA file. *)
Definition cred_bad_key : cred_answers :=
  {| GetDfltNetstrmDrvrKeyFile := Some "key-fail.pem"%string;
     GetDfltNetstrmDrvrCertFile := Some "cert.pem"%string;
     GetDfltNetstrmDrvrCAF := Some "ca.pem"%string;
     GetDfltNetstrmDrvrCRLF := None;
     ret_pk_parse_keyfile := fun _ => -15616;
     ret_x509_crt_parse_file := fun _ => 0;
     ret_x509_crl_parse_file := fun _ => 0 |}.

(** ** What the setters owe *)

(** A setter of a string of the driver.  [old] is the string before the
    call, [new] the argument, [null] tells whether [strdup] finds no
    memory; [iRet], [now] and [tr] are the status, the string after the call
    and the calls made.  The old string is released first and only once; the
    new one is NULL for a NULL argument (always a success) and when there is
    no memory for the copy (out of memory), and a copy of the argument
    otherwise. *)
Definition string_replaced {codes : Codes} (old new : option string)
  (null : bool) (iRet : Z) (now : option string) (tr : trace) : Prop :=
  hd_error tr = Some (free_str old)
  /\ (forall s, ~ In (free_str s) (tl tr))
  /\ (new = None -> iRet = RS_RET_OK /\ now = None)
  /\ (forall f, new = Some f -> null = false ->
        iRet = RS_RET_OK /\ now = Some f)
  /\ (forall f, new = Some f -> null = true ->
        iRet = RS_RET_OUT_OF_MEMORY /\ now = None).

(** The warning of [SetPermPeers]. *)
Definition one_peer_warning : call :=
  LogMsg "SetPermPeers warning: only one peer supported by mbedtls netstream driver".

(** A permitted peer given as plain text, and one with wildcards
    (PERM_PEER_TYPE_WILDCARD). *)
Definition peer_plain : permittedPeers_t :=
  {| pszID := "logs.example.net"; etryType := 1 |}.

Definition peer_wildcard : permittedPeers_t :=
  {| pszID := "*.example.net"; etryType := 2 |}.

(** ** What the library is told about authentication *)

(** The settings of a driver that decide how a peer is authenticated. *)
Definition same_policy (pThis d : nsd_mbedtls_t) : Prop :=
  authMode d = authMode pThis /\ bChkName d = bChkName pThis
  /\ pPermPeer d = pPermPeer pThis.

(** The name that [Connect] on [pThis] has the library check the
    certificate of the server against: none unless names are checked, else
    the permitted peer if there is one and the host connected to if there is
    none. *)
Definition connect_hostname (pThis : nsd_mbedtls_t) (host : string)
  : option string :=
  if negb (bChkName pThis =? 0)
  then Some (match pPermPeer pThis with Some peer => peer | None => host end)
  else None.

(** The calls of a trace of [Connect] that tell the library how to
    authenticate carry the settings of the driver. *)
Definition connect_policy (pThis : nsd_mbedtls_t) (host : string) (c : call)
  : Prop :=
  match c with
  | mbedtls_ssl_conf_authmode m => m = authMode pThis
  | mbedtls_ssl_set_hostname n => n = connect_hostname pThis host
  | _ => True
  end.

(** The name that [AcceptConnReq] on the listener [pThis] has the library
    check the certificate of a client against: the permitted peer if names
    are checked, none otherwise. *)
Definition accept_hostname (pThis : nsd_mbedtls_t) : option string :=
  if negb (bChkName pThis =? 0) then pPermPeer pThis else None.

Definition accept_policy (pThis : nsd_mbedtls_t) (c : call) : Prop :=
  match c with
  | mbedtls_ssl_conf_authmode m => m = authMode pThis
  | mbedtls_ssl_set_hostname n => n = accept_hostname pThis
  | _ => True
  end.

(** What the driver that [AcceptConnReq] hands out in TLS mode has of the
    listener [pThis]. *)
Definition inherits (pThis d : nsd_mbedtls_t) : Prop :=
  same_policy pThis d
  /\ DrvrVerifyDepth d = DrvrVerifyDepth pThis
  /\ pszCertFile d = pszCertFile pThis /\ pszKeyFile d = pszKeyFile pThis
  /\ pszCAFile d = pszCAFile pThis /\ pszCRLFile d = pszCRLFile pThis
  /\ iMode d = iMode pThis.

(** A body run from a known state [s0]. *)
Definition known {S} (ok : call -> Prop) (s0 : S) (s : S) (tr : trace)
  : Prop :=
  s = s0 /\ Forall ok tr.

(** A status other than [RS_RET_OK], after calls that are [ok]. *)
Definition failed {codes : Codes} {S} (ok : call -> Prop) (iRet : Z) (s : S)
  (tr : trace) : Prop :=
  iRet <> RS_RET_OK /\ Forall ok tr.
(** [mbedtlsInitCred] writes to the four flags only, and only to raise
    them. *)
Definition cred_frame (d d' : nsd_mbedtls_t) : Prop :=
  pTcp d' = pTcp d /\ pszCAFile d' = pszCAFile d
  /\ pszCRLFile d' = pszCRLFile d /\ pszKeyFile d' = pszKeyFile d
  /\ pszCertFile d' = pszCertFile d /\ iMode d' = iMode d
  /\ bAbortConn d' = bAbortConn d /\ authMode d' = authMode d
  /\ bChkName d' = bChkName d /\ bHaveSess d' = bHaveSess d
  /\ DrvrVerifyDepth d' = DrvrVerifyDepth d /\ pPermPeer d' = pPermPeer d
  /\ sock d' = sock d
  /\ (bHaveCaCert d' = bHaveCaCert d \/ bHaveCaCert d' = 1)
  /\ (bHaveCrl d' = bHaveCrl d \/ bHaveCrl d' = 1)
  /\ (bHaveKey d' = bHaveKey d \/ bHaveKey d' = 1)
  /\ (bHaveCert d' = bHaveCert d \/ bHaveCert d' = 1).


(** The calls other than the handshake and those that tell the library how
    to authenticate. *)
Definition prelude_call (c : call) : Prop :=
  match c with
  | mbedtls_ssl_handshake | mbedtls_ssl_conf_authmode _
  | mbedtls_ssl_set_hostname _ => False
  | _ => True
  end.

(** The handshake of a trace comes after the library has been told the
    authentication mode [m] and the name [n] to check. *)
Definition told_before_handshake (m : Z) (n : option string) (tr : trace)
  : Prop :=
  In mbedtls_ssl_handshake tr ->
  exists tr1 tr2 : trace,
    tr = tr1 ++ mbedtls_ssl_handshake :: tr2
    /\ In (mbedtls_ssl_conf_authmode m) tr1
    /\ In (mbedtls_ssl_set_hostname n) tr1
    /\ ~ In mbedtls_ssl_handshake tr1
    /\ ~ In mbedtls_ssl_handshake tr2.

(** A flag is 0 or 1. *)
Definition flag (z : Z) : Prop := z = 0 \/ z = 1.

(** What [AcceptConnReq] on the listener [pThis] owes for the driver [d]
    that it hands out in TLS mode. *)
Definition accepted (pThis d : nsd_mbedtls_t) : Prop :=
  inherits pThis d /\ bAbortConn d = 0
  /\ flag (bHaveCaCert d) /\ flag (bHaveCrl d)
  /\ flag (bHaveKey d) /\ flag (bHaveCert d).

(** What the body of [AcceptConnReq] owes at [finalize_it], as to
    authentication. *)
Definition accept_body_post {codes : Codes} (pThis : nsd_mbedtls_t)
  (iRet : Z) (l : accept_locals) (tr : trace) : Prop :=
  Forall (accept_policy pThis) tr
  /\ told_before_handshake (authMode pThis) (accept_hostname pThis) tr
  /\ (iRet = RS_RET_OK ->
      accepted pThis (pNew l) /\ ppNew l = Some (pNew l)).

(** ** What holds of every driver *)

(** The invariant of the driver object. *)
Definition driver_inv {codes : Codes} (d : nsd_mbedtls_t) : Prop :=
  bAbortConn d = 0
  /\ flag (iMode d)
  /\ flag (bChkName d)
  /\ (bChkName d = 1 -> authMode d = MBEDTLS_SSL_VERIFY_REQUIRED)
  /\ flag (bHaveSess d)
  /\ flag (bHaveCaCert d) /\ flag (bHaveCrl d)
  /\ flag (bHaveKey d) /\ flag (bHaveCert d).

(** A client that has been put into TLS mode and has connected. *)
Definition client_connected {codes : Codes} : nsd_mbedtls_t :=
  snd (fst (Connect (connect_good 0)
              (snd (fst (SetMode
                           (snd (fst (nsd_mbedtlsInitialize (0, Some 7%nat))))
                           1)))
              "logs.example.net")).

(** ** A polling round with buffered data *)

(** The calls by which [Add] and [IsReady] pass a driver of a round on to
    the aggregated plain TCP multiplexer. *)
Definition ptcp_Add_call (q : polled) : call :=
  nsdsel_ptcp_Add (pTcp (drv q)) (op q).

Definition ptcp_IsReady_call (q : polled) : call :=
  nsdsel_ptcp_IsReady (pTcp (drv q)) (op q).

Definition unbuffered (q : polled) : bool := negb (buffered q).

(** A plain TCP driver that is polled after those of [round_three]. *)
Definition polled_plain : polled :=
  {| drv := plain_driver; avail := 0; op := NSDSEL_RD;
     ans_Add := 0; ans_IsReady := (0, 1) |}.

(** ** Plain TCP mode *)

(** The calls of [mbedtlsInitSession] and [mbedtlsInitCred]. *)
Definition bootstrap_call (c : call) : Prop :=
  match c with
  | mbedtls_ctr_drbg_seed | mbedtls_pk_parse_keyfile _
  | mbedtls_x509_crt_parse_file _ | mbedtls_x509_crl_parse_file _
  | mbedtls_init _ | mbedtls_free _ | LogError _ | LogMsg _
  | answered _ => True
  | _ => False
  end.

(** The calls of [AcceptConnReq] on a listener in plain TCP mode: the
    construction of the new driver, the replacement of its transport by the
    accepted one, and its destruction. *)
Definition plain_accept_call (c : call) : Prop :=
  match c with
  | calloc_obj | free_obj | nsd_ptcp_Construct | nsd_ptcp_Destruct _
  | nsd_ptcp_AcceptConnReq _ | mbedtls_init _ | mbedtls_free _
  | free_str _ | answered _ => True
  | _ => False
  end.

(** A client in plain TCP mode where the global configuration names a key
    file that does not parse. *)
Definition connect_plain_bad_key : connect_answers :=
  {| connect_session := session_good; connect_cred := cred_bad_key;
     ret_ptcp_Connect := 0; connect_tls := tls_good 0 |}.

(** ** The new driver of a failed accept *)





(** * Properties *)

(** ** The released codes satisfy what the code relies on *)

Lemma released_codes_ok : CodesOk released_codes.
Proof.
  constructor; simpl; repeat split; try discriminate; reflexivity.
Qed.

(** Case analysis on the integer tests of a goal; branches whose tests
    contradict the context are closed on the way. *)
Ltac case_tests :=
  repeat (match goal with
          | |- context [Z.eqb ?a ?b] => destruct (Z.eqb_spec a b)
          | |- context [Z.ltb ?a ?b] => destruct (Z.ltb_spec a b)
          | |- context [Z.leb ?a ?b] => destruct (Z.leb_spec a b)
          end; simpl; try lia).

(** The facts of [CodesOk] about the Mbed TLS codes, as plain hypotheses. *)
Ltac ssl_facts H :=
  let Hssl := fresh "Hssl" in
  pose proof (ok_zero _ H);
  pose proof (want_read_neg _ H);
  pose proof (want_write_neg _ H);
  pose proof (close_notify_neg _ H);
  pose proof (ssl_distinct _ H) as Hssl;
  simpl in Hssl.

(** Two enumerators of [rsRetVal] differ. *)
Ltac rs_ne H :=
  let D := fresh "D" in
  pose proof (rs_distinct _ H) as D; simpl in D;
  repeat match goal with
         | K : _ /\ _ |- _ => destruct K
         end;
  congruence.

(** Decide the comparisons between enumerators of [rsRetVal] in the goal. *)
Ltac simp_codes H :=
  repeat match goal with
         | |- context [Z.eqb ?a ?a] => rewrite (Z.eqb_refl a)
         | |- context [Z.eqb ?a ?b] =>
             let E := fresh "E" in
             assert (E : Z.eqb a b = false) by (apply Z.eqb_neq; rs_ne H);
             rewrite E; clear E
         end.

(** ** Rcv *)

(** Whatever the mode, a status other than [RS_RET_OK] and [RS_RET_RETRY]
    comes with length zero: the [finalize_it] block of [Rcv]. *)
Lemma Rcv_error_length {codes : Codes} (pThis : nsd_mbedtls_t) (lenBuf : Z)
  (ret_ptcp_Rcv : Z * Z) (n : Z) :
  fst (fst (Rcv pThis lenBuf ret_ptcp_Rcv n)) <> RS_RET_OK ->
  fst (fst (Rcv pThis lenBuf ret_ptcp_Rcv n)) <> RS_RET_RETRY ->
  snd (fst (Rcv pThis lenBuf ret_ptcp_Rcv n)) = 0.
Proof.
  unfold Rcv.
  match goal with
  | |- context [match ?body with pair _ _ => _ end] =>
      destruct body as [[iRet len] tr]
  end.
  destruct (negb (iRet =? RS_RET_OK) && negb (iRet =? RS_RET_RETRY)) eqn:E;
    cbn [fst snd]; intros Hok Hretry; [reflexivity |].
  apply andb_false_iff in E.
  destruct E as [E | E]; apply negb_false_iff, Z.eqb_eq in E; contradiction.
Qed.

(** C1.  In TLS mode with the abort flag unset, [Rcv] maps the answer [n] of
    [mbedtls_ssl_read] as follows: want-read or want-write gives
    [RS_RET_RETRY] (and leaves the length alone), a close-notify of the peer
    gives [RS_RET_CLOSED], any other negative answer gives [RS_RET_RCV_ERR],
    zero gives [RS_RET_EOF], a positive [n] gives [RS_RET_OK] with length
    [n]; and whenever the status is neither [RS_RET_OK] nor [RS_RET_RETRY]
    the length that comes out is zero. *)
Theorem Rcv_tls_outcomes {codes : Codes} (Hok : CodesOk codes)
  (pThis : nsd_mbedtls_t) (lenBuf : Z) (ret_ptcp_Rcv : Z * Z) (n : Z) :
  iMode pThis = 1 -> bAbortConn pThis = 0 ->
  (n = MBEDTLS_ERR_SSL_WANT_READ \/ n = MBEDTLS_ERR_SSL_WANT_WRITE ->
   Rcv pThis lenBuf ret_ptcp_Rcv n
   = (RS_RET_RETRY, lenBuf, [mbedtls_ssl_read]))
  /\ (n = MBEDTLS_ERR_SSL_PEER_CLOSE_NOTIFY ->
      Rcv pThis lenBuf ret_ptcp_Rcv n
      = (RS_RET_CLOSED, 0, [mbedtls_ssl_read]))
  /\ (n < 0 -> n <> MBEDTLS_ERR_SSL_WANT_READ ->
      n <> MBEDTLS_ERR_SSL_WANT_WRITE ->
      n <> MBEDTLS_ERR_SSL_PEER_CLOSE_NOTIFY ->
      Rcv pThis lenBuf ret_ptcp_Rcv n
      = (RS_RET_RCV_ERR, 0,
         [mbedtls_ssl_read; logMbedtlsError RS_RET_RCV_ERR n]))
  /\ (n = 0 ->
      Rcv pThis lenBuf ret_ptcp_Rcv n = (RS_RET_EOF, 0, [mbedtls_ssl_read]))
  /\ (0 < n ->
      Rcv pThis lenBuf ret_ptcp_Rcv n = (RS_RET_OK, n, [mbedtls_ssl_read]))
  /\ (fst (fst (Rcv pThis lenBuf ret_ptcp_Rcv n)) <> RS_RET_OK ->
      fst (fst (Rcv pThis lenBuf ret_ptcp_Rcv n)) <> RS_RET_RETRY ->
      snd (fst (Rcv pThis lenBuf ret_ptcp_Rcv n)) = 0).
Proof.
  intros Hmode Habort. ssl_facts Hok.
  repeat split; try apply Rcv_error_length; intros;
    unfold Rcv; rewrite Hmode, Habort; cbn [Z.eqb negb].
  all: destruct (Z.eqb_spec n MBEDTLS_ERR_SSL_WANT_READ);
       destruct (Z.eqb_spec n MBEDTLS_ERR_SSL_WANT_WRITE);
       destruct (Z.eqb_spec n MBEDTLS_ERR_SSL_PEER_CLOSE_NOTIFY);
       destruct (Z.ltb_spec n 0); destruct (Z.eqb_spec n 0);
       cbn [orb]; try lia.
  all: simp_codes Hok; reflexivity.
Qed.

Lemma Rcv_tls_outcomes_witness :
  CodesOk released_codes /\ iMode tls_driver = 1 /\ bAbortConn tls_driver = 0
  /\ @Rcv released_codes tls_driver 4096 (0, 0) 17
     = (0, 17, [mbedtls_ssl_read])
  /\ @Rcv released_codes tls_driver 4096 (0, 0) (-30848)
     = (-2099, 0, [mbedtls_ssl_read]).
Proof.
  pose proof (@Rcv_tls_outcomes released_codes released_codes_ok
                tls_driver 4096 (0, 0) 17 eq_refl eq_refl) as H17.
  pose proof (@Rcv_tls_outcomes released_codes released_codes_ok
                tls_driver 4096 (0, 0) (-30848) eq_refl eq_refl) as Hcn.
  split; [exact released_codes_ok |].
  split; [reflexivity |]. split; [reflexivity |].
  split.
  - apply H17. reflexivity.
  - apply Hcn. reflexivity.
Defined.

(** ** The readiness multiplexer *)

Lemma int_wrap_id (z : Z) : INT_MIN <= z <= INT_MAX -> int_wrap z = z.
Proof.
  unfold INT_MIN, INT_MAX, int_wrap. intros H.
  rewrite Z.mod_small; lia.
Qed.

Lemma buffered_spec (q : polled) :
  buffered q = true
  <-> iMode (drv q) = 1 /\ op q = NSDSEL_RD /\ (0 < avail q)%N.
Proof.
  unfold buffered.
  rewrite !andb_true_iff, Z.eqb_eq, N.ltb_lt.
  destruct (op q); simpl; intuition congruence.
Qed.

Lemma nb_buffered_nonneg (l : list polled) : 0 <= nb_buffered l.
Proof.
  induction l as [| q l IH]; simpl; [lia |].
  destruct (buffered q); lia.
Qed.

Lemma nb_buffered_Permutation (l l' : list polled) :
  Permutation l l' -> nb_buffered l = nb_buffered l'.
Proof.
  induction 1; simpl; lia.
Qed.

Section round_facts.
Context {codes : Codes}.

Lemma Add_all_count (l : list polled) : forall pThis : nsdsel_mbedtls_t,
  INT_MIN <= iBufferRcvReady pThis ->
  iBufferRcvReady pThis + nb_buffered l <= INT_MAX ->
  iBufferRcvReady (fst (Add_all pThis l))
  = iBufferRcvReady pThis + nb_buffered l.
Proof.
  induction l as [| q l IH]; intros pThis Hlo Hhi;
    cbn [Add_all nb_buffered fst] in *; [lia |].
  pose proof (nb_buffered_nonneg l) as Hnn.
  unfold Add at 1.
  assert (Hb : (iMode (drv q) =? 1)
               && (is_NSDSEL_RD (op q) && negb (avail q =? 0)%N)
               = buffered q).
  { unfold buffered. do 2 f_equal.
    destruct (N.eqb_spec (avail q) 0), (N.ltb_spec 0 (avail q));
      simpl; try reflexivity; lia. }
  rewrite Hb. clear Hb. revert Hhi.
  destruct (buffered q); intros Hhi.
  - specialize (IH (set_iBufferRcvReady
                      (int_wrap (iBufferRcvReady pThis + 1)) pThis)).
    destruct (Add_all _ l) as [p tr].
    cbn [fst iBufferRcvReady set_iBufferRcvReady] in *.
    rewrite int_wrap_id in IH by (unfold INT_MIN, INT_MAX in *; lia).
    rewrite IH; lia.
  - specialize (IH pThis).
    destruct (Add_all _ l) as [p tr]. cbn [fst] in *. rewrite IH; lia.
Qed.

Lemma IsReady_all_count (l : list polled) : forall pThis : nsdsel_mbedtls_t,
  INT_MIN <= iBufferRcvReady pThis - nb_buffered l ->
  iBufferRcvReady pThis <= INT_MAX ->
  iBufferRcvReady (fst (fst (IsReady_all pThis l)))
  = iBufferRcvReady pThis - nb_buffered l.
Proof.
  induction l as [| q l IH]; intros pThis Hlo Hhi;
    cbn [IsReady_all nb_buffered fst] in *; [lia |].
  pose proof (nb_buffered_nonneg l) as Hnn.
  unfold IsReady at 1. fold (buffered q). revert Hlo.
  destruct (buffered q); intros Hlo.
  - specialize (IH (set_iBufferRcvReady
                      (int_wrap (iBufferRcvReady pThis - 1)) pThis)).
    destruct (IsReady_all _ l) as [[p bs] tr].
    cbn [fst iBufferRcvReady set_iBufferRcvReady] in *.
    rewrite int_wrap_id in IH by (unfold INT_MIN, INT_MAX in *; lia).
    rewrite IH; lia.
  - destruct (negb (iBufferRcvReady pThis =? 0));
      specialize (IH pThis);
      destruct (IsReady_all _ l) as [[p bs] tr]; cbn [fst] in *;
      rewrite IH; lia.
Qed.

End round_facts.

(** C2.  [IsReady] is a three-way case split.  For a driver in TLS mode that
    is asked for read-readiness and whose session holds decrypted bytes it
    answers ready and takes exactly one off [iBufferRcvReady], without a call
    to the aggregated plain TCP multiplexer.  For any other driver it answers
    not ready, again without such a call, as long as [iBufferRcvReady] is not
    zero, and only at zero does it pass the question on to
    [nsdsel_ptcp.IsReady].  Consequently a round that starts from zero,
    [Add]s its drivers and then asks [IsReady] once for each of them (in any
    order) ends with [iBufferRcvReady] at zero again. *)
Theorem IsReady_three_way {codes : Codes} (pThis : nsdsel_mbedtls_t)
  (pNsd : nsd_mbedtls_t) (bytes_avail : N) (waitOp : nsdsel_waitOp_t)
  (ret_ptcp_IsReady : Z * Z) :
  (iMode pNsd = 1 -> waitOp = NSDSEL_RD -> (0 < bytes_avail)%N ->
   INT_MIN < iBufferRcvReady pThis <= INT_MAX ->
   IsReady pThis pNsd bytes_avail waitOp ret_ptcp_IsReady
   = (RS_RET_OK, 1,
      set_iBufferRcvReady (iBufferRcvReady pThis - 1) pThis, []))
  /\ (~ (iMode pNsd = 1 /\ waitOp = NSDSEL_RD /\ (0 < bytes_avail)%N) ->
      iBufferRcvReady pThis <> 0 ->
      IsReady pThis pNsd bytes_avail waitOp ret_ptcp_IsReady
      = (RS_RET_OK, 0, pThis, []))
  /\ (~ (iMode pNsd = 1 /\ waitOp = NSDSEL_RD /\ (0 < bytes_avail)%N) ->
      iBufferRcvReady pThis = 0 ->
      IsReady pThis pNsd bytes_avail waitOp ret_ptcp_IsReady
      = (fst ret_ptcp_IsReady, snd ret_ptcp_IsReady, pThis,
         [nsdsel_ptcp_IsReady (pTcp pNsd) waitOp]))
  /\ (forall l l' : list polled,
      Permutation l l' -> iBufferRcvReady pThis = 0 ->
      nb_buffered l <= INT_MAX ->
      iBufferRcvReady (fst (fst (IsReady_all (fst (Add_all pThis l)) l')))
      = 0).
Proof.
  pose (q := {| drv := pNsd; avail := bytes_avail; op := waitOp;
                ans_Add := 0; ans_IsReady := ret_ptcp_IsReady |}).
  pose proof (buffered_spec q) as Hq. unfold buffered in Hq. simpl in Hq.
  repeat split.
  - intros Hm Hop Hav Hrange. unfold IsReady.
    rewrite (proj2 Hq) by auto.
    rewrite int_wrap_id by (unfold INT_MIN, INT_MAX in *; lia).
    reflexivity.
  - intros Hnot Hne. unfold IsReady.
    destruct ((iMode pNsd =? 1)
              && (is_NSDSEL_RD waitOp && (0 <? bytes_avail)%N)) eqn:E.
    + exfalso. apply Hnot, Hq. reflexivity.
    + destruct (Z.eqb_spec (iBufferRcvReady pThis) 0); [contradiction |].
      reflexivity.
  - intros Hnot Hzero. unfold IsReady.
    destruct ((iMode pNsd =? 1)
              && (is_NSDSEL_RD waitOp && (0 <? bytes_avail)%N)) eqn:E.
    + exfalso. apply Hnot, Hq. reflexivity.
    + rewrite Hzero. reflexivity.
  - intros l l' Hperm Hzero Hmax.
    pose proof (nb_buffered_nonneg l) as Hnn.
    pose proof (Add_all_count l pThis) as Hadd.
    rewrite Hzero in Hadd. unfold INT_MIN, INT_MAX in *.
    rewrite IsReady_all_count; unfold INT_MIN, INT_MAX;
      rewrite ?Hadd, <- ?(nb_buffered_Permutation l l' Hperm); lia.
Qed.

Lemma IsReady_three_way_witness :
  @IsReady released_codes sel_two tls_driver 100 NSDSEL_RD (0, 0)
  = (0, 1, set_iBufferRcvReady 1 sel_two, [])
  /\ @IsReady released_codes sel_two plain_driver 0 NSDSEL_RD (0, 1)
     = (0, 0, sel_two, [])
  /\ @IsReady released_codes sel_idle plain_driver 0 NSDSEL_RD (0, 1)
     = (0, 1, sel_idle, [nsdsel_ptcp_IsReady (Some 8%nat) NSDSEL_RD])
  /\ iBufferRcvReady
       (fst (fst (@IsReady_all released_codes
                    (fst (@Add_all released_codes sel_idle round_three))
                    (rev round_three)))) = 0.
Proof.
  destruct (@IsReady_three_way released_codes sel_two tls_driver 100
              NSDSEL_RD (0, 0)) as (H1 & _).
  destruct (@IsReady_three_way released_codes sel_two plain_driver 0
              NSDSEL_RD (0, 1)) as (_ & H2 & _).
  destruct (@IsReady_three_way released_codes sel_idle plain_driver 0
              NSDSEL_RD (0, 1)) as (_ & _ & H3 & H4).
  split; [| split; [| split]].
  - apply H1; try reflexivity. unfold INT_MIN, INT_MAX; simpl; lia.
  - apply H2; [intros (Hm & _); discriminate Hm | discriminate].
  - apply H3; [intros (Hm & _); discriminate Hm | reflexivity].
  - apply H4; [apply Permutation_rev | reflexivity |].
    unfold INT_MAX; simpl; lia.
Defined.

(** C3.  While [iBufferRcvReady] is positive, [Select] hands that count out
    as the number of ready descriptors at once, with no call to the
    aggregated plain TCP multiplexer; at zero it calls [nsdsel_ptcp.Select]
    and hands out what that answers, status and count. *)
Theorem Select_dummy_or_nested {codes : Codes} (pThis : nsdsel_mbedtls_t)
  (ret_ptcp_Select : Z * Z) :
  (0 < iBufferRcvReady pThis ->
   Select pThis ret_ptcp_Select = (RS_RET_OK, iBufferRcvReady pThis, []))
  /\ (iBufferRcvReady pThis = 0 ->
      Select pThis ret_ptcp_Select
      = (fst ret_ptcp_Select, snd ret_ptcp_Select, [nsdsel_ptcp_Select])).
Proof.
  unfold Select. split; intros H.
  - destruct (Z.gtb_spec (iBufferRcvReady pThis) 0); [reflexivity | lia].
  - rewrite H. reflexivity.
Qed.

Lemma Select_dummy_or_nested_witness :
  @Select released_codes sel_two (0, 5) = (0, 2, [])
  /\ @Select released_codes sel_idle (0, 5) = (0, 5, [nsdsel_ptcp_Select]).
Proof.
  split.
  - apply (proj1 (@Select_dummy_or_nested released_codes sel_two (0, 5))).
    reflexivity.
  - apply (proj2 (@Select_dummy_or_nested released_codes sel_idle (0, 5))).
    reflexivity.
Defined.

(** ** Abort *)

Section abort.
Context {codes : Codes} (Hok : CodesOk codes).

Lemma Rcv_abort_requested (pThis : nsd_mbedtls_t) (lenBuf : Z)
  (ret_ptcp_Rcv : Z * Z) (n : Z) :
  bAbortConn pThis <> 0 ->
  Rcv pThis lenBuf ret_ptcp_Rcv n = (RS_RET_CONNECTION_ABORTREQ, 0, []).
Proof.
  intros Hab. unfold Rcv.
  destruct (Z.eqb_spec (bAbortConn pThis) 0); [contradiction |].
  cbn [negb]. simp_codes Hok. reflexivity.
Qed.

Lemma Send_abort_requested (fuel : nat) (pThis : nsd_mbedtls_t) (lenBuf : Z)
  (ret_ptcp_Send : Z * Z) (ssl_write : nat -> Z) :
  bAbortConn pThis <> 0 ->
  Send fuel pThis lenBuf ret_ptcp_Send ssl_write
  = Some (RS_RET_CONNECTION_ABORTREQ, lenBuf, []).
Proof.
  intros Hab. unfold Send.
  destruct (Z.eqb_spec (bAbortConn pThis) 0); [contradiction |].
  reflexivity.
Qed.

End abort.

(** C9 does not hold as stated: [Abort] on a driver in TLS mode sets no
    flag.  After it, [Rcv] on the driver still calls [mbedtls_ssl_read] and
    succeeds, and [Send] still calls [mbedtls_ssl_write]. *)
Lemma Abort_tls_sets_no_flag_counterexample :
  iMode tls_driver = 1
  /\ (let d := snd (fst (@Abort released_codes tls_driver)) in
      bAbortConn d = 0
      /\ @Rcv released_codes d 4096 (0, 0) 17 = (0, 17, [mbedtls_ssl_read])
      /\ @Send released_codes 1 d 100 (0, 0) (fun _ => 100)
         = Some (0, 100, [mbedtls_ssl_write])
      /\ 0 <> @RS_RET_CONNECTION_ABORTREQ released_codes).
Proof.
  repeat split; discriminate.
Qed.

(** C9, amended.  [Abort] calls [nsd_ptcp.Abort] exactly when the driver is
    in plain TCP mode; in any other mode it makes no call; in every mode it
    leaves the driver, the abort flag included, as it was.  Apart from that,
    whenever the abort flag of a driver is set, [Rcv] and [Send] return
    [RS_RET_CONNECTION_ABORTREQ] without a single call to a collaborator
    ([Rcv] with length zero, [Send] with the length untouched and whatever
    the fuel). *)
Theorem Abort_forwards_only_plain {codes : Codes} (Hok : CodesOk codes)
  (pThis : nsd_mbedtls_t) :
  (iMode pThis = 0 ->
   Abort pThis = (RS_RET_OK, pThis, [nsd_ptcp_Abort (pTcp pThis)]))
  /\ (iMode pThis <> 0 -> Abort pThis = (RS_RET_OK, pThis, []))
  /\ (bAbortConn pThis <> 0 ->
      forall (lenBuf : Z) (ret_ptcp_Rcv : Z * Z) (n : Z),
        Rcv pThis lenBuf ret_ptcp_Rcv n
        = (RS_RET_CONNECTION_ABORTREQ, 0, []))
  /\ (bAbortConn pThis <> 0 ->
      forall (fuel : nat) (lenBuf : Z) (ret_ptcp_Send : Z * Z)
             (ssl_write : nat -> Z),
        Send fuel pThis lenBuf ret_ptcp_Send ssl_write
        = Some (RS_RET_CONNECTION_ABORTREQ, lenBuf, [])).
Proof.
  split; [| split; [| split]].
  - intros H. unfold Abort. rewrite H. reflexivity.
  - intros H. unfold Abort.
    destruct (Z.eqb_spec (iMode pThis) 0); [contradiction | reflexivity].
  - intros H lenBuf a n. apply (Rcv_abort_requested Hok); assumption.
  - intros H fuel lenBuf a w. apply Send_abort_requested; assumption.
Qed.

Lemma Abort_forwards_only_plain_witness :
  CodesOk released_codes
  /\ @Abort released_codes plain_driver
     = (0, plain_driver, [nsd_ptcp_Abort (Some 8%nat)])
  /\ @Abort released_codes tls_driver = (0, tls_driver, [])
  /\ @Rcv released_codes (set_bAbortConn 1 tls_driver) 4096 (0, 0) 17
     = (-2089, 0, [])
  /\ @Send released_codes 0 (set_bAbortConn 1 tls_driver) 100 (0, 0)
       (fun _ => 100)
     = Some (-2089, 100, []).
Proof.
  destruct (@Abort_forwards_only_plain released_codes released_codes_ok
              plain_driver) as (H1 & _).
  destruct (@Abort_forwards_only_plain released_codes released_codes_ok
              tls_driver) as (_ & H2 & _).
  destruct (@Abort_forwards_only_plain released_codes released_codes_ok
              (set_bAbortConn 1 tls_driver)) as (_ & _ & H3 & H4).
  split; [exact released_codes_ok |].
  split; [| split; [| split]].
  - apply H1. reflexivity.
  - apply H2. discriminate.
  - apply H3. discriminate.
  - apply H4. discriminate.
Defined.

(** ** The two retry loops *)

Section loops.
Context {codes : Codes} (Hok : CodesOk codes).

Lemma is_pending_negative (r : Z) : is_pending r = true -> r < 0.
Proof.
  ssl_facts Hok. unfold is_pending. rewrite orb_true_iff, !Z.eqb_eq. lia.
Qed.

Lemma not_pending_test (r : Z) :
  negb (r =? MBEDTLS_ERR_SSL_WANT_READ)
  && negb (r =? MBEDTLS_ERR_SSL_WANT_WRITE)
  = negb (is_pending r).
Proof.
  unfold is_pending. rewrite negb_orb. reflexivity.
Qed.

(** If the answers [i], ..., [i + k - 1] of [mbedtls_ssl_close_notify] are
    pending and answer [i + k] is not, the loop of [mbedtlsEndSess] started
    at call [i] is left after call [i + k], given fuel for [k + 1] calls. *)
Lemma mbedtlsEndSess_loop_first (close_notify : nat -> Z) (k : nat) :
  forall (fuel i : nat),
  (forall j, (i <= j < i + k)%nat -> is_pending (close_notify j) = true) ->
  is_pending (close_notify (i + k)%nat) = false ->
  (k < fuel)%nat ->
  mbedtlsEndSess_loop fuel close_notify i = Some (S (i + k))%nat.
Proof.
  induction k as [| k IH]; intros fuel i Hpend Hlast Hfuel;
    (destruct fuel as [| fuel]; [lia |]); cbn [mbedtlsEndSess_loop].
  - rewrite Nat.add_0_r in *. rewrite not_pending_test, Hlast.
    destruct (close_notify i =? 0); reflexivity.
  - assert (Hi : is_pending (close_notify i) = true) by (apply Hpend; lia).
    pose proof (is_pending_negative _ Hi) as Hneg.
    rewrite not_pending_test, Hi.
    destruct (Z.eqb_spec (close_notify i) 0); [lia |]. cbn [negb].
    rewrite (IH fuel (S i)).
    + f_equal. lia.
    + intros j Hj. apply Hpend. lia.
    + replace (S i + k)%nat with (i + S k)%nat by lia. exact Hlast.
    + lia.
Qed.

(** As long as every answer is pending, the loop is not left. *)
Lemma mbedtlsEndSess_loop_pending (close_notify : nat -> Z) :
  (forall j, is_pending (close_notify j) = true) ->
  forall fuel i, mbedtlsEndSess_loop fuel close_notify i = None.
Proof.
  intros Hpend. induction fuel as [| fuel IH]; intros i;
    cbn [mbedtlsEndSess_loop]; [reflexivity |].
  pose proof (is_pending_negative _ (Hpend i)) as Hneg.
  rewrite not_pending_test, (Hpend i).
  destruct (Z.eqb_spec (close_notify i) 0); [lia |]. apply IH.
Qed.

(** The same for the loop of [Send]: it is left after the first answer of
    [mbedtls_ssl_write] that is not pending, by falling through when that
    answer is positive and by [ABORT_FINALIZE] otherwise. *)
Lemma Send_loop_first (ssl_write : nat -> Z) (k : nat) :
  forall (fuel i : nat),
  (forall j, (i <= j < i + k)%nat -> is_pending (ssl_write j) = true) ->
  is_pending (ssl_write (i + k)%nat) = false ->
  (k < fuel)%nat ->
  Send_loop fuel ssl_write i
  = Some (if ssl_write (i + k)%nat <=? 0
          then aborted (ssl_write (i + k)%nat)
          else written (ssl_write (i + k)%nat),
          S (i + k)).
Proof.
  induction k as [| k IH]; intros fuel i Hpend Hlast Hfuel;
    (destruct fuel as [| fuel]; [lia |]); cbn [Send_loop].
  - rewrite Nat.add_0_r in *. rewrite not_pending_test, Hlast.
    destruct (ssl_write i <=? 0); reflexivity.
  - assert (Hi : is_pending (ssl_write i) = true) by (apply Hpend; lia).
    pose proof (is_pending_negative _ Hi) as Hneg.
    rewrite not_pending_test, Hi.
    destruct (Z.leb_spec (ssl_write i) 0); [| lia]. cbn [negb].
    rewrite (IH fuel (S i)).
    + replace (S i + k)%nat with (i + S k)%nat by lia. reflexivity.
    + intros j Hj. apply Hpend. lia.
    + replace (S i + k)%nat with (i + S k)%nat by lia. exact Hlast.
    + lia.
Qed.

Lemma Send_loop_pending (ssl_write : nat -> Z) :
  (forall j, is_pending (ssl_write j) = true) ->
  forall fuel i, Send_loop fuel ssl_write i = None.
Proof.
  intros Hpend. induction fuel as [| fuel IH]; intros i;
    cbn [Send_loop]; [reflexivity |].
  pose proof (is_pending_negative _ (Hpend i)) as Hneg.
  rewrite not_pending_test, (Hpend i).
  destruct (Z.leb_spec (ssl_write i) 0); [| lia]. apply IH.
Qed.

End loops.

(** ** Destruction *)

(** What the destructor releases after the session has been closed: the
    nested transport if there is one, the four credential paths and the
    permitted peer, the eight Mbed TLS contexts, the object. *)
Lemma nsd_mbedtlsDestruct_no_close {codes : Codes} (fuel : nat)
  (close_notify : nat -> Z) (pThis : nsd_mbedtls_t) :
  iMode pThis <> 1 \/ bHaveSess pThis = 0 ->
  nsd_mbedtlsDestruct fuel close_notify pThis
  = Some (set_pTcp None pThis,
          match pTcp pThis with
          | Some p => [nsd_ptcp_Destruct (Some p)]
          | None => []
          end
          ++ [free_str (pszCAFile pThis); free_str (pszCRLFile pThis);
              free_str (pszKeyFile pThis); free_str (pszCertFile pThis);
              free_str (pPermPeer pThis);
              mbedtls_free ctx_entropy; mbedtls_free ctx_ctr_drbg;
              mbedtls_free ctx_srvcert; mbedtls_free ctx_pkey;
              mbedtls_free ctx_crl; mbedtls_free ctx_cacert;
              mbedtls_free ctx_conf; mbedtls_free ctx_ssl; free_obj]).
Proof.
  intros H. unfold nsd_mbedtlsDestruct, nsd_mbedtlsDestruct_body, mbedtlsEndSess.
  destruct (Z.eqb_spec (iMode pThis) 1) as [E | E].
  - destruct H as [H | H]; [contradiction |]. rewrite H.
    cbn [Z.eqb negb].
    destruct pThis as [p ? ? ? ? ? ? ? ? ? ? ? ? ? ? ? ?].
    destruct p; reflexivity.
  - destruct pThis as [p ? ? ? ? ? ? ? ? ? ? ? ? ? ? ? ?].
    destruct p; reflexivity.
Qed.

(** C7 does not hold as stated: the close loop of [mbedtlsEndSess] has no
    bound.  On a driver with a session, against a peer for which
    [mbedtls_ssl_close_notify] answers want-read every time, the destructor
    has not returned after any number of calls. *)
Lemma Destruct_close_unbounded_counterexample :
  iMode tls_driver = 1 /\ bHaveSess tls_driver = 1
  /\ forall fuel : nat,
       @nsd_mbedtlsDestruct released_codes fuel
         (fun _ => @MBEDTLS_ERR_SSL_WANT_READ released_codes) tls_driver
       = None.
Proof.
  split; [reflexivity |]. split; [reflexivity |].
  intros fuel. unfold nsd_mbedtlsDestruct, nsd_mbedtlsDestruct_body, mbedtlsEndSess.
  cbn [iMode bHaveSess tls_driver Z.eqb Pos.eqb negb].
  rewrite (mbedtlsEndSess_loop_pending released_codes_ok); reflexivity.
Qed.

(** C7, amended.  For a driver in TLS mode with an active session the
    destructor first closes the session on a best-effort basis: it repeats
    [mbedtls_ssl_close_notify] for as long as the answer is want-read or
    want-write, with no bound on the number of repetitions, and stops at the
    first other answer, success or not.  So if answer [k] is the first one
    that is not pending, the destructor returns after exactly [k + 1] calls
    of [mbedtls_ssl_close_notify]; then [bHaveSess] is zero and the nested
    transport, the credential paths and permitted peer, the eight Mbed TLS
    contexts and the object have been released, in that order.  If every
    answer is pending the destructor never returns. *)
Theorem Destruct_graceful_close {codes : Codes} (Hok : CodesOk codes)
  (pThis : nsd_mbedtls_t) (close_notify : nat -> Z) :
  iMode pThis = 1 -> bHaveSess pThis <> 0 ->
  (forall k fuel : nat,
     (forall j, (j < k)%nat -> is_pending (close_notify j) = true) ->
     is_pending (close_notify k) = false ->
     (k < fuel)%nat ->
     exists d : nsd_mbedtls_t,
       nsd_mbedtlsDestruct fuel close_notify pThis
       = Some (d,
               repeat mbedtls_ssl_close_notify (S k)
               ++ match pTcp pThis with
                  | Some p => [nsd_ptcp_Destruct (Some p)]
                  | None => []
                  end
               ++ [free_str (pszCAFile pThis); free_str (pszCRLFile pThis);
                   free_str (pszKeyFile pThis); free_str (pszCertFile pThis);
                   free_str (pPermPeer pThis);
                   mbedtls_free ctx_entropy; mbedtls_free ctx_ctr_drbg;
                   mbedtls_free ctx_srvcert; mbedtls_free ctx_pkey;
                   mbedtls_free ctx_crl; mbedtls_free ctx_cacert;
                   mbedtls_free ctx_conf; mbedtls_free ctx_ssl; free_obj])
       /\ bHaveSess d = 0 /\ pTcp d = None)
  /\ ((forall j, is_pending (close_notify j) = true) ->
      forall fuel : nat, nsd_mbedtlsDestruct fuel close_notify pThis = None).
Proof.
  intros Hmode Hsess. split.
  - intros k fuel Hpend Hlast Hfuel.
    unfold nsd_mbedtlsDestruct, nsd_mbedtlsDestruct_body, mbedtlsEndSess. rewrite Hmode.
    destruct (Z.eqb_spec (bHaveSess pThis) 0); [contradiction |].
    cbn [Z.eqb Pos.eqb negb].
    rewrite (mbedtlsEndSess_loop_first Hok close_notify k fuel 0);
      try assumption; [| intros j Hj; apply Hpend; lia].
    cbn [Nat.add].
    destruct pThis as [p ? ? ? ? ? ? ? ? ? ? ? ? ? ? ? ?].
    destruct p; eexists;
      (split;
       [cbn -[repeat]; rewrite <- ?app_assoc; reflexivity
       | split; reflexivity]).
  - intros Hpend fuel.
    unfold nsd_mbedtlsDestruct, nsd_mbedtlsDestruct_body, mbedtlsEndSess. rewrite Hmode.
    destruct (Z.eqb_spec (bHaveSess pThis) 0); [contradiction |].
    cbn [Z.eqb Pos.eqb negb].
    rewrite (mbedtlsEndSess_loop_pending Hok); [reflexivity | assumption].
Qed.

Lemma Destruct_graceful_close_witness :
  CodesOk released_codes /\ iMode tls_driver = 1 /\ bHaveSess tls_driver <> 0
  /\ exists d : nsd_mbedtls_t,
       @nsd_mbedtlsDestruct released_codes 3 (pending_twice_then (-80))
         tls_driver
       = Some (d,
               [mbedtls_ssl_close_notify; mbedtls_ssl_close_notify;
                mbedtls_ssl_close_notify; nsd_ptcp_Destruct (Some 7%nat);
                free_str (Some "ca.pem"%string); free_str None;
                free_str (Some "key.pem"%string);
                free_str (Some "cert.pem"%string);
                free_str (Some "peer.example.net"%string);
                mbedtls_free ctx_entropy; mbedtls_free ctx_ctr_drbg;
                mbedtls_free ctx_srvcert; mbedtls_free ctx_pkey;
                mbedtls_free ctx_crl; mbedtls_free ctx_cacert;
                mbedtls_free ctx_conf; mbedtls_free ctx_ssl; free_obj])
       /\ bHaveSess d = 0 /\ pTcp d = None.
Proof.
  split; [exact released_codes_ok |].
  split; [reflexivity |]. split; [discriminate |].
  refine (proj1 (@Destruct_graceful_close released_codes released_codes_ok
                   tls_driver (pending_twice_then (-80)) eq_refl _)
            2%nat 3%nat _ eq_refl _).
  - discriminate.
  - intros j Hj. destruct j as [| [| j]]; [reflexivity | reflexivity | lia].
  - lia.
Defined.

(** ** Send *)

(** What [Send] does in TLS mode with the abort flag unset, when answer [k]
    of [mbedtls_ssl_write] is the first that is not pending: it has called
    [mbedtls_ssl_write] [k + 1] times; a positive answer is the length that
    comes out, with [RS_RET_OK]; any other answer is logged under
    [RS_RET_NO_ERRCODE] and is itself the status that [Send] returns, the
    length being left as it was. *)
Lemma Send_tls_result {codes : Codes} (Hok : CodesOk codes)
  (pThis : nsd_mbedtls_t) (lenBuf : Z) (ret_ptcp_Send : Z * Z)
  (ssl_write : nat -> Z) (k fuel : nat) :
  iMode pThis <> 0 -> bAbortConn pThis = 0 ->
  (forall j, (j < k)%nat -> is_pending (ssl_write j) = true) ->
  is_pending (ssl_write k) = false ->
  (k < fuel)%nat ->
  Send fuel pThis lenBuf ret_ptcp_Send ssl_write
  = Some (if ssl_write k <=? 0
          then (ssl_write k, lenBuf,
                repeat mbedtls_ssl_write (S k)
                ++ [logMbedtlsError RS_RET_NO_ERRCODE (ssl_write k)])
          else (RS_RET_OK, ssl_write k, repeat mbedtls_ssl_write (S k))).
Proof.
  intros Hmode Habort Hpend Hlast Hfuel. unfold Send.
  rewrite Habort. cbn [Z.eqb negb].
  destruct (Z.eqb_spec (iMode pThis) 0); [contradiction |].
  rewrite (Send_loop_first Hok ssl_write k fuel 0);
    try assumption; [| intros j Hj; apply Hpend; lia].
  cbn [Nat.add]. destruct (ssl_write k <=? 0); reflexivity.
Qed.

(** As long as [mbedtls_ssl_write] answers pending, [Send] does not
    return. *)
Lemma Send_tls_pending {codes : Codes} (Hok : CodesOk codes)
  (pThis : nsd_mbedtls_t) (lenBuf : Z) (ret_ptcp_Send : Z * Z)
  (ssl_write : nat -> Z) (fuel : nat) :
  iMode pThis <> 0 -> bAbortConn pThis = 0 ->
  (forall j, is_pending (ssl_write j) = true) ->
  Send fuel pThis lenBuf ret_ptcp_Send ssl_write = None.
Proof.
  intros Hmode Habort Hpend. unfold Send.
  rewrite Habort. cbn [Z.eqb negb].
  destruct (Z.eqb_spec (iMode pThis) 0); [contradiction |].
  rewrite (Send_loop_pending Hok); [reflexivity | assumption].
Qed.

(** C5, amended.  In TLS mode with the abort flag unset, [Send] repeats
    [mbedtls_ssl_write] as long as the answer is want-read or want-write.
    With the first answer that is neither, after [k + 1] calls in all, it
    returns: if that answer is positive, [RS_RET_OK] with the answer as the
    number of bytes written; if it is negative, it fails with that answer
    itself as the status (so not [RS_RET_OK], and no error kind of its
    own), logged with the number of the library, the length being left as
    it was. *)
Theorem Send_tls_outcomes {codes : Codes} (Hok : CodesOk codes)
  (pThis : nsd_mbedtls_t) (lenBuf : Z) (ret_ptcp_Send : Z * Z)
  (ssl_write : nat -> Z) (k fuel : nat) :
  iMode pThis = 1 -> bAbortConn pThis = 0 ->
  (forall j, (j < k)%nat -> is_pending (ssl_write j) = true) ->
  is_pending (ssl_write k) = false ->
  (k < fuel)%nat ->
  (0 < ssl_write k ->
   Send fuel pThis lenBuf ret_ptcp_Send ssl_write
   = Some (RS_RET_OK, ssl_write k, repeat mbedtls_ssl_write (S k)))
  /\ (ssl_write k < 0 ->
      Send fuel pThis lenBuf ret_ptcp_Send ssl_write
      = Some (ssl_write k, lenBuf,
              repeat mbedtls_ssl_write (S k)
              ++ [logMbedtlsError RS_RET_NO_ERRCODE (ssl_write k)])
      /\ ssl_write k <> RS_RET_OK).
Proof.
  intros Hmode Habort Hpend Hlast Hfuel.
  assert (Hm : iMode pThis <> 0) by (rewrite Hmode; discriminate).
  pose proof (Send_tls_result Hok pThis lenBuf ret_ptcp_Send ssl_write k fuel
                Hm Habort Hpend Hlast Hfuel) as H.
  split; intros Hr; rewrite H.
  - destruct (Z.leb_spec (ssl_write k) 0); [lia | reflexivity].
  - destruct (Z.leb_spec (ssl_write k) 0); [| lia].
    split; [reflexivity |]. rewrite (ok_zero _ Hok). lia.
Qed.

Lemma Send_tls_outcomes_witness :
  CodesOk released_codes /\ iMode tls_driver = 1 /\ bAbortConn tls_driver = 0
  /\ @Send released_codes 3 tls_driver 100 (0, 0) (pending_twice_then 42)
     = Some (0, 42,
             [mbedtls_ssl_write; mbedtls_ssl_write; mbedtls_ssl_write])
  /\ @Send released_codes 3 tls_driver 100 (0, 0) (pending_twice_then (-80))
     = Some (-80, 100,
             [mbedtls_ssl_write; mbedtls_ssl_write; mbedtls_ssl_write;
              logMbedtlsError (-1) (-80)]).
Proof.
  assert (Hpend : forall r j, (j < 2)%nat ->
            @is_pending released_codes (pending_twice_then r j) = true).
  { intros r j Hj. destruct j as [| [| j]]; [reflexivity | reflexivity | lia]. }
  split; [exact released_codes_ok |].
  split; [reflexivity |]. split; [reflexivity |]. split.
  - apply (proj1 (@Send_tls_outcomes released_codes released_codes_ok
                    tls_driver 100 (0, 0) (pending_twice_then 42) 2 3
                    eq_refl eq_refl (Hpend 42) eq_refl
                    (le_n 3))).
    reflexivity.
  - apply (proj2 (@Send_tls_outcomes released_codes released_codes_ok
                    tls_driver 100 (0, 0) (pending_twice_then (-80)) 2 3
                    eq_refl eq_refl (Hpend (-80)) eq_refl
                    (le_n 3))).
    reflexivity.
Defined.

(** What the amended C5 leaves open: an answer of 0 leaves the loop of
    [Send] by its error branch, so it is logged as an error; but the status
    is that answer, which is [RS_RET_OK], and the length is left as it was,
    so the caller is told that all of the buffer has been written. *)
Lemma Send_tls_zero {codes : Codes} (Hok : CodesOk codes)
  (pThis : nsd_mbedtls_t) (lenBuf : Z) (ret_ptcp_Send : Z * Z)
  (ssl_write : nat -> Z) (k fuel : nat) :
  iMode pThis = 1 -> bAbortConn pThis = 0 ->
  (forall j, (j < k)%nat -> is_pending (ssl_write j) = true) ->
  ssl_write k = 0 ->
  (k < fuel)%nat ->
  Send fuel pThis lenBuf ret_ptcp_Send ssl_write
  = Some (RS_RET_OK, lenBuf,
          repeat mbedtls_ssl_write (S k)
          ++ [logMbedtlsError RS_RET_NO_ERRCODE 0]).
Proof.
  intros Hmode Habort Hpend Hzero Hfuel.
  assert (Hm : iMode pThis <> 0) by (rewrite Hmode; discriminate).
  assert (Hlast : is_pending (ssl_write k) = false).
  { destruct (is_pending (ssl_write k)) eqn:E; [| reflexivity].
    pose proof (is_pending_negative Hok _ E). lia. }
  rewrite (Send_tls_result Hok pThis lenBuf ret_ptcp_Send ssl_write k fuel
             Hm Habort Hpend Hlast Hfuel).
  rewrite Hzero, (ok_zero _ Hok). reflexivity.
Qed.

(** C5 does not hold as stated: [Send] maps a negative answer of the
    library to no error kind.  What it returns is the answer itself, so two
    answers give two statuses, and no one status stands for the failed
    send. *)
Lemma Send_error_kind_counterexample :
  iMode tls_driver = 1 /\ bAbortConn tls_driver = 0
  /\ @Send released_codes 1 tls_driver 100 (0, 0) (fun _ => -78)
     = Some (-78, 100, [mbedtls_ssl_write; logMbedtlsError (-1) (-78)])
  /\ @Send released_codes 1 tls_driver 100 (0, 0) (fun _ => -80)
     = Some (-80, 100, [mbedtls_ssl_write; logMbedtlsError (-1) (-80)])
  /\ ~ (exists SendError : Z,
          forall r : Z,
            r < 0 -> @is_pending released_codes r = false ->
            exists (len : Z) (tr : trace),
              @Send released_codes 1 tls_driver 100 (0, 0) (fun _ => r)
              = Some (SendError, len, tr)).
Proof.
  split; [reflexivity |]. split; [reflexivity |].
  split; [reflexivity |]. split; [reflexivity |].
  intros (e & H).
  destruct (H (-78) eq_refl eq_refl) as (len1 & tr1 & H1).
  destruct (H (-80) eq_refl eq_refl) as (len2 & tr2 & H2).
  vm_compute in H1. vm_compute in H2.
  injection H1 as E1 _ _. injection H2 as E2 _ _.
  rewrite <- E1 in E2. discriminate E2.
Qed.

(** ** The option setters *)

Lemma uchar_range (a : ascii) : 0 <= uchar a < 256.
Proof.
  unfold uchar. pose proof (N_ascii_bounded a). lia.
Qed.

Lemma same_letter_tolower (a b : ascii) :
  same_letter a b = true <-> tolower (uchar a) = tolower (uchar b).
Proof.
  pose proof (uchar_range a). pose proof (uchar_range b).
  unfold same_letter, tolower.
  rewrite !orb_true_iff, !andb_true_iff, !Z.eqb_eq, !Z.leb_le.
  destruct (Z.leb_spec 65 (uchar a)), (Z.leb_spec (uchar a) 90),
    (Z.leb_spec 65 (uchar b)), (Z.leb_spec (uchar b) 90);
    cbn [andb]; lia.
Qed.

Lemma tolower_zero (c : Z) : tolower c = 0 <-> c = 0.
Proof.
  unfold tolower.
  destruct (Z.leb_spec 65 c), (Z.leb_spec c 90); cbn [andb]; lia.
Qed.

Lemma same_letter_zero (a b : ascii) :
  same_letter a b = true -> (uchar a =? 0) = (uchar b =? 0).
Proof.
  intros H. apply same_letter_tolower in H.
  pose proof (tolower_zero (uchar a)). pose proof (tolower_zero (uchar b)).
  destruct (Z.eqb_spec (uchar a) 0), (Z.eqb_spec (uchar b) 0);
    try reflexivity; lia.
Qed.

(** [strcasecmp] does not tell a string from its case variants. *)
Lemma strcasecmp_case_variant (s : string) : forall (m s' : string),
  case_variant s m = true -> strcasecmp m s' = strcasecmp s s'.
Proof.
  induction s as [| a s IH]; intros [| b m] s' H;
    cbn [case_variant] in H; try discriminate; [reflexivity |].
  apply andb_true_iff in H. destruct H as [Hab Hrest].
  cbn [strcasecmp cur].
  rewrite (proj1 (same_letter_tolower a b) Hab).
  rewrite (same_letter_zero a b Hab).
  rewrite (IH m (next s') Hrest). reflexivity.
Qed.

(** Conversely, strings that [strcasecmp] finds equal denote C strings that
    are case variants of each other. *)
Lemma strcasecmp_zero (t : string) : forall s : string,
  strcasecmp t s = 0 -> case_variant (c_str s) (c_str t) = true.
Proof.
  assert (Hcur : forall s, cur s = 0 -> c_str s = EmptyString).
  { intros [| a s] H; [reflexivity |]. cbn [cur] in H. cbn [c_str].
    rewrite H. reflexivity. }
  induction t as [| b t IH]; intros s H; cbn [strcasecmp cur] in H.
  - destruct (Z.eqb_spec (tolower 0 - tolower (cur s)) 0) as [E | E];
      [| contradiction].
    change (tolower 0) with 0 in E.
    rewrite (Hcur s); [reflexivity |]. apply tolower_zero. lia.
  - destruct (Z.eqb_spec (tolower (uchar b) - tolower (cur s)) 0)
      as [E | E]; [| contradiction].
    cbn [c_str]. destruct (Z.eqb_spec (uchar b) 0) as [Eb | Eb].
    + rewrite Eb in E. change (tolower 0) with 0 in E.
      rewrite (Hcur s); [reflexivity |]. apply tolower_zero. lia.
    + destruct s as [| a s]; cbn [cur next] in *.
      * exfalso. apply Eb, tolower_zero. change (tolower 0) with 0 in E. lia.
      * cbn [c_str]. destruct (Z.eqb_spec (uchar a) 0) as [Ea | Ea].
        -- exfalso. apply Eb, tolower_zero. rewrite Ea in E.
           change (tolower 0) with 0 in E. lia.
        -- cbn [case_variant]. apply andb_true_iff. split.
           ++ apply same_letter_tolower. lia.
           ++ apply IH. exact H.
Qed.

Lemma SetAuthMode_case_variant {codes : Codes} (pThis : nsd_mbedtls_t)
  (s m : string) :
  case_variant s m = true ->
  SetAuthMode pThis (Some m) = SetAuthMode pThis (Some s).
Proof.
  intros H. unfold SetAuthMode.
  rewrite !(strcasecmp_case_variant s m _ H). reflexivity.
Qed.

(** C10.  The two setters compare their argument with [strcasecmp]: every
    case variant of "x509/name", of "x509/certvalid" and of "anon" makes
    [SetAuthMode] succeed with the effect of the lower-case form, and every
    case variant of "off" makes [SetPermitExpiredCerts] succeed (it changes
    nothing). *)
Theorem option_strings_any_case {codes : Codes} (pThis : nsd_mbedtls_t)
  (m : string) :
  (case_variant "x509/name" m = true ->
   SetAuthMode pThis (Some m) = SetAuthMode pThis (Some "x509/name"%string)
   /\ SetAuthMode pThis (Some m)
      = (RS_RET_OK,
         set_bChkName 1
           (set_authMode MBEDTLS_SSL_VERIFY_REQUIRED (set_bChkName 0 pThis)),
         []))
  /\ (case_variant "x509/certvalid" m = true ->
      SetAuthMode pThis (Some m)
      = SetAuthMode pThis (Some "x509/certvalid"%string)
      /\ SetAuthMode pThis (Some m)
         = (RS_RET_OK,
            set_authMode MBEDTLS_SSL_VERIFY_REQUIRED (set_bChkName 0 pThis),
            []))
  /\ (case_variant "anon" m = true ->
      SetAuthMode pThis (Some m) = SetAuthMode pThis (Some "anon"%string)
      /\ SetAuthMode pThis (Some m)
         = (RS_RET_OK,
            set_authMode MBEDTLS_SSL_VERIFY_NONE (set_bChkName 0 pThis),
            []))
  /\ (case_variant "off" m = true ->
      SetPermitExpiredCerts pThis (Some m) = (RS_RET_OK, pThis, [])).
Proof.
  split; [| split; [| split]]; intros H.
  - rewrite (SetAuthMode_case_variant pThis _ _ H). split; reflexivity.
  - rewrite (SetAuthMode_case_variant pThis _ _ H). split; reflexivity.
  - rewrite (SetAuthMode_case_variant pThis _ _ H). split; reflexivity.
  - unfold SetPermitExpiredCerts.
    rewrite (strcasecmp_case_variant _ _ _ H). reflexivity.
Qed.

Lemma option_strings_any_case_witness :
  @SetAuthMode released_codes plain_driver (Some "X509/Name"%string)
  = (0, set_bChkName 1 (set_authMode 2 plain_driver), [])
  /\ @SetAuthMode released_codes plain_driver (Some "x509/CertValid"%string)
     = (0, set_authMode 2 plain_driver, [])
  /\ @SetAuthMode released_codes tls_driver (Some "ANON"%string)
     = (0, set_authMode 0 (set_bChkName 0 tls_driver), [])
  /\ @SetPermitExpiredCerts released_codes tls_driver (Some "Off"%string)
     = (0, tls_driver, []).
Proof.
  split; [| split; [| split]].
  - apply (proj1 (@option_strings_any_case released_codes plain_driver
                    "X509/Name")). reflexivity.
  - apply (proj1 (proj2 (@option_strings_any_case released_codes plain_driver
                           "x509/CertValid"))). reflexivity.
  - apply (proj1 (proj2 (proj2 (@option_strings_any_case released_codes
                                  tls_driver "ANON")))). reflexivity.
  - apply (proj2 (proj2 (proj2 (@option_strings_any_case released_codes
                                  tls_driver "Off")))). reflexivity.
Defined.

(** C4 does not hold as stated: [SetAuthMode] compares with [strcasecmp], so
    a string that is none of the three listed ones can be accepted.  "ANON"
    is: the call succeeds and changes the verification policy. *)
Lemma SetAuthMode_unlisted_counterexample :
  "ANON"%string <> "x509/name"%string
  /\ "ANON"%string <> "x509/certvalid"%string
  /\ "ANON"%string <> "anon"%string
  /\ @SetAuthMode released_codes tls_driver (Some "ANON"%string)
     = (@RS_RET_OK released_codes,
        set_authMode 0 (set_bChkName 0 tls_driver), [])
  /\ @RS_RET_OK released_codes <> @RS_RET_VALUE_NOT_SUPPORTED released_codes
  /\ authMode (set_authMode 0 (set_bChkName 0 tls_driver))
     <> authMode tls_driver.
Proof.
  repeat split; discriminate.
Qed.

Lemma strcasecmp_differs (m s : string) :
  c_str s = s -> case_variant s (c_str m) = false ->
  (strcasecmp m s =? 0) = false.
Proof.
  intros Hs Hno. apply Z.eqb_neq. intros H.
  apply strcasecmp_zero in H. rewrite Hs in H. congruence.
Qed.

(** C4, amended.  For every mode string that, read as a C string, is not a
    case variant of "x509/name", "x509/certvalid" or "anon", [SetAuthMode]
    fails with [RS_RET_VALUE_NOT_SUPPORTED] and leaves the verification
    policy [authMode], and every field of the driver other than the
    name-check flag, as it was. *)
Theorem SetAuthMode_unsupported {codes : Codes} (pThis : nsd_mbedtls_t)
  (m : string) :
  case_variant "x509/name" (c_str m) = false ->
  case_variant "x509/certvalid" (c_str m) = false ->
  case_variant "anon" (c_str m) = false ->
  fst (fst (SetAuthMode pThis (Some m))) = RS_RET_VALUE_NOT_SUPPORTED
  /\ authMode (snd (fst (SetAuthMode pThis (Some m)))) = authMode pThis
  /\ forall v : Z,
       set_bChkName v (snd (fst (SetAuthMode pThis (Some m))))
       = set_bChkName v pThis.
Proof.
  intros H1 H2 H3. unfold SetAuthMode.
  rewrite (strcasecmp_differs m "x509/name" eq_refl H1),
    (strcasecmp_differs m "x509/certvalid" eq_refl H2),
    (strcasecmp_differs m "anon" eq_refl H3).
  repeat split.
Qed.

Lemma SetAuthMode_unsupported_witness :
  case_variant "x509/name" (c_str "x509/fingerprint") = false
  /\ case_variant "x509/certvalid" (c_str "x509/fingerprint") = false
  /\ case_variant "anon" (c_str "x509/fingerprint") = false
  /\ fst (fst (@SetAuthMode released_codes tls_driver
                 (Some "x509/fingerprint"%string))) = -2086
  /\ authMode (snd (fst (@SetAuthMode released_codes tls_driver
                           (Some "x509/fingerprint"%string)))) = 2.
Proof.
  destruct (@SetAuthMode_unsupported released_codes tls_driver
              "x509/fingerprint" eq_refl eq_refl eq_refl) as (H1 & H2 & _).
  split; [reflexivity |]. split; [reflexivity |]. split; [reflexivity |].
  split; [exact H1 | exact H2].
Defined.

(** What the amended C4 leaves open: the first statement of [SetAuthMode]
    clears [bChkName] before the mode string is looked at, so the failing
    call on a driver that checks names leaves it with the policy of
    "x509/certvalid". *)
Lemma SetAuthMode_failure_clears_bChkName :
  bChkName tls_driver = 1
  /\ @SetAuthMode released_codes tls_driver (Some "x509/fingerprint"%string)
     = (@RS_RET_VALUE_NOT_SUPPORTED released_codes,
        set_bChkName 0 tls_driver,
        [LogError "error: authentication mode '%s' not supported by mbedtls netstream driver"])
  /\ @SetAuthMode released_codes (set_bChkName 0 tls_driver)
       (Some "x509/certvalid"%string)
     = (@RS_RET_OK released_codes, set_bChkName 0 tls_driver, []).
Proof.
  repeat split.
Qed.

(** ** Reasoning about bodies *)

Lemma triple_bind {S A B} (P : S -> trace -> Prop) (m : M S A)
  (k : A -> M S B) R Q E :
  triple P m R E -> (forall a, triple (R a) (k a) Q E) ->
  triple P (bind m k) Q E.
Proof.
  intros Hm Hk s tr HP. unfold bind. specialize (Hm s tr HP). revert Hm.
  destruct (m (s, tr)) as [[a | iRet] [s' tr']]; intros Hm; [| exact Hm].
  apply (Hk a s' tr' Hm).
Qed.

Lemma triple_exec {codes : Codes} {S A} (P : S -> trace -> Prop)
  (m : M S A) (R : Z -> S -> trace -> Prop) (s : S) :
  triple P m (fun _ => R RS_RET_OK) R -> P s [] ->
  R (fst (fst (exec m s))) (snd (fst (exec m s))) (snd (exec m s)).
Proof.
  intros Hm HP. unfold exec. specialize (Hm s [] HP). revert Hm.
  unfold trace.
  destruct (m (s, [])) as [[a | iRet] [s' tr']]; intros Hm; exact Hm.
Qed.

Section steps.
Context {codes : Codes} {S : Type}.
Variable ok : call -> Prop.
Variable J : S -> Prop.
Variable X : Z -> Prop.
Hypothesis ok_answered : forall iRet, ok (answered iRet).
Hypothesis ok_allocated : forall null, ok (allocated null).

Lemma Inv_app (s : S) (tr tr' : trace) :
  Inv ok J s tr -> Forall ok tr' -> Inv ok J s (tr ++ tr').
Proof.
  intros [H1 H2] H. split; [apply Forall_app; split |]; assumption.
Qed.

Lemma step_ret {A} (a : A) : step ok J X (ret a).
Proof. intros s tr H. exact H. Qed.

Lemma step_get : step ok J X get.
Proof. intros s tr H. exact H. Qed.

Lemma step_bind {A B} (m : M S A) (k : A -> M S B) :
  step ok J X m -> (forall a, step ok J X (k a)) -> step ok J X (bind m k).
Proof. intros Hm Hk. apply (triple_bind _ _ _ (fun _ => Inv ok J)); assumption. Qed.

Lemma step_emit (c : call) : ok c -> step ok J X (emit c).
Proof.
  intros Hc s tr H. cbn. apply Inv_app; [exact H |].
  constructor; [exact Hc | constructor].
Qed.

Lemma step_modify (f : S -> S) : (forall s, J s -> J (f s)) -> step ok J X (modify f).
Proof. intros Hf s tr [H1 H2]. cbn. split; [exact H1 | apply Hf, H2]. Qed.

Lemma step_abort {A} (iRet : Z) : X iRet -> step ok J X (@ABORT_FINALIZE S A iRet).
Proof. intros Hx s tr H. cbn. split; assumption. Qed.

Lemma step_when (b : bool) (m : M S unit) :
  (b = true -> step ok J X m) -> step ok J X (when b m).
Proof.
  intros Hm. unfold when. destruct b; [apply Hm; reflexivity | apply step_ret].
Qed.

Lemma step_if {A} (b : bool) (m1 m2 : M S A) :
  step ok J X m1 -> step ok J X m2 -> step ok J X (if b then m1 else m2).
Proof. destruct b; auto. Qed.

Lemma step_CHKiRet (c : call) (rc : Z) :
  ok c -> (rc <> RS_RET_OK -> X rc) -> step ok J X (CHKiRet c rc).
Proof.
  intros Hc Hx. unfold CHKiRet. apply step_bind; [apply step_emit, Hc |].
  intros _. apply step_bind; [apply step_emit, ok_answered |].
  intros _. destruct (Z.eqb_spec rc RS_RET_OK);
    [apply step_ret | apply step_abort; auto].
Qed.

Lemma step_CHKmalloc (null : bool) :
  X RS_RET_OUT_OF_MEMORY -> step ok J X (CHKmalloc null).
Proof.
  intros Hx. unfold CHKmalloc.
  apply step_bind; [apply step_emit, ok_allocated |]. intros _.
  destruct null; [apply step_abort, Hx | apply step_ret].
Qed.

Lemma step_CHKiRet_fn (f : S -> Z * S * trace) :
  (forall s, J s ->
     Forall ok (snd (f s)) /\ J (snd (fst (f s)))
     /\ (fst (fst (f s)) <> RS_RET_OK -> X (fst (fst (f s))))) ->
  step ok J X (CHKiRet_fn f).
Proof.
  intros Hf s tr [H1 H2]. unfold CHKiRet_fn. cbn [fst snd].
  specialize (Hf s H2). revert Hf.
  destruct (f s) as [[iRet s'] tr']. cbn [fst snd]. intros (Htr & HJ & Hx).
  assert (Htr' : Forall ok (tr' ++ [answered iRet])).
  { apply Forall_app. split; [exact Htr |].
    constructor; [apply ok_answered | constructor]. }
  destruct (Z.eqb_spec iRet RS_RET_OK).
  - apply Inv_app; [split |]; assumption.
  - split; [auto |]. apply Inv_app; [split |]; assumption.
Qed.

(** A step that keeps the invariant, followed by the rest of the body. *)
Lemma triple_after_step {A B} (m : M S A) (k : A -> M S B) Q E :
  step ok J X m -> (forall iRet s tr, Exit ok J X iRet s tr -> E iRet s tr) ->
  (forall a, triple (Inv ok J) (k a) Q E) ->
  triple (Inv ok J) (bind m k) Q E.
Proof.
  intros Hm HE Hk. apply (triple_bind _ _ _ (fun _ => Inv ok J)); [| exact Hk].
  intros s tr H. specialize (Hm s tr H). revert Hm.
  destruct (m (s, tr)) as [[a | iRet] [s' tr']]; intros Hm; [exact Hm |].
  apply HE, Hm.
Qed.

(** What a body that keeps the invariant gives to the function around it. *)
Lemma step_exec {A} (m : M S A) (s : S) :
  step ok J X m -> J s ->
  Forall ok (snd (exec m s)) /\ J (snd (fst (exec m s)))
  /\ (fst (fst (exec m s)) <> RS_RET_OK -> X (fst (fst (exec m s)))).
Proof.
  intros Hm HJ. unfold exec.
  specialize (Hm s [] (conj (Forall_nil ok) HJ)). revert Hm.
  unfold trace.
  destruct (m (s, [])) as [[a | iRet] [s' tr']]; intros Hm;
    cbn [fst snd iRet_of].
  - destruct Hm as [H1 H2].
    split; [exact H1 | split; [exact H2 | intros H; contradiction]].
  - destruct Hm as [Hx [H1 H2]].
    split; [exact H1 | split; [exact H2 | intros _; exact Hx]].
Qed.

End steps.

(** Bodies whose checks all pass. *)
Section passes.
Context {codes : Codes} {S : Type}.
Variable ok : call -> Prop.
Variable J : S -> Prop.













End passes.

(** Prove that a body keeps an invariant, step by step; [side] closes the
    side conditions. *)
Ltac step_tac side :=
  cbv zeta;
  lazymatch goal with
  | |- step _ _ _ (bind _ _) =>
      apply step_bind; [step_tac side | intros ?; step_tac side]
  | |- step _ _ _ (ret _) => apply step_ret
  | |- step _ _ _ get => apply step_get
  | |- step _ _ _ (emit _) => apply step_emit; side
  | |- step _ _ _ (modify _) => apply step_modify; side
  | |- step _ _ _ (ABORT_FINALIZE _) => apply step_abort; side
  | |- step _ _ _ FINALIZE => apply step_abort; side
  | |- step _ _ _ (when _ _) =>
      apply step_when;
      let Hb := fresh "Hb" in
      intros Hb; first [discriminate Hb | step_tac side]
  | |- step _ _ _ (CHKiRet _ _) => apply step_CHKiRet; side
  | |- step _ _ _ (CHKmalloc _) => apply step_CHKmalloc; side
  | |- step _ _ _ (CHKiRet_fn _) => apply step_CHKiRet_fn; side
  | |- step _ _ _ (if _ then _ else _) => apply step_if; step_tac side
  | |- step _ _ _ (match ?x with _ => _ end) => destruct x; step_tac side
  end.


(** ** Session bootstrap, Connect and AcceptConnReq *)

Section bootstrap.
Context {codes : Codes} (Hok : CodesOk codes).

Ltac frame_side :=
  first [ exact I
        | unfold setup_call; split; discriminate
        | intros; exact I
        | let d := fresh "d" in let H := fresh "H" in
          intros d H; exact H
        | let d := fresh "d" in let H := fresh "H" in
          intros d H; cbn [fst snd];
          split; [constructor | split; [exact H | intros _; exact I]] ].

(** [mbedtlsInitSession] and [mbedtlsInitCred] do not shake hands and do
    not touch [bHaveSess]. *)
Lemma mbedtlsInitSession_frame (a : session_answers) (d : nsd_mbedtls_t) :
  Forall setup_call (snd (mbedtlsInitSession a d))
  /\ bHaveSess (snd (fst (mbedtlsInitSession a d))) = bHaveSess d.
Proof.
  unfold mbedtlsInitSession.
  match goal with
  | |- context [exec ?body d] =>
      pose proof (step_exec setup_call
                    (fun d' => bHaveSess d' = bHaveSess d)
                    (fun _ => True) body d) as H
  end.
  destruct H as (Htr & HJ & _); [| reflexivity |].
  - step_tac frame_side.
  - revert Htr HJ.
    match goal with
    | |- context [exec ?body d] => destruct (exec body d) as [[iRet d'] tr]
    end.
    cbn [fst snd]. intros Htr HJ. split; [| exact HJ].
    apply Forall_app. split; [exact Htr |].
    destruct (negb (iRet =? RS_RET_OK)); repeat constructor; discriminate.
Qed.

Lemma mbedtlsInitCred_frame (a : cred_answers) (d : nsd_mbedtls_t) :
  Forall setup_call (snd (mbedtlsInitCred a d))
  /\ bHaveSess (snd (fst (mbedtlsInitCred a d))) = bHaveSess d.
Proof.
  unfold mbedtlsInitCred. cbv zeta.
  match goal with
  | |- context [exec ?body d] =>
      pose proof (step_exec setup_call
                    (fun d' => bHaveSess d' = bHaveSess d)
                    (fun _ => True) body d) as H
  end.
  destruct H as (Htr & HJ & _); [| reflexivity |].
  - step_tac frame_side.
  - revert Htr HJ.
    match goal with
    | |- context [exec ?body d] => destruct (exec body d) as [[iRet d'] tr]
    end.
    cbn [fst snd]. intros Htr HJ. split; [| exact HJ].
    apply Forall_app. split; [exact Htr |].
    destruct (negb (iRet =? 0)); repeat constructor; discriminate.
Qed.

Lemma setup_calls_only (tr : trace) :
  Forall setup_call tr ->
  ~ In mbedtls_ssl_handshake tr /\ ~ In free_obj tr.
Proof.
  intros H. rewrite Forall_forall in H.
  split; intros Hin; apply H in Hin; destruct Hin as [H1 H2]; congruence.
Qed.

Lemma handshake_test (h : Z) :
  negb (h =? 0)
  && negb (h =? MBEDTLS_ERR_SSL_WANT_READ)
  && negb (h =? MBEDTLS_ERR_SSL_WANT_WRITE)
  = negb (handshake_ok h).
Proof.
  unfold handshake_ok, is_pending.
  destruct (h =? 0), (h =? MBEDTLS_ERR_SSL_WANT_READ),
    (h =? MBEDTLS_ERR_SSL_WANT_WRITE); reflexivity.
Qed.

Ltac connect_side :=
  first [ exact I
        | unfold setup_call; split; discriminate
        | intros; exact I
        | let d := fresh "d" in let H := fresh "H" in
          intros d H; exact H
        | let d := fresh "d" in let H := fresh "H" in
          let H1 := fresh "Htr" in let H2 := fresh "Hsess" in
          intros d H;
          lazymatch goal with
          | |- context [mbedtlsInitSession ?a d] =>
              destruct (mbedtlsInitSession_frame a d) as [H1 H2]
          | |- context [mbedtlsInitCred ?a d] =>
              destruct (mbedtlsInitCred_frame a d) as [H1 H2]
          end;
          split; [exact H1 | split; [congruence | intros _; exact I]] ].

Lemma Connect_handshake (a : connect_answers) (pThis : nsd_mbedtls_t)
  (host : string) :
  Connect_post (bHaveSess pThis) (ret_ssl_handshake (connect_tls a))
    (fst (fst (Connect a pThis host))) (snd (fst (Connect a pThis host)))
    (snd (Connect a pThis host)).
Proof.
  unfold Connect. cbv zeta.
  apply (triple_exec
           (Inv setup_call (fun d => bHaveSess d = bHaveSess pThis)));
    [| split; [constructor | reflexivity]].
  assert (Hexit : forall iRet s tr,
             Exit setup_call (fun d => bHaveSess d = bHaveSess pThis)
               (fun _ => True) iRet s tr ->
             Connect_post (bHaveSess pThis)
               (ret_ssl_handshake (connect_tls a)) iRet s tr).
  { intros iRet s tr [_ [Htr _]] Hin.
    exfalso. apply (proj1 (setup_calls_only tr Htr)). exact Hin. }
  repeat (apply (triple_after_step setup_call
                   (fun d => bHaveSess d = bHaveSess pThis) (fun _ => True));
          [ solve [step_tac connect_side] | exact Hexit | intros ? ]).
  (* the handshake and its outcome *)
  intros s tr [Htr HJ].
  unfold bind, emit, when, modify, ABORT_FINALIZE. cbn [fst snd].
  rewrite handshake_test. unfold Connect_post.
  destruct (handshake_ok (ret_ssl_handshake (connect_tls a)));
    cbn [negb fst snd]; intros _; split; intros Hh; try discriminate Hh.
  - split; reflexivity.
  - split; [reflexivity | exact HJ].
Qed.

(** The invariant of the body of [AcceptConnReq] up to the handshake: the
    new driver has no session and nothing has been stored in [*ppNew]. *)
Lemma fn_on_pNew_frame (f : nsd_mbedtls_t -> Z * nsd_mbedtls_t * trace) :
  (forall d, Forall setup_call (snd (f d))
             /\ bHaveSess (snd (fst (f d))) = bHaveSess d) ->
  forall l : accept_locals,
    bHaveSess (pNew l) = 0 /\ ppNew l = None ->
    Forall setup_call (snd (fn_on_pNew f l))
    /\ (bHaveSess (pNew (snd (fst (fn_on_pNew f l)))) = 0
        /\ ppNew (snd (fst (fn_on_pNew f l))) = None)
    /\ (fst (fst (fn_on_pNew f l)) <> RS_RET_OK ->
        fst (fst (fn_on_pNew f l)) <> RS_RET_OK).
Proof.
  intros Hf l [H1 H2]. unfold fn_on_pNew.
  specialize (Hf (pNew l)). revert Hf.
  destruct (f (pNew l)) as [[iRet d] tr]. cbn [fst snd pNew ppNew].
  intros [Htr Hs].
  split; [exact Htr | split; [split; [congruence | exact H2] | auto]].
Qed.

Ltac accept_side :=
  first [ unfold setup_call; split; discriminate
        | let H := fresh "H" in intros H; exact H
        | rs_ne Hok
        | let l := fresh "l" in let H1 := fresh "H" in let H2 := fresh "H" in
          intros l [H1 H2]; split; [exact H1 | exact H2]
        | apply fn_on_pNew_frame;
          first [ apply mbedtlsInitSession_frame
                | apply mbedtlsInitCred_frame ] ].

Lemma AcceptConnReq_body_post (a : accept_answers) (pThis : nsd_mbedtls_t)
  (l0 : accept_locals) :
  iMode pThis = 1 -> bHaveSess (pNew l0) = 0 -> ppNew l0 = None ->
  accept_post (ret_ssl_handshake (accept_tls a))
    (fst (fst (exec (AcceptConnReq_body a pThis) l0)))
    (snd (fst (exec (AcceptConnReq_body a pThis) l0)))
    (snd (exec (AcceptConnReq_body a pThis) l0)).
Proof.
  intros Hmode Hsess Hout.
  pose (J := fun l : accept_locals =>
               bHaveSess (pNew l) = 0 /\ ppNew l = None).
  pose (X := fun iRet : Z => iRet <> RS_RET_OK).
  apply (triple_exec (Inv setup_call J));
    [| split; [constructor | split; assumption]].
  assert (Hexit : forall iRet s tr,
             Exit setup_call J X iRet s tr ->
             accept_post (ret_ssl_handshake (accept_tls a)) iRet s tr).
  { intros iRet s tr [Hx [Htr [H1 H2]]].
    destruct (setup_calls_only tr Htr) as [Hh Hf].
    split; [exact Hf | split; [intros E; contradiction |]].
    intros _. split; [exact H2 | split; [exact H1 |]].
    intros Hin. contradiction. }
  unfold AcceptConnReq_body. rewrite Hmode.
  change (1 =? 0) with false. cbv zeta.
  repeat (apply (triple_after_step setup_call J X);
          [ solve [step_tac accept_side] | exact Hexit | intros ? ]).
  (* the handshake and its outcome *)
  intros s tr [Htr [H1 H2]].
  destruct (setup_calls_only tr Htr) as [Hh Hf].
  unfold bind, emit, when, modify, ABORT_FINALIZE. cbn [fst snd].
  rewrite handshake_test. unfold accept_post.
  destruct (handshake_ok (ret_ssl_handshake (accept_tls a)));
    unfold ret; cbn [negb fst snd].
  - split; [| split].
    + rewrite in_app_iff. intros [Hin | [Hin | []]];
        [contradiction | discriminate Hin].
    + intros _. repeat split. apply in_or_app. right. left. reflexivity.
    + intros Hne. contradiction.
  - split; [| split].
    + rewrite !in_app_iff. intros [[Hin | [Hin | []]] | [Hin | []]];
        [contradiction | discriminate Hin | discriminate Hin].
    + intros E. exfalso. revert E. rs_ne Hok.
    + intros _. split; [exact H2 | split; [exact H1 |]].
      intros _. split; reflexivity.
Qed.







(** [AcceptConnReq] on a listener in TLS mode, whatever the collaborators
    answer and whatever the fuel: it returns; with [RS_RET_OK] it has shaken
    hands, the answer was success or pending, [*ppNew] is the new driver,
    which has a session and has not been released; with any other status
    [*ppNew] was never assigned, a handshake, if there was one, gave an
    answer that is neither, the status then being
    [RS_RET_TLS_HANDSHAKE_ERR], and if the new driver had been allocated the
    last thing done was to run its destructor, on a driver with no
    session. *)
Lemma AcceptConnReq_spec (fuel : nat) (close_notify : nat -> Z)
  (a : accept_answers) (pThis : nsd_mbedtls_t) :
  iMode pThis = 1 ->
  exists (iRet : Z) (out : option nsd_mbedtls_t) (tr : trace),
    AcceptConnReq fuel close_notify a pThis = Some (iRet, out, tr)
    /\ (iRet = RS_RET_OK ->
        (exists d, out = Some d /\ bHaveSess d = 1)
        /\ In mbedtls_ssl_handshake tr
        /\ handshake_ok (ret_ssl_handshake (accept_tls a)) = true
        /\ ~ In free_obj tr)
    /\ (iRet <> RS_RET_OK ->
        out = None
        /\ (In mbedtls_ssl_handshake tr ->
            handshake_ok (ret_ssl_handshake (accept_tls a)) = false
            /\ iRet = RS_RET_TLS_HANDSHAKE_ERR)
        /\ (calloc_null a = false ->
            exists (d d' : nsd_mbedtls_t) (tr1 trd : trace),
              bHaveSess d = 0
              /\ nsd_mbedtlsDestruct fuel close_notify d = Some (d', trd)
              /\ tr = tr1 ++ trd)).
Proof.
  intros Hmode. unfold AcceptConnReq, nsd_mbedtlsConstruct.
  destruct (calloc_null a).
  - (* no memory for the object *)
    exists RS_RET_OUT_OF_MEMORY, None, [calloc_obj].
    split; [reflexivity |]. split.
    + intros E. exfalso. revert E. rs_ne Hok.
    + intros _. split; [reflexivity |]. split; [| discriminate].
      intros [Hin | []]. discriminate Hin.
  - cbn [nsd_mbedtlsInitialize fst snd]. rewrite Z.eqb_refl.
    set (l0 := {| pNew := set_pTcp (snd (ret_ptcp_Construct a))
                            calloc_nsd_mbedtls;
                  ppNew := None |}).
    pose proof (AcceptConnReq_body_post a pThis l0 Hmode eq_refl eq_refl)
      as Hpost.
    revert Hpost.
    destruct (exec (AcceptConnReq_body a pThis) l0) as [[iRet l] tr].
    cbn [fst snd]. intros (Hfree & Hgood & Hbad).
    destruct (Z.eqb_spec iRet RS_RET_OK) as [E | E]; cbn [negb].
    + destruct (Hgood E) as (Hout & Hsess & Hin & Hh).
      eexists iRet, (ppNew l), _. split; [reflexivity |]. split.
      * intros _. split; [exists (pNew l); split; assumption |].
        split; [apply in_or_app; right; exact Hin |].
        split; [exact Hh |].
        rewrite in_app_iff. cbn [In]. intros [Hin' | Hin'];
          [| contradiction].
        repeat (destruct Hin' as [Hin' | Hin']; [discriminate Hin' |]).
        exact Hin'.
      * intros Hne. contradiction.
    + destruct (Hbad E) as (Hout & Hsess & Hin).
      rewrite (nsd_mbedtlsDestruct_no_close fuel close_notify (pNew l)
                 (or_intror Hsess)).
      eexists iRet, (ppNew l), _. split; [reflexivity |]. split.
      * intros Heq. contradiction.
      * intros _. split; [exact Hout |]. split.
        -- intros Hin'. apply Hin.
           rewrite !in_app_iff in Hin'. cbn [In] in Hin'.
           destruct Hin' as [Hin' | [Hin' | [Hin' | Hin']]].
           ++ repeat (destruct Hin' as [Hin' | Hin'];
                      [discriminate Hin' |]).
              contradiction.
           ++ exact Hin'.
           ++ exfalso. destruct (pTcp (pNew l)); cbn [In] in Hin';
                repeat (destruct Hin' as [Hin' | Hin'];
                        [discriminate Hin' |]);
                contradiction.
           ++ exfalso.
              repeat (destruct Hin' as [Hin' | Hin'];
                      [discriminate Hin' |]).
              contradiction.
        -- intros _.
           exists (pNew l), (set_pTcp None (pNew l)).
           exists ((calloc_obj
                    :: snd (nsd_mbedtlsInitialize (ret_ptcp_Construct a)))
                   ++ tr).
           eexists.
           split; [exact Hsess |].
           split; [apply nsd_mbedtlsDestruct_no_close; right; exact Hsess |].
           rewrite <- app_assoc. reflexivity.
Qed.

End bootstrap.

(** C6.  For a driver in TLS mode, a [Connect] or an [AcceptConnReq] that
    gets as far as the handshake returns [RS_RET_TLS_HANDSHAKE_ERR] exactly
    when the answer of [mbedtls_ssl_handshake] is neither success nor one of
    the two pending codes.  In that case [Connect] leaves [bHaveSess] as it
    was and [AcceptConnReq] hands out no driver, the new one having been
    destroyed without a session; on success or a pending answer the status
    is [RS_RET_OK] and [bHaveSess] of the driver, respectively of the new
    driver handed out, is one. *)
Theorem handshake_outcome {codes : Codes} (Hok : CodesOk codes) :
  (forall (a : connect_answers) (pThis : nsd_mbedtls_t) (host : string),
     iMode pThis = 1 ->
     In mbedtls_ssl_handshake (snd (Connect a pThis host)) ->
     (fst (fst (Connect a pThis host)) = RS_RET_TLS_HANDSHAKE_ERR
      <-> handshake_ok (ret_ssl_handshake (connect_tls a)) = false)
     /\ (handshake_ok (ret_ssl_handshake (connect_tls a)) = false ->
         bHaveSess (snd (fst (Connect a pThis host))) = bHaveSess pThis)
     /\ (handshake_ok (ret_ssl_handshake (connect_tls a)) = true ->
         fst (fst (Connect a pThis host)) = RS_RET_OK
         /\ bHaveSess (snd (fst (Connect a pThis host))) = 1))
  /\ (forall (fuel : nat) (close_notify : nat -> Z) (a : accept_answers)
             (pThis : nsd_mbedtls_t),
     iMode pThis = 1 ->
     exists (iRet : Z) (out : option nsd_mbedtls_t) (tr : trace),
       AcceptConnReq fuel close_notify a pThis = Some (iRet, out, tr)
       /\ (In mbedtls_ssl_handshake tr ->
           (iRet = RS_RET_TLS_HANDSHAKE_ERR
            <-> handshake_ok (ret_ssl_handshake (accept_tls a)) = false)
           /\ (handshake_ok (ret_ssl_handshake (accept_tls a)) = false ->
               out = None
               /\ exists (d d' : nsd_mbedtls_t) (tr1 trd : trace),
                    bHaveSess d = 0
                    /\ nsd_mbedtlsDestruct fuel close_notify d
                       = Some (d', trd)
                    /\ tr = tr1 ++ trd)
           /\ (handshake_ok (ret_ssl_handshake (accept_tls a)) = true ->
               iRet = RS_RET_OK
               /\ exists d, out = Some d /\ bHaveSess d = 1))).
Proof.
  assert (Hne : RS_RET_OK <> RS_RET_TLS_HANDSHAKE_ERR) by rs_ne Hok.
  split.
  - intros a pThis host Hmode Hin.
    destruct (Connect_handshake a pThis host Hin) as [Hgood Hbad].
    destruct (handshake_ok (ret_ssl_handshake (connect_tls a))).
    + destruct (Hgood eq_refl) as [Hret Hsess].
      split; [split; [congruence | discriminate] |].
      split; [discriminate | intros _; split; assumption].
    + destruct (Hbad eq_refl) as [Hret Hsess].
      split; [split; [reflexivity | intros _; exact Hret] |].
      split; [intros _; exact Hsess | discriminate].
  - intros fuel close_notify a pThis Hmode.
    destruct (AcceptConnReq_spec Hok fuel close_notify a pThis Hmode)
      as (iRet & out & tr & Hrun & Hgood & Hbad).
    exists iRet, out, tr. split; [exact Hrun |]. intros Hin.
    destruct (Z.eq_dec iRet RS_RET_OK) as [E | E].
    + destruct (Hgood E) as (Hout & _ & Hh & _). rewrite Hh.
      split; [split; [congruence | discriminate] |].
      split; [discriminate | intros _; split; assumption].
    + destruct (Hbad E) as (Hout & Hhs & Hdestr).
      destruct (Hhs Hin) as [Hh Hret]. rewrite Hh.
      split; [split; [reflexivity | intros _; exact Hret] |].
      split; [| discriminate].
      intros _. split; [exact Hout |]. apply Hdestr.
      destruct (calloc_null a) eqn:Ecalloc; [| reflexivity].
      exfalso. unfold AcceptConnReq, nsd_mbedtlsConstruct in Hrun.
      rewrite Ecalloc in Hrun. injection Hrun as _ _ Htr. subst tr.
      destruct Hin as [Hin | []]. discriminate Hin.
Qed.

(** Membership in a trace that computes. *)
Ltac in_trace := vm_compute; repeat (first [left; reflexivity | right]).

Lemma handshake_outcome_witness :
  CodesOk released_codes
  /\ iMode tls_configured = 1
  /\ fst (fst (@Connect released_codes (connect_good (-30592))
                 tls_configured "logs.example.net")) = -2083
  /\ bHaveSess (snd (fst (@Connect released_codes (connect_good (-30592))
                            tls_configured "logs.example.net"))) = 0
  /\ fst (fst (@Connect released_codes (connect_good (-26880))
                 tls_configured "logs.example.net")) = 0
  /\ bHaveSess (snd (fst (@Connect released_codes (connect_good (-26880))
                            tls_configured "logs.example.net"))) = 1
  /\ (exists tr,
        @AcceptConnReq released_codes 0 close_at_once (accept_good (-30592))
          tls_configured = Some (-2083, None, tr))
  /\ (exists d tr,
        @AcceptConnReq released_codes 0 close_at_once (accept_good 0)
          tls_configured = Some (0, Some d, tr)
        /\ bHaveSess d = 1).
Proof.
  destruct (@handshake_outcome released_codes released_codes_ok) as [HC HA].
  split; [exact released_codes_ok |]. split; [reflexivity |].
  assert (Hbad : In mbedtls_ssl_handshake
                   (snd (@Connect released_codes (connect_good (-30592))
                           tls_configured "logs.example.net")))
    by in_trace.
  assert (Hgood : In mbedtls_ssl_handshake
                    (snd (@Connect released_codes (connect_good (-26880))
                            tls_configured "logs.example.net")))
    by in_trace.
  destruct (HC (connect_good (-30592)) tls_configured
              "logs.example.net"%string eq_refl Hbad) as (Hiff & Hsess & _).
  destruct (HC (connect_good (-26880)) tls_configured
              "logs.example.net"%string eq_refl Hgood) as (_ & _ & Hok).
  split; [apply Hiff; reflexivity |].
  split; [apply Hsess; reflexivity |].
  split; [apply Hok; reflexivity |].
  split; [apply Hok; reflexivity |].
  split.
  - destruct (HA 0%nat close_at_once (accept_good (-30592)) tls_configured
                eq_refl) as (iRet & out & tr & Hrun & H).
    assert (Hin : In mbedtls_ssl_handshake tr).
    { vm_compute in Hrun. injection Hrun as _ _ Htr. subst tr. in_trace. }
    destruct (H Hin) as (Hiff' & Hnone & _).
    exists tr. rewrite Hrun.
    rewrite (proj2 Hiff' eq_refl), (proj1 (Hnone eq_refl)). reflexivity.
  - destruct (HA 0%nat close_at_once (accept_good 0) tls_configured eq_refl)
      as (iRet & out & tr & Hrun & H).
    assert (Hin : In mbedtls_ssl_handshake tr).
    { vm_compute in Hrun. injection Hrun as _ _ Htr. subst tr. in_trace. }
    destruct (H Hin) as (_ & _ & Hok').
    destruct (Hok' eq_refl) as (Hret & d & Hout & Hsess').
    exists d, tr. rewrite Hrun, Hret, Hout. split; [reflexivity | exact Hsess'].
Defined.

(** ** Bodies that append a segment *)

Section segments.
Context {codes : Codes} {S : Type}.
Variable W : trace -> Prop.
Variable J : S -> Prop.
Hypothesis W_nil : W [].
Hypothesis W_app : forall a b, W a -> W b -> W (a ++ b).

Lemma appends_ret {A} (a : A) : appends W J (@ret S A a).
Proof.
  intros s tr H. exists []. cbn. rewrite app_nil_r. auto.
Qed.

Lemma appends_get : appends W J (@get S).
Proof.
  intros s tr H. exists []. cbn. rewrite app_nil_r. auto.
Qed.

Lemma appends_bind {A B} (m : M S A) (k : A -> M S B) :
  appends W J m -> (forall a, appends W J (k a)) -> appends W J (bind m k).
Proof.
  intros Hm Hk s tr H. unfold bind.
  destruct (Hm s tr H) as (seg & E & Hw & Hj). revert E Hj.
  destruct (m (s, tr)) as [[a | iRet] [s' tr']]; cbn [fst snd];
    intros E Hj.
  - destruct (Hk a s' tr' Hj) as (seg' & E' & Hw' & Hj').
    exists (seg ++ seg'). rewrite E'. subst tr'. rewrite <- app_assoc.
    split; [reflexivity | split; [apply W_app; assumption | exact Hj']].
  - exists seg. auto.
Qed.

Lemma appends_emit (c : call) : W [c] -> appends W J (@emit S c).
Proof. intros Hc s tr H. exists [c]. cbn. auto. Qed.

Lemma appends_modify (f : S -> S) :
  (forall s, J s -> J (f s)) -> appends W J (modify f).
Proof.
  intros Hf s tr H. exists []. cbn. rewrite app_nil_r. auto.
Qed.

Lemma appends_abort {A} (iRet : Z) : appends W J (@ABORT_FINALIZE S A iRet).
Proof.
  intros s tr H. exists []. cbn. rewrite app_nil_r. auto.
Qed.

Lemma appends_when (b : bool) (m : M S unit) :
  appends W J m -> appends W J (when b m).
Proof. intros Hm. destruct b; [exact Hm | apply appends_ret]. Qed.

Lemma appends_if {A} (b : bool) (m1 m2 : M S A) :
  appends W J m1 -> appends W J m2 -> appends W J (if b then m1 else m2).
Proof. destruct b; auto. Qed.

Lemma appends_CHKiRet (c : call) (rc : Z) :
  W [c] -> W [answered rc] -> appends W J (@CHKiRet codes S c rc).
Proof.
  intros Hc Ha. unfold CHKiRet.
  apply appends_bind; [apply appends_emit, Hc |]. intros _.
  apply appends_bind; [apply appends_emit, Ha |]. intros _.
  apply appends_if; [apply appends_ret | apply appends_abort].
Qed.

Lemma appends_CHKmalloc (null : bool) :
  W [allocated null] -> appends W J (@CHKmalloc codes S null).
Proof.
  intros Ha. unfold CHKmalloc.
  apply appends_bind; [apply appends_emit, Ha |]. intros _.
  apply appends_if; [apply appends_abort | apply appends_ret].
Qed.

Lemma appends_CHKiRet_fn (f : S -> Z * S * trace) :
  (forall iRet, W [answered iRet]) ->
  (forall s, J s -> W (snd (f s)) /\ J (snd (fst (f s)))) ->
  appends W J (CHKiRet_fn f).
Proof.
  intros Ha Hf s tr H. unfold CHKiRet_fn. cbn [fst snd].
  destruct (Hf s H) as [Hw Hj]. revert Hw Hj.
  destruct (f s) as [[iRet s'] tr']. cbn [fst snd]. intros Hw Hj.
  exists (tr' ++ [answered iRet]). auto.
Qed.

(** What such a body gives to the function around it. *)
Lemma appends_exec {A} (m : M S A) (s : S) :
  appends W J m -> J s -> W (snd (exec m s)) /\ J (snd (fst (exec m s))).
Proof.
  intros Hm H. unfold exec.
  destruct (Hm s [] H) as (seg & E & Hw & Hj). revert E Hj. unfold trace.
  destruct (m (s, [])) as [r [s' tr']]. cbn [fst snd app].
  intros -> Hj. auto.
Qed.

End segments.

(** Prove that a body appends a segment, step by step; [side] closes the
    side conditions. *)
Ltac appends_tac side :=
  cbv zeta;
  lazymatch goal with
  | |- appends _ _ (bind _ _) => apply appends_bind; appends_tac side
  | |- forall _, appends _ _ _ => intros ?; appends_tac side
  | |- appends _ _ (ret _) => apply appends_ret; appends_tac side
  | |- appends _ _ get => apply appends_get; appends_tac side
  | |- appends _ _ (emit _) => apply appends_emit; appends_tac side
  | |- appends _ _ (modify _) => apply appends_modify; appends_tac side
  | |- appends _ _ (ABORT_FINALIZE _) => apply appends_abort; appends_tac side
  | |- appends _ _ FINALIZE => apply appends_abort; appends_tac side
  | |- appends _ _ (when _ _) => apply appends_when; appends_tac side
  | |- appends _ _ (CHKiRet _ _) => apply appends_CHKiRet; appends_tac side
  | |- appends _ _ (CHKmalloc _) => apply appends_CHKmalloc; appends_tac side
  | |- appends _ _ (CHKiRet_fn _) =>
      apply appends_CHKiRet_fn; appends_tac side
  | |- appends _ _ (if _ then _ else _) => apply appends_if; appends_tac side
  | |- appends _ _ (match ?x with _ => _ end) => destruct x; appends_tac side
  | |- _ => first [assumption | side]
  end.

(** ** The life of the Mbed TLS contexts *)

Lemma ctx_run_app (o : tls_object) (t1 t2 : trace) : forall live : bool,
  ctx_run o live (t1 ++ t2)
  = match ctx_run o live t1 with
    | Some live' => ctx_run o live' t2
    | None => None
    end.
Proof.
  induction t1 as [| c t1 IH]; intros live; [reflexivity |].
  cbn [app]. destruct c; cbn [ctx_run];
    repeat match goal with
           | |- context [if ?b then _ else _] => destruct b
           end; auto.
Qed.

Lemma contexts_kept_nil : contexts_kept [].
Proof. intros o. reflexivity. Qed.

Lemma contexts_kept_app (a b : trace) :
  contexts_kept a -> contexts_kept b -> contexts_kept (a ++ b).
Proof.
  intros Ha Hb o. rewrite ctx_run_app, (Ha o). apply Hb.
Qed.

(** A call other than the initialisation or the release of a context finds
    the contexts initialised and leaves them so. *)
Lemma contexts_kept_call (c : call) :
  (forall o, c <> mbedtls_init o) -> (forall o, c <> mbedtls_free o) ->
  contexts_kept [c].
Proof.
  intros Hi Hf o. destruct c; cbn [ctx_run];
    try (rewrite andb_false_r; reflexivity).
  - exfalso. apply (Hi o0). reflexivity.
  - exfalso. apply (Hf o0). reflexivity.
Qed.

Lemma ctx_run_close_notify (o : tls_object) (n : nat) :
  ctx_run o true (repeat mbedtls_ssl_close_notify n) = Some true.
Proof.
  induction n as [| n IH]; [reflexivity |].
  cbn [repeat ctx_run]. rewrite andb_false_r. exact IH.
Qed.

Ltac kept_side :=
  first [ apply contexts_kept_call; intros; discriminate
        | intros; apply contexts_kept_call; intros; discriminate
        | intros; split; [exact contexts_kept_nil | exact I]
        | intros; exact I ].

Section contexts.
Context {codes : Codes}.

(** The constructor body initialises every context, once. *)
Lemma nsd_mbedtlsInitialize_contexts (r : Z * option nsd_ptcp_t)
  (o : tls_object) :
  ctx_run o false (snd (nsd_mbedtlsInitialize r)) = Some true.
Proof. destruct o; reflexivity. Qed.

(** The destructor body, when it returns, has released every context,
    once, after the last call that uses one. *)
Lemma nsd_mbedtlsDestruct_body_contexts (fuel : nat) (close_notify : nat -> Z)
  (pThis d : nsd_mbedtls_t) (tr : trace) (o : tls_object) :
  nsd_mbedtlsDestruct_body fuel close_notify pThis = Some (d, tr) ->
  ctx_run o true tr = Some false.
Proof.
  unfold nsd_mbedtlsDestruct_body, mbedtlsEndSess.
  match goal with
  | |- match ?x with Some _ => _ | None => None end = _ -> _ =>
      destruct x as [[d0 tr0] |] eqn:E; [| discriminate]
  end.
  assert (Hn : exists n, tr0 = repeat mbedtls_ssl_close_notify n).
  { destruct (iMode pThis =? 1);
      [destruct (negb (bHaveSess pThis =? 0));
       [destruct (mbedtlsEndSess_loop fuel close_notify 0) as [n |];
        [| discriminate] |] |];
      injection E as _ E; subst tr0;
      first [exists n; reflexivity | exists 0%nat; reflexivity]. }
  destruct Hn as [n ->].
  destruct (pTcp d0); intros H; injection H as _ H; subst tr;
    rewrite ?ctx_run_app, ctx_run_close_notify; destruct o; reflexivity.
Qed.

(** One file of [mbedtlsInitCred]: the context is released and initialised
    anew before the file is parsed. *)
Lemma appends_reparse {S} (J : S -> Prop) (o : tls_object) (c : call)
  (rc : Z) (f : S -> S) :
  (forall o', c <> mbedtls_init o') -> (forall o', c <> mbedtls_free o') ->
  (forall s, J s -> J (f s)) ->
  appends contexts_kept J
    (emit (mbedtls_free o) ;; emit (mbedtls_init o) ;;
     CHKiRet c rc ;; modify f).
Proof.
  intros Hi Hf HJ s tr H.
  assert (Hw : contexts_kept [mbedtls_free o; mbedtls_init o; c; answered rc]).
  { change (contexts_kept ([mbedtls_free o; mbedtls_init o]
                           ++ [c] ++ [answered rc])).
    apply contexts_kept_app;
      [intros o'; destruct o, o'; reflexivity |].
    apply contexts_kept_app; apply contexts_kept_call;
      solve [assumption | intros; discriminate]. }
  exists [mbedtls_free o; mbedtls_init o; c; answered rc].
  cbv [bind emit CHKiRet modify ret ABORT_FINALIZE fst snd].
  destruct (rc =? RS_RET_OK); cbn [fst snd]; rewrite <- !app_assoc;
    (split; [reflexivity | split; [exact Hw | auto]]).
Qed.

Lemma mbedtlsInitCred_contexts (a : cred_answers) (d : nsd_mbedtls_t) :
  contexts_kept (snd (mbedtlsInitCred a d)).
Proof.
  unfold mbedtlsInitCred. cbv zeta.
  match goal with
  | |- context [exec ?body d] =>
      pose proof (appends_exec contexts_kept (fun _ => True) body d) as H
  end.
  destruct H as [Hw _]; [| exact I |].
  - repeat (apply appends_bind; [exact contexts_kept_app | | intros _]);
      match goal with
      | |- appends _ _ (match ?x with _ => _ end) => destruct x
      end;
      first [ apply appends_ret; exact contexts_kept_nil
            | apply appends_reparse; intros; first [discriminate | exact I] ].
  - revert Hw.
    match goal with
    | |- context [exec ?body d] => destruct (exec body d) as [[iRet d'] tr]
    end.
    cbn [fst snd]. intros Hw. apply contexts_kept_app; [exact Hw |].
    destruct (negb (iRet =? 0)); [| exact contexts_kept_nil].
    apply contexts_kept_call; intros; discriminate.
Qed.

Lemma mbedtlsInitSession_contexts (a : session_answers) (d : nsd_mbedtls_t) :
  contexts_kept (snd (mbedtlsInitSession a d)).
Proof.
  pose proof contexts_kept_nil as Hnil. pose proof contexts_kept_app as Happ.
  unfold mbedtlsInitSession.
  match goal with
  | |- context [exec ?body d] =>
      pose proof (appends_exec contexts_kept (fun _ => True) body d) as H
  end.
  destruct H as [Hw _]; [| exact I |].
  - appends_tac kept_side.
  - revert Hw.
    match goal with
    | |- context [exec ?body d] => destruct (exec body d) as [[iRet d'] tr]
    end.
    cbn [fst snd]. intros Hw. apply contexts_kept_app; [exact Hw |].
    destruct (negb (iRet =? RS_RET_OK)); [| exact contexts_kept_nil].
    apply contexts_kept_call; intros; discriminate.
Qed.

Ltac setup_kept_side :=
  first [ apply contexts_kept_call; intros; discriminate
        | intros; apply contexts_kept_call; intros; discriminate
        | intros; split;
          [first [ apply mbedtlsInitSession_contexts
                 | apply mbedtlsInitCred_contexts ] | exact I]
        | intros; exact I ].

Lemma Connect_keeps_contexts (a : connect_answers) (pThis : nsd_mbedtls_t)
  (host : string) :
  contexts_kept (snd (Connect a pThis host)).
Proof.
  pose proof contexts_kept_nil as Hnil. pose proof contexts_kept_app as Happ.
  unfold Connect. cbv zeta.
  apply (appends_exec contexts_kept (fun _ => True)); [| exact I].
  appends_tac setup_kept_side.
Qed.

Lemma fn_on_pNew_trace (f : nsd_mbedtls_t -> Z * nsd_mbedtls_t * trace)
  (l : accept_locals) :
  snd (fn_on_pNew f l) = snd (f (pNew l)).
Proof.
  unfold fn_on_pNew. destruct (f (pNew l)) as [[iRet d] tr]. reflexivity.
Qed.

Ltac accept_kept_side :=
  first [ apply contexts_kept_call; intros; discriminate
        | intros; apply contexts_kept_call; intros; discriminate
        | intros; rewrite fn_on_pNew_trace; split;
          [first [ apply mbedtlsInitSession_contexts
                 | apply mbedtlsInitCred_contexts ] | exact I]
        | intros; exact I ].

Lemma AcceptConnReq_body_contexts (a : accept_answers)
  (pThis : nsd_mbedtls_t) (l : accept_locals) :
  contexts_kept (snd (exec (AcceptConnReq_body a pThis) l)).
Proof.
  pose proof contexts_kept_nil as Hnil. pose proof contexts_kept_app as Happ.
  apply (appends_exec contexts_kept (fun _ => True)); [| exact I].
  unfold AcceptConnReq_body.
  appends_tac accept_kept_side.
Qed.

End contexts.

Lemma keeps_contexts_kept (tr : trace) :
  Forall keeps_contexts tr -> contexts_kept tr.
Proof.
  induction 1 as [| c tr Hc _ IH]; [exact contexts_kept_nil |].
  change (c :: tr) with ([c] ++ tr).
  apply contexts_kept_app; [| exact IH].
  apply contexts_kept_call; intros o ->; exact Hc.
Qed.

Lemma keeps_contexts_repeat (c : call) (n : nat) :
  keeps_contexts c -> Forall keeps_contexts (repeat c n).
Proof.
  intros Hc. apply Forall_forall. intros x Hx.
  apply repeat_spec in Hx. subst x. exact Hc.
Qed.

Section client_contexts.
Context {codes : Codes} {net : NetCodes}.

Ltac setter_keeps :=
  cbv [exec bind emit when CHKmalloc modify ret ABORT_FINALIZE FINALIZE
         iRet_of fst snd];
  repeat match goal with
         | |- context [if ?b then _ else _] => destruct b
         | |- context [match ?l with [] => _ | _ :: _ => _ end] =>
             destruct l
         | |- context [match ?x with Some _ => _ | None => _ end] =>
             destruct x
         end;
  cbn [fst snd app];
  repeat (apply Forall_cons; [exact I |]); apply Forall_nil.

(** Every operation of a client finds the contexts initialised and leaves
    them so. *)
Lemma client_step_contexts (o : client_op) (d d' : nsd_mbedtls_t)
  (tr : trace) :
  client_step o d = Some (d', tr) -> contexts_kept tr.
Proof.
  destruct o; cbn [client_step].
  - intros H. injection H as _ <-. apply keeps_contexts_kept.
    unfold SetMode. setter_keeps.
  - intros H. injection H as _ <-. apply keeps_contexts_kept.
    unfold SetAuthMode. setter_keeps.
  - intros H. injection H as _ <-. apply keeps_contexts_kept.
    unfold SetPermPeers. setter_keeps.
  - intros H. injection H as _ <-. apply keeps_contexts_kept.
    unfold SetTlsCAFile, strdup. setter_keeps.
  - intros H. injection H as _ <-. apply keeps_contexts_kept.
    unfold SetTlsCRLFile, strdup. setter_keeps.
  - intros H. injection H as _ <-. apply keeps_contexts_kept.
    unfold SetTlsKeyFile, strdup. setter_keeps.
  - intros H. injection H as _ <-. apply keeps_contexts_kept.
    unfold SetTlsCertFile, strdup. setter_keeps.
  - intros H. injection H as _ <-. apply Connect_keeps_contexts.
  - intros H. injection H as _ <-. apply keeps_contexts_kept.
    unfold Rcv.
    repeat match goal with
           | |- context [if ?b then _ else _] => destruct b
           end;
      cbn [snd]; repeat (apply Forall_cons; [exact I |]); apply Forall_nil.
  - unfold Send.
    destruct (negb (bAbortConn d =? 0));
      [intros H; injection H as _ <-; exact contexts_kept_nil |].
    destruct (iMode d =? 0);
      [intros H; injection H as _ <-; apply keeps_contexts_kept;
       repeat constructor |].
    destruct (Send_loop fuel ssl_write 0) as [[[iSent | iSent] n] |];
      [| | discriminate];
      intros H; injection H as _ <-; apply keeps_contexts_kept;
      [| apply Forall_app; split; [| repeat constructor]];
      apply keeps_contexts_repeat; exact I.
  - intros H. injection H as _ <-. apply keeps_contexts_kept.
    unfold Abort. destruct (iMode d =? 0); repeat constructor.
Qed.

Lemma client_run_contexts (l : list client_op) :
  forall (d d' : nsd_mbedtls_t) (tr : trace),
    client_run l d = Some (d', tr) -> contexts_kept tr.
Proof.
  induction l as [| o l IH]; intros d d' tr; cbn [client_run].
  - intros H. injection H as _ <-. exact contexts_kept_nil.
  - destruct (client_step o d) as [[d1 tr1] |] eqn:E1; [| discriminate].
    destruct (client_run l d1) as [[d2 tr2] |] eqn:E2; [| discriminate].
    intros H. injection H as _ <-.
    apply contexts_kept_app;
      [exact (client_step_contexts _ _ _ _ E1) | exact (IH _ _ _ E2)].
Qed.

(** The destructor body returns when the close loop is left. *)
Lemma nsd_mbedtlsDestruct_body_returns (Hok : CodesOk codes)
  (fuel : nat) (close_notify : nat -> Z) (k : nat) (d : nsd_mbedtls_t) :
  (forall j, (j < k)%nat -> is_pending (close_notify j) = true) ->
  is_pending (close_notify k) = false ->
  (k < fuel)%nat ->
  exists (d' : nsd_mbedtls_t) (tr : trace),
    nsd_mbedtlsDestruct_body fuel close_notify d = Some (d', tr).
Proof.
  intros Hpend Hlast Hfuel.
  unfold nsd_mbedtlsDestruct_body, mbedtlsEndSess.
  rewrite (mbedtlsEndSess_loop_first Hok close_notify k fuel 0);
    try assumption; [| intros j Hj; apply Hpend; lia].
  destruct (iMode d =? 1); [destruct (negb (bHaveSess d =? 0)) |];
    cbn [pTcp]; repeat match goal with
                       | |- context [match pTcp ?x with _ => _ end] =>
                           destruct (pTcp x)
                       end; eexists _, _; reflexivity.
Qed.

End client_contexts.

(** X1.  Over the life of a client driver, from the constructor body
    through any sequence of setters (the mode among them), [Connect], [Rcv],
    [Send] and [Abort] calls to the destructor body, every one of the eight
    Mbed TLS contexts is initialised before it is used, never initialised
    twice without a release in between, and never used or released while it
    is not initialised: whatever the collaborators answer, and whether the
    calls succeed or fail.  At the end of the operations every context is
    initialised; the destructor body returns as soon as an answer of
    [mbedtls_ssl_close_notify] is not pending, and when it returns every
    context has been released. *)
Theorem contexts_lifecycle {codes : Codes} {net : NetCodes}
  (Hok : CodesOk codes) (r : Z * option nsd_ptcp_t) (l : list client_op)
  (d1 : nsd_mbedtls_t) (trl : trace) (o : tls_object) :
  client_run l (snd (fst (nsd_mbedtlsInitialize r))) = Some (d1, trl) ->
  ctx_run o false (snd (nsd_mbedtlsInitialize r) ++ trl) = Some true
  /\ (forall (fuel : nat) (close_notify : nat -> Z) (k : nat),
        (forall j, (j < k)%nat -> is_pending (close_notify j) = true) ->
        is_pending (close_notify k) = false ->
        (k < fuel)%nat ->
        exists (d : nsd_mbedtls_t) (trd : trace),
          nsd_mbedtlsDestruct_body fuel close_notify d1 = Some (d, trd))
  /\ (forall (fuel : nat) (close_notify : nat -> Z) (d : nsd_mbedtls_t)
             (trd : trace),
        nsd_mbedtlsDestruct_body fuel close_notify d1 = Some (d, trd) ->
        ctx_run o false (snd (nsd_mbedtlsInitialize r) ++ trl ++ trd)
        = Some false).
Proof.
  intros Hrun.
  pose proof (client_run_contexts l _ _ _ Hrun o) as Hl.
  split; [| split].
  - rewrite ctx_run_app, nsd_mbedtlsInitialize_contexts. exact Hl.
  - intros fuel close_notify k Hpend Hlast Hfuel.
    exact (nsd_mbedtlsDestruct_body_returns Hok fuel close_notify k d1
             Hpend Hlast Hfuel).
  - intros fuel close_notify d trd Hd.
    rewrite ctx_run_app, nsd_mbedtlsInitialize_contexts.
    rewrite ctx_run_app, Hl.
    exact (nsd_mbedtlsDestruct_body_contexts _ _ _ _ _ o Hd).
Qed.

Lemma contexts_lifecycle_witness :
  CodesOk released_codes
  /\ match @client_run released_codes released_net_codes client_life
             (snd (fst (nsd_mbedtlsInitialize (0, Some 7%nat))))
     with
     | Some (d1, trl) =>
         iMode d1 = 1 /\ bHaveSess d1 = 1
         /\ In mbedtls_ssl_handshake trl
         /\ In (mbedtls_pk_parse_keyfile "key.pem") trl
         /\ In mbedtls_ssl_write trl /\ In mbedtls_ssl_read trl
         /\ ctx_run ctx_ssl false
              (snd (nsd_mbedtlsInitialize (0, Some 7%nat)) ++ trl)
            = Some true
         /\ match @nsd_mbedtlsDestruct_body released_codes 1 close_at_once d1
            with
            | Some (d, trd) =>
                In mbedtls_ssl_close_notify trd
                /\ ctx_run ctx_ssl false
                     (snd (nsd_mbedtlsInitialize (0, Some 7%nat))
                      ++ trl ++ trd)
                   = Some false
            | None => False
            end
     | None => False
     end.
Proof.
  split; [exact released_codes_ok |].
  destruct (@client_run released_codes released_net_codes client_life
              (snd (fst (nsd_mbedtlsInitialize (0, Some 7%nat)))))
    as [[d1 trl] |] eqn:E; [| vm_compute in E; discriminate E].
  destruct (@contexts_lifecycle released_codes released_net_codes
              released_codes_ok (0, Some 7%nat) client_life d1 trl ctx_ssl E)
    as (Hlive & _ & Hend).
  vm_compute in E. injection E as <- <-.
  split; [reflexivity |]. split; [reflexivity |].
  split; [in_trace |]. split; [in_trace |].
  split; [in_trace |]. split; [in_trace |].
  split; [exact Hlive |].
  match goal with
  | |- match ?x with Some _ => _ | None => False end =>
      destruct x as [[d trd] |] eqn:Ed
  end; [| vm_compute in Ed; discriminate Ed].
  split; [| exact (Hend _ _ _ _ Ed)].
  vm_compute in Ed. injection Ed as _ <-. in_trace.
Defined.

(** X2.  The same for the driver that [AcceptConnReq] makes: along the
    trace of a call, each context of the new driver is initialised before it
    is used and never initialised or released twice in a row; when the call
    returns [RS_RET_OK] every context is left initialised, and when it
    returns anything else every context has been released (or, if there was
    no memory for the object, never initialised). *)
Theorem AcceptConnReq_contexts {codes : Codes} (Hok : CodesOk codes)
  (fuel : nat) (close_notify : nat -> Z) (a : accept_answers)
  (pThis : nsd_mbedtls_t) (iRet : Z) (out : option nsd_mbedtls_t)
  (tr : trace) (o : tls_object) :
  AcceptConnReq fuel close_notify a pThis = Some (iRet, out, tr) ->
  ctx_run o false tr = Some (iRet =? RS_RET_OK).
Proof.
  unfold AcceptConnReq, nsd_mbedtlsConstruct.
  destruct (calloc_null a).
  - intros H. injection H as <- _ <-.
    assert (E : (RS_RET_OUT_OF_MEMORY =? RS_RET_OK) = false)
      by (apply Z.eqb_neq; rs_ne Hok).
    rewrite E. reflexivity.
  - cbn [nsd_mbedtlsInitialize fst snd]. rewrite Z.eqb_refl.
    match goal with
    | |- context [exec ?body ?l0] =>
        pose proof (AcceptConnReq_body_contexts a pThis l0) as Hb;
        revert Hb; destruct (exec body l0) as [[iRet' l] trb]
    end.
    cbn [snd]. intros Hb.
    assert (Hinit : forall t : trace,
              ctx_run o false
                ((calloc_obj
                  :: snd (nsd_mbedtlsInitialize (ret_ptcp_Construct a)))
                 ++ t)
              = ctx_run o true t) by (intros t; destruct o; reflexivity).
    cbn [nsd_mbedtlsInitialize snd app] in Hinit.
    destruct (iRet' =? RS_RET_OK) eqn:E; cbn [negb app].
    + intros H. injection H as <- _ <-.
      rewrite Hinit, (Hb o), E. reflexivity.
    + unfold nsd_mbedtlsDestruct.
      destruct (nsd_mbedtlsDestruct_body fuel close_notify (pNew l))
        as [[d' trd] |] eqn:Ed; [| discriminate].
      intros H. injection H as <- _ <-.
      rewrite Hinit, ctx_run_app, (Hb o), ctx_run_app.
      rewrite (nsd_mbedtlsDestruct_body_contexts _ _ _ _ _ o Ed), E.
      reflexivity.
Qed.

Lemma AcceptConnReq_contexts_witness :
  CodesOk released_codes
  /\ match @AcceptConnReq released_codes 0 close_at_once accept_bad_key
             tls_configured
     with
     | Some (iRet, out, tr) =>
         iRet = -15616 /\ ctx_run ctx_pkey false tr = Some false
     | None => False
     end.
Proof.
  split; [exact released_codes_ok |].
  destruct (@AcceptConnReq released_codes 0 close_at_once accept_bad_key
              tls_configured) as [[[iRet out] tr] |] eqn:E.
  - pose proof (@AcceptConnReq_contexts released_codes released_codes_ok
                  0%nat close_at_once accept_bad_key tls_configured
                  iRet out tr ctx_pkey E) as H.
    vm_compute in E. injection E as Hret _ _. subst iRet.
    split; [reflexivity | exact H].
  - vm_compute in E. discriminate E.
Defined.

(** ** Credentials *)

(** X3.  When [mbedtlsInitCred] returns zero, every file it works on (key,
    certificate, CA and CRL, each the one set on the driver or else the
    global default) has been parsed with success, the flag of each such file
    is raised and nothing else of the driver has changed, and the error
    message has not been logged. *)
Theorem mbedtlsInitCred_success_state {codes : Codes} (Hok : CodesOk codes)
  (a : cred_answers) (d : nsd_mbedtls_t) :
  fst (fst (mbedtlsInitCred a d)) = 0 ->
  snd (fst (mbedtlsInitCred a d))
  = have (crlfile_of a d) set_bHaveCrl
      (have (cafile_of a d) set_bHaveCaCert
         (have (certFile_of a d) set_bHaveCert
            (have (keyFile_of a d) set_bHaveKey d)))
  /\ (forall f, keyFile_of a d = Some f -> ret_pk_parse_keyfile a f = 0)
  /\ (forall f, certFile_of a d = Some f -> ret_x509_crt_parse_file a f = 0)
  /\ (forall f, cafile_of a d = Some f -> ret_x509_crt_parse_file a f = 0)
  /\ (forall f, crlfile_of a d = Some f -> ret_x509_crl_parse_file a f = 0)
  /\ ~ In crypto_config_error (snd (mbedtlsInitCred a d)).
Proof.
  pose proof (ok_zero _ Hok) as Hz.
  unfold keyFile_of, certFile_of, cafile_of, crlfile_of, or_default,
    mbedtlsInitCred.
  cbv zeta.
  destruct (if is_null (pszKeyFile d) then GetDfltNetstrmDrvrKeyFile a
            else pszKeyFile d) as [k |];
    destruct (if is_null (pszCertFile d) then GetDfltNetstrmDrvrCertFile a
              else pszCertFile d) as [c |];
    destruct (if is_null (pszCAFile d) then GetDfltNetstrmDrvrCAF a
              else pszCAFile d) as [ca |];
    destruct (if is_null (pszCRLFile d) then GetDfltNetstrmDrvrCRLF a
              else pszCRLFile d) as [crl |];
    cbv [exec bind emit CHKiRet modify ret ABORT_FINALIZE iRet_of fst snd
           have];
    rewrite ?Hz;
    repeat match goal with
           | |- context [Z.eqb ?x 0] =>
               destruct (Z.eqb_spec x 0); cbn [negb app fst snd]
           end;
    intros H; try contradiction;
    (split; [reflexivity |]);
    repeat match goal with
           | |- (forall f, _ = Some f -> _) /\ _ =>
               split; [intros f Hf; first [discriminate Hf
                                          | injection Hf as <-; assumption] |]
           end;
    unfold crypto_config_error; cbn [In];
    intros Hin;
    repeat (destruct Hin as [Hin | Hin]; [discriminate Hin |]);
    exact Hin.
Qed.

Lemma mbedtlsInitCred_success_state_witness :
  CodesOk released_codes
  /\ fst (fst (@mbedtlsInitCred released_codes cred_good tls_configured)) = 0
  /\ snd (fst (@mbedtlsInitCred released_codes cred_good tls_configured))
     = set_bHaveCaCert 1 (set_bHaveCert 1 (set_bHaveKey 1 tls_configured)).
Proof.
  split; [exact released_codes_ok |]. split; [reflexivity |].
  apply (@mbedtlsInitCred_success_state released_codes released_codes_ok
           cred_good tls_configured).
  reflexivity.
Defined.

(** X4.  When [mbedtlsInitCred] does not return zero, the last thing it did
    was to log its error message.  In particular, when the key file (the
    one set on the driver or else the global default) does not parse, it
    returns what [mbedtls_pk_parse_keyfile] answered, after releasing and
    initialising the key context anew and logging the message; no other file
    is looked at and the driver is as it was. *)
Theorem mbedtlsInitCred_failure {codes : Codes} (Hok : CodesOk codes)
  (a : cred_answers) (d : nsd_mbedtls_t) :
  (fst (fst (mbedtlsInitCred a d)) <> 0 ->
   last (snd (mbedtlsInitCred a d)) calloc_obj = crypto_config_error)
  /\ (forall f : string,
        keyFile_of a d = Some f -> ret_pk_parse_keyfile a f <> 0 ->
        mbedtlsInitCred a d
        = (ret_pk_parse_keyfile a f, d,
           [mbedtls_free ctx_pkey; mbedtls_init ctx_pkey;
            mbedtls_pk_parse_keyfile f;
            answered (ret_pk_parse_keyfile a f); crypto_config_error])).
Proof.
  pose proof (ok_zero _ Hok) as Hz.
  unfold keyFile_of, or_default, mbedtlsInitCred. cbv zeta. split.
  - destruct (if is_null (pszKeyFile d) then GetDfltNetstrmDrvrKeyFile a
              else pszKeyFile d) as [k |];
      destruct (if is_null (pszCertFile d) then GetDfltNetstrmDrvrCertFile a
                else pszCertFile d) as [c |];
      destruct (if is_null (pszCAFile d) then GetDfltNetstrmDrvrCAF a
                else pszCAFile d) as [ca |];
      destruct (if is_null (pszCRLFile d) then GetDfltNetstrmDrvrCRLF a
                else pszCRLFile d) as [crl |];
      cbv [exec bind emit CHKiRet modify ret ABORT_FINALIZE iRet_of fst snd];
      rewrite ?Hz;
      repeat match goal with
             | |- context [Z.eqb ?x 0] =>
                 destruct (Z.eqb_spec x 0); cbn [negb app fst snd]
             end;
      intros H; first [contradiction | reflexivity].
  - intros f Hf Hne. rewrite Hf.
    cbv [exec bind emit CHKiRet modify ret ABORT_FINALIZE iRet_of fst snd].
    rewrite Hz.
    destruct (Z.eqb_spec (ret_pk_parse_keyfile a f) 0); [contradiction |].
    cbn [negb]. destruct (Z.eqb_spec (ret_pk_parse_keyfile a f) 0);
      [contradiction | reflexivity].
Qed.

Lemma mbedtlsInitCred_failure_witness :
  CodesOk released_codes
  /\ keyFile_of cred_bad_key plain_driver = Some "key-fail.pem"%string
  /\ @mbedtlsInitCred released_codes cred_bad_key plain_driver
     = (-15616, plain_driver,
        [mbedtls_free ctx_pkey; mbedtls_init ctx_pkey;
         mbedtls_pk_parse_keyfile "key-fail.pem";
         answered (-15616); crypto_config_error])
  /\ last (snd (@mbedtlsInitCred released_codes cred_bad_key plain_driver))
       calloc_obj
     = crypto_config_error.
Proof.
  destruct (@mbedtlsInitCred_failure released_codes released_codes_ok
              cred_bad_key plain_driver) as [Hlast Hkey].
  split; [exact released_codes_ok |]. split; [reflexivity |]. split.
  - apply Hkey; [reflexivity | discriminate].
  - apply Hlast. discriminate.
Defined.

(** ** The remaining option setters *)

Lemma released_net_codes_ok : NetCodesOk released_codes released_net_codes.
Proof.
  constructor; simpl; repeat split; try discriminate; reflexivity.
Qed.

(** X5.  The four setters of credential paths release the old path first,
    and only once; they store NULL for a NULL argument and, with
    [RS_RET_OUT_OF_MEMORY], when there is no memory for the copy, and a copy
    of the argument otherwise; no other field of the driver changes. *)
Theorem SetTls_paths_replaced {codes : Codes} (d : nsd_mbedtls_t)
  (f : option string) (null : bool) :
  (string_replaced (pszCAFile d) f null
     (fst (fst (SetTlsCAFile d f null)))
     (pszCAFile (snd (fst (SetTlsCAFile d f null))))
     (snd (SetTlsCAFile d f null))
   /\ forall v, set_pszCAFile v (snd (fst (SetTlsCAFile d f null)))
                = set_pszCAFile v d)
  /\ (string_replaced (pszCRLFile d) f null
        (fst (fst (SetTlsCRLFile d f null)))
        (pszCRLFile (snd (fst (SetTlsCRLFile d f null))))
        (snd (SetTlsCRLFile d f null))
      /\ forall v, set_pszCRLFile v (snd (fst (SetTlsCRLFile d f null)))
                   = set_pszCRLFile v d)
  /\ (string_replaced (pszKeyFile d) f null
        (fst (fst (SetTlsKeyFile d f null)))
        (pszKeyFile (snd (fst (SetTlsKeyFile d f null))))
        (snd (SetTlsKeyFile d f null))
      /\ forall v, set_pszKeyFile v (snd (fst (SetTlsKeyFile d f null)))
                   = set_pszKeyFile v d)
  /\ (string_replaced (pszCertFile d) f null
        (fst (fst (SetTlsCertFile d f null)))
        (pszCertFile (snd (fst (SetTlsCertFile d f null))))
        (snd (SetTlsCertFile d f null))
      /\ forall v, set_pszCertFile v (snd (fst (SetTlsCertFile d f null)))
                   = set_pszCertFile v d).
Proof.
  unfold string_replaced.
  repeat split; destruct f as [g |], null; cbn;
    first [ reflexivity | discriminate
          | intros; discriminate
          | intros; assumption
          | intros ? [H | H]; first [discriminate H | exact H]
          | intros ? [] ].
Qed.

(** Where there is a key file, [mbedtlsInitCred] begins with it. *)
Lemma mbedtlsInitCred_begins_with_key {codes : Codes} (a : cred_answers)
  (d : nsd_mbedtls_t) (f : string) :
  keyFile_of a d = Some f ->
  exists tr' : trace,
    snd (mbedtlsInitCred a d)
    = [mbedtls_free ctx_pkey; mbedtls_init ctx_pkey;
       mbedtls_pk_parse_keyfile f; answered (ret_pk_parse_keyfile a f)]
      ++ tr'.
Proof.
  unfold keyFile_of, or_default, mbedtlsInitCred. cbv zeta. intros ->.
  match goal with
  | |- context [exec (bind ?m ?k) d] =>
      assert (Hk : appends (fun _ => True) (fun _ => True) (k tt))
        by (appends_tac ltac:(intros; exact I));
      generalize dependent k
  end.
  intros k Hk. unfold exec.
  cbv [bind emit CHKiRet modify ret ABORT_FINALIZE fst snd app].
  destruct (ret_pk_parse_keyfile a f =? RS_RET_OK).
  - match goal with
    | |- context [k tt (?s, ?t)] =>
        destruct (Hk s t I) as (seg & E & _); revert E; unfold trace;
        destruct (k tt (s, t)) as [r [s' tr']]
    end.
    cbn [fst snd]. intros ->. eexists. cbn [app]. reflexivity.
  - eexists. cbn [snd]. reflexivity.
Qed.

(** X6.  The key file set with [SetTlsKeyFile] is the one that the next
    [mbedtlsInitCred] parses, whatever the global default; after
    [SetTlsKeyFile] with NULL it is the global default.  When
    [SetTlsKeyFile] finds no memory for the copy it returns
    [RS_RET_OUT_OF_MEMORY] and leaves the driver without a key file of its
    own, so that credentials are then taken from the global default as
    well. *)
Theorem SetTlsKeyFile_then_InitCred {codes : Codes} (d : nsd_mbedtls_t)
  (f : string) (a : cred_answers) :
  (fst (fst (SetTlsKeyFile d (Some f) false)) = RS_RET_OK
   /\ exists tr' : trace,
        snd (mbedtlsInitCred a (snd (fst (SetTlsKeyFile d (Some f) false))))
        = [mbedtls_free ctx_pkey; mbedtls_init ctx_pkey;
           mbedtls_pk_parse_keyfile f; answered (ret_pk_parse_keyfile a f)]
          ++ tr')
  /\ (forall null : bool,
        fst (fst (SetTlsKeyFile d None null)) = RS_RET_OK
        /\ keyFile_of a (snd (fst (SetTlsKeyFile d None null)))
           = GetDfltNetstrmDrvrKeyFile a)
  /\ (fst (fst (SetTlsKeyFile d (Some f) true)) = RS_RET_OUT_OF_MEMORY
      /\ keyFile_of a (snd (fst (SetTlsKeyFile d (Some f) true)))
         = GetDfltNetstrmDrvrKeyFile a).
Proof.
  split; [| split].
  - split; [reflexivity |].
    apply mbedtlsInitCred_begins_with_key. reflexivity.
  - intros null. split; reflexivity.
  - split; reflexivity.
Qed.

(** X7.  [SetPermPeers].  With no peers it releases the permitted peer and
    stores NULL.  With peers it refuses, before it touches anything, unless
    the driver verifies certificates and checks names
    ([RS_RET_VALUE_NOT_IN_THIS_MODE]) and the first peer is of undecided or
    plain type ([RS_RET_VALUE_NOT_SUPPORTED]); otherwise it releases the old
    permitted peer and stores a copy of the ID of the first peer (NULL, with
    [RS_RET_OUT_OF_MEMORY], when there is no memory), ignoring the other
    peers with a warning. *)
Theorem SetPermPeers_outcomes {codes : Codes} {net : NetCodes}
  (d : nsd_mbedtls_t) (p : permittedPeers_t) (rest : list permittedPeers_t)
  (null : bool) :
  SetPermPeers d [] null
  = (RS_RET_OK, set_pPermPeer None d, [free_str (pPermPeer d)])
  /\ (authMode d <> MBEDTLS_SSL_VERIFY_REQUIRED \/ bChkName d = 0 ->
      fst (SetPermPeers d (p :: rest) null)
      = (RS_RET_VALUE_NOT_IN_THIS_MODE, d)
      /\ forall s, ~ In (free_str s) (snd (SetPermPeers d (p :: rest) null)))
  /\ (authMode d = MBEDTLS_SSL_VERIFY_REQUIRED -> bChkName d <> 0 ->
      etryType p <> PERM_PEER_TYPE_UNDECIDED ->
      etryType p <> PERM_PEER_TYPE_PLAIN ->
      fst (SetPermPeers d (p :: rest) null) = (RS_RET_VALUE_NOT_SUPPORTED, d)
      /\ forall s, ~ In (free_str s) (snd (SetPermPeers d (p :: rest) null)))
  /\ (authMode d = MBEDTLS_SSL_VERIFY_REQUIRED -> bChkName d <> 0 ->
      etryType p = PERM_PEER_TYPE_UNDECIDED
      \/ etryType p = PERM_PEER_TYPE_PLAIN ->
      fst (SetPermPeers d (p :: rest) null)
      = (if null then RS_RET_OUT_OF_MEMORY else RS_RET_OK,
         set_pPermPeer (if null then None else Some (pszID p)) d)
      /\ In (free_str (pPermPeer d)) (snd (SetPermPeers d (p :: rest) null))
      /\ (In one_peer_warning (snd (SetPermPeers d (p :: rest) null))
          <-> rest <> [])).
Proof.
  split; [reflexivity |]. unfold SetPermPeers, one_peer_warning.
  split; [| split].
  - intros H.
    assert (E : negb (authMode d =? MBEDTLS_SSL_VERIFY_REQUIRED)
                || (bChkName d =? 0) = true).
    { apply orb_true_iff.
      destruct H as [H | H]; [left | right].
      - apply negb_true_iff, Z.eqb_neq, H.
      - apply Z.eqb_eq, H. }
    rewrite E. cbn. split; [reflexivity |].
    intros s [Hin | []]. discriminate Hin.
  - intros Ha Hc Hu Hp.
    apply Z.eqb_eq in Ha. apply Z.eqb_neq in Hc, Hu, Hp.
    rewrite Ha, Hc, Hu, Hp. cbn. split; [reflexivity |].
    intros s [Hin | []]. discriminate Hin.
  - intros Ha Hc Ht.
    apply Z.eqb_eq in Ha. apply Z.eqb_neq in Hc. rewrite Ha, Hc.
    assert (E : negb (etryType p =? PERM_PEER_TYPE_UNDECIDED)
                && negb (etryType p =? PERM_PEER_TYPE_PLAIN) = false).
    { apply andb_false_iff.
      destruct Ht as [Ht | Ht]; [left | right];
        apply negb_false_iff, Z.eqb_eq, Ht. }
    rewrite E.
    destruct rest as [| q rest], null; cbn;
      (split; [reflexivity |]); (split; [auto |]); split; intros Hin;
      first [ discriminate
            | left; reflexivity
            | exfalso; apply Hin; reflexivity
            | exfalso;
              repeat (destruct Hin as [Hin | Hin]; [discriminate Hin |]);
              exact Hin ].
Qed.

Lemma SetPermPeers_outcomes_witness :
  bChkName plain_driver = 0
  /\ fst (@SetPermPeers released_codes released_net_codes plain_driver
            [peer_plain] false)
     = (-2087, plain_driver)
  /\ authMode tls_driver = 2 /\ bChkName tls_driver <> 0
  /\ fst (@SetPermPeers released_codes released_net_codes tls_driver
            [peer_wildcard] false)
     = (-2086, tls_driver)
  /\ fst (@SetPermPeers released_codes released_net_codes tls_driver
            [peer_plain; peer_wildcard] false)
     = (0, set_pPermPeer (Some "logs.example.net"%string) tls_driver).
Proof.
  destruct (@SetPermPeers_outcomes released_codes released_net_codes
              plain_driver peer_plain [] false) as (_ & H1 & _).
  destruct (@SetPermPeers_outcomes released_codes released_net_codes
              tls_driver peer_wildcard [] false) as (_ & _ & H2 & _).
  destruct (@SetPermPeers_outcomes released_codes released_net_codes
              tls_driver peer_plain [peer_wildcard] false)
    as (_ & _ & _ & H3).
  split; [reflexivity |].
  split; [apply H1; right; reflexivity |].
  split; [reflexivity |]. split; [discriminate |].
  split; [apply H2; solve [reflexivity | discriminate] |].
  apply H3; [reflexivity | discriminate | right; reflexivity].
Defined.

(** X8.  Permitted peers go with the name check only: after a [SetAuthMode]
    that selects "anon" or "x509/certvalid" (in any case of letters)
    [SetPermPeers] refuses every list of peers with
    [RS_RET_VALUE_NOT_IN_THIS_MODE] and changes nothing; after one that
    selects "x509/name", or NULL, it stores the first peer, if that is of
    plain type and there is memory. *)
Theorem SetPermPeers_after_SetAuthMode {codes : Codes} {net : NetCodes}
  (Hok : CodesOk codes) (d : nsd_mbedtls_t) (m : string)
  (p : permittedPeers_t) (rest : list permittedPeers_t) (null : bool) :
  (case_variant "anon" m = true \/ case_variant "x509/certvalid" m = true ->
   fst (SetPermPeers (snd (fst (SetAuthMode d (Some m)))) (p :: rest) null)
   = (RS_RET_VALUE_NOT_IN_THIS_MODE, snd (fst (SetAuthMode d (Some m)))))
  /\ (case_variant "x509/name" m = true ->
      etryType p = PERM_PEER_TYPE_PLAIN ->
      fst (SetPermPeers (snd (fst (SetAuthMode d (Some m)))) (p :: rest)
             false)
      = (RS_RET_OK,
         set_pPermPeer (Some (pszID p)) (snd (fst (SetAuthMode d (Some m))))))
  /\ (etryType p = PERM_PEER_TYPE_PLAIN ->
      fst (SetPermPeers (snd (fst (SetAuthMode d None))) (p :: rest) false)
      = (RS_RET_OK,
         set_pPermPeer (Some (pszID p)) (snd (fst (SetAuthMode d None))))).
Proof.
  pose proof (verify_distinct _ Hok) as Hv.
  split; [| split].
  - intros [H | H]; rewrite (SetAuthMode_case_variant d _ _ H);
      unfold SetAuthMode, SetPermPeers; cbn.
    + destruct (Z.eqb_spec MBEDTLS_SSL_VERIFY_NONE
                  MBEDTLS_SSL_VERIFY_REQUIRED); [contradiction |].
      reflexivity.
    + rewrite Z.eqb_refl. reflexivity.
  - intros H Hp. rewrite (SetAuthMode_case_variant d _ _ H).
    unfold SetAuthMode, SetPermPeers. cbn.
    rewrite Z.eqb_refl, Hp, Z.eqb_refl, andb_false_r.
    destruct rest; reflexivity.
  - intros Hp. unfold SetAuthMode, SetPermPeers. cbn.
    rewrite Z.eqb_refl, Hp, Z.eqb_refl, andb_false_r.
    destruct rest; reflexivity.
Qed.

Lemma SetPermPeers_after_SetAuthMode_witness :
  CodesOk released_codes
  /\ fst (@SetPermPeers released_codes released_net_codes
            (snd (fst (@SetAuthMode released_codes tls_driver
                         (Some "Anon"%string))))
            [peer_plain] false)
     = (-2087, snd (fst (@SetAuthMode released_codes tls_driver
                           (Some "Anon"%string))))
  /\ fst (@SetPermPeers released_codes released_net_codes
            (snd (fst (@SetAuthMode released_codes plain_driver
                         (Some "X509/Name"%string))))
            [peer_plain] false)
     = (0, set_pPermPeer (Some "logs.example.net"%string)
             (snd (fst (@SetAuthMode released_codes plain_driver
                          (Some "X509/Name"%string))))).
Proof.
  destruct (@SetPermPeers_after_SetAuthMode released_codes released_net_codes
              released_codes_ok tls_driver "Anon" peer_plain [] false)
    as (H1 & _).
  destruct (@SetPermPeers_after_SetAuthMode released_codes released_net_codes
              released_codes_ok plain_driver "X509/Name" peer_plain [] false)
    as (_ & H2 & _).
  split; [exact released_codes_ok |].
  split; [apply H1; left; reflexivity |].
  apply H2; reflexivity.
Defined.

(** X9.  [SetAuthMode] with NULL is [SetAuthMode] with "x509/name": it
    succeeds, turns the name check on and sets [authMode] to
    [MBEDTLS_SSL_VERIFY_REQUIRED].  A call that succeeds overrides whatever
    an earlier call has set: the driver it leaves is the one it would have
    left without the earlier call.  After any call, successful or not, the
    name check is 0 or 1; it is on exactly when the mode was NULL or compares
    equal to "x509/name" (so is a case variant of it), and then the call has
    succeeded and [authMode] is [MBEDTLS_SSL_VERIFY_REQUIRED]. *)
Theorem SetAuthMode_default_and_override {codes : Codes}
  (Hok : CodesOk codes) (d : nsd_mbedtls_t) (m1 m2 : option string) :
  SetAuthMode d None = SetAuthMode d (Some "x509/name"%string)
  /\ SetAuthMode d None
     = (RS_RET_OK,
        set_bChkName 1
          (set_authMode MBEDTLS_SSL_VERIFY_REQUIRED (set_bChkName 0 d)),
        [])
  /\ (fst (fst (SetAuthMode d m2)) = RS_RET_OK ->
      SetAuthMode (snd (fst (SetAuthMode d m1))) m2 = SetAuthMode d m2)
  /\ (bChkName (snd (fst (SetAuthMode d m2))) = 1
      <-> m2 = None
          \/ exists s, m2 = Some s /\ strcasecmp s "x509/name" = 0)
  /\ (bChkName (snd (fst (SetAuthMode d m2))) <> 1 ->
      bChkName (snd (fst (SetAuthMode d m2))) = 0)
  /\ (bChkName (snd (fst (SetAuthMode d m2))) = 1 ->
      fst (fst (SetAuthMode d m2)) = RS_RET_OK
      /\ authMode (snd (fst (SetAuthMode d m2)))
         = MBEDTLS_SSL_VERIFY_REQUIRED
      /\ (m2 = None
          \/ exists s, m2 = Some s
                       /\ case_variant "x509/name" (c_str s) = true)).
Proof.
  split; [reflexivity |]. split; [reflexivity |]. split.
  { assert (Hne : RS_RET_VALUE_NOT_SUPPORTED <> RS_RET_OK) by rs_ne Hok.
    unfold SetAuthMode.
    repeat match goal with
           | |- context [if ?b then _ else _] => destruct b
           end;
      cbn [fst snd]; intros H; try (exfalso; apply Hne, H);
      destruct d; reflexivity. }
  assert (Hname : forall s, strcasecmp s "x509/name" = 0 ->
                    case_variant "x509/name" (c_str s) = true)
    by (intros s H; exact (strcasecmp_zero s "x509/name" H)).
  unfold SetAuthMode. destruct m2 as [s |].
  - destruct (Z.eqb_spec (strcasecmp s "x509/name") 0) as [E | E].
    + cbn [fst snd bChkName authMode set_bChkName set_authMode].
      split; [split; [intros _; right; exists s; split;
                      [reflexivity | exact E]
                     | intros _; reflexivity] |].
      split; [intros H; exfalso; apply H; reflexivity |].
      intros _. split; [reflexivity |]. split; [reflexivity |].
      right. exists s. split; [reflexivity | exact (Hname s E)].
    + destruct (strcasecmp s "x509/certvalid" =? 0);
        [| destruct (strcasecmp s "anon" =? 0)];
        cbn [fst snd bChkName authMode set_bChkName set_authMode];
        (split;
         [split;
          [intros H; discriminate H
          | intros [H | (s' & H & H')];
            [discriminate H | injection H as <-; contradiction]] |]);
        (split; [intros _; reflexivity |]); intros H; discriminate H.
  - cbn [fst snd bChkName authMode set_bChkName set_authMode].
    split; [split; [intros _; left; reflexivity | reflexivity] |].
    split; [intros H; exfalso; apply H; reflexivity |].
    intros _. split; [reflexivity |]. split; [reflexivity |].
    left; reflexivity.
Qed.

Lemma SetAuthMode_default_and_override_witness :
  CodesOk released_codes
  /\ fst (fst (@SetAuthMode released_codes plain_driver
                 (Some "x509/certvalid"%string))) = 0
  /\ @SetAuthMode released_codes
       (snd (fst (@SetAuthMode released_codes plain_driver None)))
       (Some "x509/certvalid"%string)
     = @SetAuthMode released_codes plain_driver
         (Some "x509/certvalid"%string)
  /\ bChkName (snd (fst (@SetAuthMode released_codes plain_driver
                           (Some "X509/Name"%string)))) = 1
  /\ authMode (snd (fst (@SetAuthMode released_codes plain_driver
                           (Some "X509/Name"%string)))) = 2.
Proof.
  destruct (@SetAuthMode_default_and_override released_codes
              released_codes_ok plain_driver None
              (Some "x509/certvalid"%string)) as (_ & _ & Hover & _).
  destruct (@SetAuthMode_default_and_override released_codes
              released_codes_ok plain_driver None
              (Some "X509/Name"%string)) as (_ & _ & _ & _ & _ & Hon).
  split; [exact released_codes_ok |]. split; [reflexivity |].
  split; [apply Hover; reflexivity |].
  split; [reflexivity |]. apply (Hon eq_refl).
Defined.

(** X10.  [SetPermitExpiredCerts] never changes the driver.  It succeeds
    for NULL, and it refuses with [RS_RET_VALUE_NOT_SUPPORTED], logging an
    error, every string that is not "off" up to the case of letters: "on",
    for one. *)
Theorem SetPermitExpiredCerts_only_off {codes : Codes} (d : nsd_mbedtls_t)
  (m : string) :
  snd (fst (SetPermitExpiredCerts d (Some m))) = d
  /\ SetPermitExpiredCerts d None = (RS_RET_OK, d, [])
  /\ (case_variant "off" (c_str m) = false ->
      fst (fst (SetPermitExpiredCerts d (Some m)))
      = RS_RET_VALUE_NOT_SUPPORTED
      /\ exists msg, snd (SetPermitExpiredCerts d (Some m)) = [LogError msg]).
Proof.
  unfold SetPermitExpiredCerts. split; [| split].
  - destruct (negb (strcasecmp m "off" =? 0)); reflexivity.
  - reflexivity.
  - intros H. rewrite (strcasecmp_differs m "off" eq_refl H). cbn [negb].
    split; [reflexivity | eexists; reflexivity].
Qed.

Lemma SetPermitExpiredCerts_only_off_witness :
  case_variant "off" (c_str "on") = false
  /\ fst (fst (@SetPermitExpiredCerts released_codes tls_driver
                 (Some "on"%string))) = -2086.
Proof.
  split; [reflexivity |].
  apply (@SetPermitExpiredCerts_only_off released_codes tls_driver "on").
  reflexivity.
Defined.

(** ** The mode and the session *)

(** X11.  [SetMode] takes the modes 0 and 1 and changes nothing but
    [iMode]; any other mode is refused with [RS_RET_INVALID_DRVR_MODE] and
    an error in the log, the driver being left as it was.  The session is
    not looked at: on a driver that [SetMode] has put into mode 0 the
    destructor body returns, whatever the fuel, without a single
    [mbedtls_ssl_close_notify], and [bHaveSess] is still what it was, also
    when a session was active. *)
Theorem SetMode_and_the_session {codes : Codes} (d : nsd_mbedtls_t)
  (mode : Z) :
  (mode = 0 \/ mode = 1 -> SetMode d mode = (RS_RET_OK, set_iMode mode d, []))
  /\ (mode <> 0 -> mode <> 1 ->
      fst (SetMode d mode) = (RS_RET_INVALID_DRVR_MODE, d)
      /\ exists msg, snd (SetMode d mode) = [LogError msg])
  /\ (forall (fuel : nat) (close_notify : nat -> Z),
      exists (d' : nsd_mbedtls_t) (tr : trace),
        nsd_mbedtlsDestruct_body fuel close_notify (snd (fst (SetMode d 0)))
        = Some (d', tr)
        /\ ~ In mbedtls_ssl_close_notify tr
        /\ bHaveSess d' = bHaveSess d).
Proof.
  split; [| split].
  - intros [-> | ->]; reflexivity.
  - intros H0 H1. unfold SetMode.
    destruct (Z.eqb_spec mode 0); [contradiction |].
    destruct (Z.eqb_spec mode 1); [contradiction |].
    split; [reflexivity | eexists; reflexivity].
  - intros fuel close_notify. unfold SetMode, nsd_mbedtlsDestruct_body.
    cbn. destruct (pTcp d); eexists _, _;
      (split; [reflexivity |]); (split; [| reflexivity]);
      cbn [In app]; intros Hin;
      repeat (destruct Hin as [Hin | Hin]; [discriminate Hin |]);
      exact Hin.
Qed.

Lemma SetMode_and_the_session_witness :
  @SetMode released_codes plain_driver 1
  = (0, set_iMode 1 plain_driver, [])
  /\ fst (@SetMode released_codes plain_driver 2) = (-2081, plain_driver)
  /\ bHaveSess tls_driver = 1
  /\ exists (d' : nsd_mbedtls_t) (tr : trace),
       @nsd_mbedtlsDestruct_body released_codes 0 close_at_once
         (snd (fst (@SetMode released_codes tls_driver 0)))
       = Some (d', tr)
       /\ ~ In mbedtls_ssl_close_notify tr
       /\ bHaveSess d' = 1.
Proof.
  destruct (@SetMode_and_the_session released_codes plain_driver 1)
    as (H1 & _).
  destruct (@SetMode_and_the_session released_codes plain_driver 2)
    as (_ & H2 & _).
  destruct (@SetMode_and_the_session released_codes tls_driver 0)
    as (_ & _ & H3).
  split; [apply H1; right; reflexivity |].
  split; [apply H2; discriminate |].
  split; [reflexivity |].
  exact (H3 0%nat close_at_once).
Defined.

(** ** The callbacks *)

(** X12.  The depth set with [SetTlsVerifyDepth] is not checked and is the
    limit that [verify] applies: zero means no limit; with any other value
    [verify] answers [MBEDTLS_ERR_X509_FATAL_ERROR] exactly for the
    certificates that lie deeper in the chain, so that a negative value
    makes it refuse every certificate. *)
Theorem verify_depth_limit {codes : Codes} {net : NetCodes}
  (Hnet : NetCodesOk codes net) (d : nsd_mbedtls_t) (n depth : Z) :
  fst (fst (SetTlsVerifyDepth d n)) = RS_RET_OK
  /\ (verify (snd (fst (SetTlsVerifyDepth d n))) depth = 0
      <-> n = 0 \/ depth <= n)
  /\ (verify (snd (fst (SetTlsVerifyDepth d n))) depth
      = MBEDTLS_ERR_X509_FATAL_ERROR
      <-> n <> 0 /\ n < depth)
  /\ (n < 0 -> 0 <= depth ->
      verify (snd (fst (SetTlsVerifyDepth d n))) depth
      = MBEDTLS_ERR_X509_FATAL_ERROR).
Proof.
  pose proof (x509_fatal_neg _ _ Hnet) as Hneg.
  unfold SetTlsVerifyDepth, verify. cbn [fst snd].
  replace (DrvrVerifyDepth (set_DrvrVerifyDepth n d)) with n by reflexivity.
  destruct (Z.eqb_spec n 0), (Z.gtb_spec depth n); cbn [negb andb];
    repeat split; intros; try lia; try reflexivity.
Qed.

Lemma verify_depth_limit_witness :
  NetCodesOk released_codes released_net_codes
  /\ @verify released_net_codes
       (snd (fst (@SetTlsVerifyDepth released_codes tls_driver (-1)))) 0
     = -12288.
Proof.
  split; [exact released_net_codes_ok |].
  apply (@verify_depth_limit released_codes released_net_codes
           released_net_codes_ok tls_driver (-1) 0); lia.
Defined.

(** X13.  [mbedtlsNetRecv] hands the library what [recv] answered when that
    is not negative (the end of the stream, zero, included).  When [recv]
    fails it answers want-read for [EAGAIN], [EWOULDBLOCK] and [EINTR],
    [MBEDTLS_ERR_NET_CONN_RESET] for [EPIPE] and [ECONNRESET], and
    [MBEDTLS_ERR_NET_RECV_FAILED] for every other [errno]; so its answer is
    negative exactly when [recv] failed, is never want-write, and is one of
    the two pending codes exactly when [recv] failed for one of the first
    three reasons. *)
Theorem mbedtlsNetRecv_outcomes {codes : Codes} {net : NetCodes}
  (Hok : CodesOk codes) (Hnet : NetCodesOk codes net) (slen oserr : Z) :
  INT_MIN <= slen <= INT_MAX ->
  (0 <= slen -> mbedtlsNetRecv slen oserr = slen)
  /\ (slen < 0 -> oserr = EAGAIN \/ oserr = EWOULDBLOCK \/ oserr = EINTR ->
      mbedtlsNetRecv slen oserr = MBEDTLS_ERR_SSL_WANT_READ)
  /\ (slen < 0 -> oserr = EPIPE \/ oserr = ECONNRESET ->
      mbedtlsNetRecv slen oserr = MBEDTLS_ERR_NET_CONN_RESET)
  /\ (slen < 0 -> oserr <> EAGAIN -> oserr <> EWOULDBLOCK ->
      oserr <> EINTR -> oserr <> EPIPE -> oserr <> ECONNRESET ->
      mbedtlsNetRecv slen oserr = MBEDTLS_ERR_NET_RECV_FAILED)
  /\ (mbedtlsNetRecv slen oserr < 0 <-> slen < 0)
  /\ mbedtlsNetRecv slen oserr <> MBEDTLS_ERR_SSL_WANT_WRITE
  /\ (is_pending (mbedtlsNetRecv slen oserr) = true
      <-> slen < 0
          /\ (oserr = EAGAIN \/ oserr = EWOULDBLOCK \/ oserr = EINTR)).
Proof.
  intros Hrange.
  pose proof (want_read_neg _ Hok) as Nr.
  pose proof (want_write_neg _ Hok) as Nw.
  pose proof (recv_failed_neg _ _ Hnet) as Nf.
  pose proof (conn_reset_neg _ _ Hnet) as Nc.
  pose proof (net_distinct _ _ Hnet) as D. simpl in D.
  destruct D as ((Drw & Drf & _ & Drc & _) & (Dwf & _ & Dwc & _) & _).
  pose proof (errno_again_pipe _ _ Hnet) as D1. simpl in D1.
  pose proof (errno_wouldblock_pipe _ _ Hnet) as D2. simpl in D2.
  pose proof (errno_intr_pipe _ _ Hnet) as D3. simpl in D3.
  destruct D1 as (A1 & A2 & _), D2 as (B1 & B2 & _), D3 as (C1 & C2 & _).
  set (again := (oserr =? EAGAIN) || (oserr =? EWOULDBLOCK)
                || (oserr =? EINTR)).
  set (reset := (oserr =? EPIPE) || (oserr =? ECONNRESET)).
  assert (Hagain : again = true
                   <-> oserr = EAGAIN \/ oserr = EWOULDBLOCK \/ oserr = EINTR).
  { unfold again. rewrite !orb_true_iff, !Z.eqb_eq. tauto. }
  assert (Hreset : reset = true <-> oserr = EPIPE \/ oserr = ECONNRESET).
  { unfold reset. rewrite !orb_true_iff, !Z.eqb_eq. tauto. }
  assert (Hexcl : reset = true -> again = false).
  { intros Hr. apply Hreset in Hr.
    destruct again; [| reflexivity]. exfalso.
    destruct Hr as [Hr | Hr], (proj1 Hagain eq_refl) as [Ea | [Ea | Ea]];
      congruence. }
  assert (Hneg : slen < 0 ->
            mbedtlsNetRecv slen oserr
            = if again then MBEDTLS_ERR_SSL_WANT_READ
              else if reset then MBEDTLS_ERR_NET_CONN_RESET
                   else MBEDTLS_ERR_NET_RECV_FAILED).
  { intros Hs. unfold mbedtlsNetRecv.
    destruct (Z.ltb_spec slen 0); [reflexivity | lia]. }
  assert (Hpos : 0 <= slen -> mbedtlsNetRecv slen oserr = slen).
  { intros Hs. unfold mbedtlsNetRecv.
    destruct (Z.ltb_spec slen 0); [lia |]. apply int_wrap_id, Hrange. }
  split; [exact Hpos |].
  split.
  { intros Hs He. rewrite (Hneg Hs), (proj2 Hagain He). reflexivity. }
  split.
  { intros Hs He. rewrite (Hneg Hs), (Hexcl (proj2 Hreset He)).
    rewrite (proj2 Hreset He). reflexivity. }
  split.
  { intros Hs E1 E2 E3 E4 E5. rewrite (Hneg Hs).
    destruct again;
      [exfalso; destruct (proj1 Hagain eq_refl) as [Ea | [Ea | Ea]];
       contradiction |].
    destruct reset; [| reflexivity].
    exfalso. destruct (proj1 Hreset eq_refl); contradiction. }
  split.
  { destruct (Z.lt_ge_cases slen 0) as [Hs | Hs].
    - rewrite (Hneg Hs). destruct again, reset; lia.
    - rewrite (Hpos Hs). lia. }
  split.
  { destruct (Z.lt_ge_cases slen 0) as [Hs | Hs].
    - rewrite (Hneg Hs). destruct again, reset; congruence.
    - rewrite (Hpos Hs). lia. }
  unfold is_pending. rewrite orb_true_iff, !Z.eqb_eq.
  destruct (Z.lt_ge_cases slen 0) as [Hs | Hs].
  - rewrite (Hneg Hs). rewrite <- Hagain.
    destruct again; [tauto |].
    destruct reset; split; intros Hx;
      solve [destruct Hx as [Hx | Hx]; congruence
            | destruct Hx as [_ Hx]; discriminate Hx].
  - rewrite (Hpos Hs). split; intros Hx; [| lia].
    exfalso. destruct Hx; lia.
Qed.

Lemma mbedtlsNetRecv_outcomes_witness :
  CodesOk released_codes /\ NetCodesOk released_codes released_net_codes
  /\ @mbedtlsNetRecv released_codes released_net_codes (-1) 11 = -26880
  /\ @mbedtlsNetRecv released_codes released_net_codes (-1) 104 = -80
  /\ @mbedtlsNetRecv released_codes released_net_codes 0 0 = 0.
Proof.
  assert (Hr : INT_MIN <= -1 <= INT_MAX)
    by (unfold INT_MIN, INT_MAX; lia).
  assert (Hr0 : INT_MIN <= 0 <= INT_MAX)
    by (unfold INT_MIN, INT_MAX; lia).
  destruct (@mbedtlsNetRecv_outcomes released_codes released_net_codes
              released_codes_ok released_net_codes_ok (-1) 11 Hr)
    as (_ & H1 & _).
  destruct (@mbedtlsNetRecv_outcomes released_codes released_net_codes
              released_codes_ok released_net_codes_ok (-1) 104 Hr)
    as (_ & _ & H2 & _).
  destruct (@mbedtlsNetRecv_outcomes released_codes released_net_codes
              released_codes_ok released_net_codes_ok 0 0 Hr0)
    as (H3 & _).
  split; [exact released_codes_ok |].
  split; [exact released_net_codes_ok |].
  split; [apply H1; [lia | left; reflexivity] |].
  split; [apply H2; [lia | right; reflexivity] |].
  apply H3. lia.
Defined.

(** X14.  [mbedtlsNetSend] makes one call of [nsd_ptcp.Send] and tells the
    library of a failure only when the status of that call is
    [RS_RET_IO_ERROR]; with every other status, an error included, it hands
    the library the length that [nsd_ptcp.Send] left, as the number of bytes
    sent. *)
Theorem mbedtlsNetSend_outcomes {net : NetCodes} (d : nsd_mbedtls_t)
  (iRet slen : Z) :
  INT_MIN <= slen <= INT_MAX ->
  snd (mbedtlsNetSend d (iRet, slen)) = [nsd_ptcp_Send (pTcp d)]
  /\ (iRet = RS_RET_IO_ERROR ->
      fst (mbedtlsNetSend d (iRet, slen)) = MBEDTLS_ERR_NET_SEND_FAILED)
  /\ (iRet <> RS_RET_IO_ERROR -> fst (mbedtlsNetSend d (iRet, slen)) = slen).
Proof.
  intros Hrange. unfold mbedtlsNetSend. cbn [fst snd].
  split; [reflexivity |].
  destruct (Z.eqb_spec iRet RS_RET_IO_ERROR); split; intros;
    try contradiction; try reflexivity.
  apply int_wrap_id, Hrange.
Qed.

Lemma mbedtlsNetSend_outcomes_witness :
  fst (@mbedtlsNetSend released_net_codes tls_driver
         (-2027, 100)) = -78
  /\ fst (@mbedtlsNetSend released_net_codes tls_driver
            (-2099, 0)) = 0.
Proof.
  assert (Hr : INT_MIN <= 100 <= INT_MAX)
    by (unfold INT_MIN, INT_MAX; lia).
  assert (Hr0 : INT_MIN <= 0 <= INT_MAX)
    by (unfold INT_MIN, INT_MAX; lia).
  split.
  - apply (@mbedtlsNetSend_outcomes released_net_codes tls_driver
             (-2027) 100 Hr). reflexivity.
  - apply (@mbedtlsNetSend_outcomes released_net_codes tls_driver
             (-2099) 0 Hr0). discriminate.
Defined.

(** ** Reasoning about bodies, continued *)

Lemma triple_conseq {S A} (P P' : S -> trace -> Prop) (m : M S A)
  (Q Q' : A -> S -> trace -> Prop) (E E' : Z -> S -> trace -> Prop) :
  triple P' m Q' E' ->
  (forall s tr, P s tr -> P' s tr) ->
  (forall a s tr, Q' a s tr -> Q a s tr) ->
  (forall iRet s tr, E' iRet s tr -> E iRet s tr) ->
  triple P m Q E.
Proof.
  intros Hm HP HQ HE s tr H. specialize (Hm s tr (HP s tr H)). revert Hm.
  destruct (m (s, tr)) as [[a | iRet] [s' tr']]; auto.
Qed.

Section steps_get.
Context {codes : Codes} {S : Type}.
Variable ok : call -> Prop.
Variable J : S -> Prop.
Variable X : Z -> Prop.

(** The value that [get] hands to the rest of a body satisfies the
    invariant. *)
Lemma step_get_bind {B} (k : S -> M S B) :
  (forall a, J a -> step ok J X (k a)) -> step ok J X (bind get k).
Proof.
  intros Hk s tr H. unfold bind, get. cbn [fst snd].
  exact (Hk s (proj2 H) s tr H).
Qed.

End steps_get.

(** [step_tac], with the value of a [get] known to satisfy the invariant
    (as a hypothesis of the side conditions that follow). *)
Ltac step_get_tac side :=
  cbv zeta;
  lazymatch goal with
  | |- step _ _ _ (bind get _) =>
      apply step_get_bind;
      let a := fresh "a" in let Ha := fresh "Ha" in
      intros a Ha; step_get_tac side
  | |- step _ _ _ (bind _ _) =>
      apply step_bind; [step_get_tac side | intros ?; step_get_tac side]
  | |- step _ _ _ (ret _) => apply step_ret
  | |- step _ _ _ get => apply step_get
  | |- step _ _ _ (emit _) => apply step_emit; side
  | |- step _ _ _ (modify _) => apply step_modify; side
  | |- step _ _ _ (ABORT_FINALIZE _) => apply step_abort; side
  | |- step _ _ _ FINALIZE => apply step_abort; side
  | |- step _ _ _ (when _ _) =>
      apply step_when;
      let Hb := fresh "Hb" in
      intros Hb; first [discriminate Hb | step_get_tac side]
  | |- step _ _ _ (CHKiRet _ _) => apply step_CHKiRet; side
  | |- step _ _ _ (CHKmalloc _) => apply step_CHKmalloc; side
  | |- step _ _ _ (CHKiRet_fn _) => apply step_CHKiRet_fn; side
  | |- step _ _ _ (if ?b then _ else _) =>
      let Eb := fresh "Eb" in destruct b eqn:Eb; step_get_tac side
  | |- step _ _ _ (match ?x with _ => _ end) =>
      destruct x; step_get_tac side
  end.

(** ** What the library is told about authentication *)

Section policy.
Context {codes : Codes}.

(** [mbedtlsInitSession] leaves the driver as it is. *)
Lemma mbedtlsInitSession_driver (a : session_answers) (d : nsd_mbedtls_t) :
  snd (fst (mbedtlsInitSession a d)) = d.
Proof.
  unfold mbedtlsInitSession.
  cbv [exec bind emit CHKiRet CHKiRet_fn ret ABORT_FINALIZE fst snd].
  destruct (get_custom_string a =? RS_RET_OK);
    [destruct (ret_ctr_drbg_seed a =? RS_RET_OK) |]; reflexivity.
Qed.

Lemma mbedtlsInitCred_frame_all (a : cred_answers) (d : nsd_mbedtls_t) :
  cred_frame d (snd (fst (mbedtlsInitCred a d))).
Proof.
  unfold mbedtlsInitCred. cbv zeta.
  match goal with
  | |- context [exec ?body d] =>
      pose proof (step_exec (fun _ => True) (cred_frame d) (fun _ => True)
                    body d) as H
  end.
  destruct H as (_ & HJ & _).
  - step_tac ltac:(first [ exact I | intros; exact I
                         | let d' := fresh "d" in let H := fresh "H" in
                           intros d' H; unfold cred_frame in *; cbn;
                           tauto ]).
  - unfold cred_frame. tauto.
  - revert HJ.
    match goal with
    | |- context [exec ?body d] => destruct (exec body d) as [[iRet d'] tr]
    end.
    cbn [fst snd]. auto.
Qed.

Lemma mbedtlsInitSession_prelude (a : session_answers)
  (d : nsd_mbedtls_t) :
  Forall prelude_call (snd (mbedtlsInitSession a d)).
Proof.
  unfold mbedtlsInitSession.
  match goal with
  | |- context [exec ?body d] =>
      pose proof (step_exec prelude_call (fun _ => True) (fun _ => True)
                    body d) as H
  end.
  destruct H as (Htr & _); [| exact I |].
  - step_tac ltac:(first [ exact I | intros; exact I
                         | intros; cbn [fst snd]; split; [constructor | auto] ]).
  - revert Htr.
    match goal with
    | |- context [exec ?body d] => destruct (exec body d) as [[iRet d'] tr]
    end.
    cbn [fst snd]. intros Htr. apply Forall_app. split; [exact Htr |].
    destruct (negb (iRet =? RS_RET_OK)); repeat constructor.
Qed.

Lemma mbedtlsInitCred_prelude (a : cred_answers) (d : nsd_mbedtls_t) :
  Forall prelude_call (snd (mbedtlsInitCred a d)).
Proof.
  unfold mbedtlsInitCred. cbv zeta.
  match goal with
  | |- context [exec ?body d] =>
      pose proof (step_exec prelude_call (fun _ => True) (fun _ => True)
                    body d) as H
  end.
  destruct H as (Htr & _); [| exact I |].
  - step_tac ltac:(first [ exact I | intros; exact I ]).
  - revert Htr.
    match goal with
    | |- context [exec ?body d] => destruct (exec body d) as [[iRet d'] tr]
    end.
    cbn [fst snd]. intros Htr. apply Forall_app. split; [exact Htr |].
    destruct (negb (iRet =? 0)); repeat constructor.
Qed.

Lemma connect_policy_other (pThis : nsd_mbedtls_t) (host : string)
  (tr : trace) :
  Forall prelude_call tr -> Forall (connect_policy pThis host) tr.
Proof.
  apply Forall_impl. intros c; destruct c; cbn; solve [auto | contradiction].
Qed.

Lemma accept_policy_other (pThis : nsd_mbedtls_t) (tr : trace) :
  Forall prelude_call tr -> Forall (accept_policy pThis) tr.
Proof.
  apply Forall_impl. intros c; destruct c; cbn; solve [auto | contradiction].
Qed.

Lemma cred_frame_policy (pThis d d' : nsd_mbedtls_t) :
  same_policy pThis d -> cred_frame d d' -> same_policy pThis d'.
Proof.
  unfold same_policy, cred_frame. intuition congruence.
Qed.

Ltac connect_policy_side :=
  first [ exact I
        | intros; exact I
        | let d := fresh "d" in let H := fresh "H" in
          intros d H; unfold same_policy in *; cbn; exact H
        | (* the authentication mode *)
          match goal with
          | Ha : same_policy _ _ |- connect_policy _ _
                                      (mbedtls_ssl_conf_authmode _) =>
              apply Ha
          end
        | (* the host name *)
          match goal with
          | Ha : same_policy ?p ?a, Eb : _ = _ |- connect_policy _ _
                                      (mbedtls_ssl_set_hostname _) =>
              let H1 := fresh in let H2 := fresh in let H3 := fresh in
              destruct Ha as (H1 & H2 & H3);
              cbn [connect_policy]; unfold connect_hostname;
              rewrite <- H2, <- H3, Eb; reflexivity
          end
        | (* session and credentials *)
          let d := fresh "d" in let H := fresh "H" in
          intros d H; split;
          [ apply connect_policy_other;
            first [ apply mbedtlsInitSession_prelude
                  | apply mbedtlsInitCred_prelude ]
          | split;
            [ first [ rewrite mbedtlsInitSession_driver; exact H
                    | exact (cred_frame_policy _ _ _ H
                               (mbedtlsInitCred_frame_all _ d)) ]
            | intros _; exact I ] ] ].

Lemma Connect_policy_calls (a : connect_answers) (pThis : nsd_mbedtls_t)
  (host : string) :
  Forall (connect_policy pThis host) (snd (Connect a pThis host)).
Proof.
  unfold Connect. cbv zeta.
  apply (step_exec (connect_policy pThis host) (same_policy pThis)
           (fun _ => True)).
  - step_get_tac connect_policy_side.
  - unfold same_policy. auto.
Qed.

End policy.

Lemma prelude_no_handshake (tr : trace) :
  Forall prelude_call tr -> ~ In mbedtls_ssl_handshake tr.
Proof.
  intros H Hin. rewrite Forall_forall in H. exact (H _ Hin).
Qed.

Lemma told_before_handshake_prelude (m : Z) (n : option string)
  (tr : trace) :
  Forall prelude_call tr -> told_before_handshake m n tr.
Proof.
  intros H Hin. exfalso. exact (prelude_no_handshake tr H Hin).
Qed.

(** The value that [get] hands on is the state. *)
Lemma triple_bind_get {S B} (P : S -> trace -> Prop) (k : S -> M S B) Q E :
  (forall a, triple (fun s tr => P s tr /\ a = s) (k a) Q E) ->
  triple P (bind get k) Q E.
Proof.
  intros Hk s tr H. unfold bind, get. cbn [fst snd].
  exact (Hk s s tr (conj H eq_refl)).
Qed.

(** Split a list of calls that is given in full at its handshake. *)
Ltac before_handshake l :=
  lazymatch l with
  | mbedtls_ssl_handshake :: _ => constr:(@nil call)
  | ?c :: ?t => let r := before_handshake t in constr:(c :: r)
  end.

Ltac after_handshake l :=
  lazymatch l with
  | mbedtls_ssl_handshake :: ?t => constr:(t)
  | _ :: ?t => after_handshake t
  end.

(** Membership of a call in a list given in full. *)
Ltac in_list :=
  cbn [In]; repeat (first [left; reflexivity | right]).

Ltac not_in_list H :=
  cbn [In] in H;
  repeat (destruct H as [H | H]; [discriminate H |]); exact H.

Section connect_order.
Context {codes : Codes}.

Ltac prelude_side :=
  first [ exact I
        | intros; exact I
        | let d := fresh "d" in let H := fresh "H" in
          intros d H; exact H
        | let d := fresh "d" in let H := fresh "H" in
          intros d H; split;
          [ first [ apply mbedtlsInitSession_prelude
                  | apply mbedtlsInitCred_prelude ]
          | split;
            [ first [ rewrite mbedtlsInitSession_driver; exact H
                    | exact (cred_frame_policy _ _ _ H
                               (mbedtlsInitCred_frame_all _ d)) ]
            | intros _; exact I ] ] ].

Lemma Connect_told_before_handshake (a : connect_answers)
  (pThis : nsd_mbedtls_t) (host : string) :
  told_before_handshake (authMode pThis) (connect_hostname pThis host)
    (snd (Connect a pThis host)).
Proof.
  unfold Connect. cbv zeta.
  apply (triple_exec (Inv prelude_call (same_policy pThis))
           _ (fun _ _ tr =>
                told_before_handshake (authMode pThis)
                  (connect_hostname pThis host) tr));
    [| split; [constructor | unfold same_policy; auto]].
  assert (Hexit : forall iRet s tr,
             Exit prelude_call (same_policy pThis) (fun _ => True) iRet s tr ->
             told_before_handshake (authMode pThis)
               (connect_hostname pThis host) tr).
  { intros iRet s tr [_ [Htr _]].
    apply told_before_handshake_prelude, Htr. }
  do 5 (apply (triple_after_step prelude_call (same_policy pThis)
                 (fun _ => True));
        [ solve [step_tac prelude_side] | exact Hexit | intros ? ]).
  apply triple_bind_get. intros d s tr [[Htr (H1 & H2 & H3)] ->].
  pose proof (prelude_no_handshake tr Htr) as Hno.
  unfold connect_hostname. rewrite <- H1, <- H2, <- H3.
  cbv [bind emit when CHKiRet modify ret ABORT_FINALIZE fst snd].
  repeat match goal with
         | |- context [if ?b then _ else _] => destruct b
         end;
    cbv [bind emit when CHKiRet modify ret ABORT_FINALIZE fst snd];
    rewrite <- ?app_assoc; cbn [app];
    intros Hin; apply in_app_or in Hin;
    (destruct Hin as [Hin | Hin]; [contradiction |]);
    first [ exfalso; not_in_list Hin
          | match goal with
            | |- exists tr1 tr2, ?t ++ ?l = _ /\ _ =>
                let pre := before_handshake l in
                let post := after_handshake l in
                exists (t ++ pre), post;
                split; [rewrite <- app_assoc; reflexivity |];
                split; [apply in_or_app; right; in_list |];
                split; [apply in_or_app; right; in_list |];
                split;
                [ let H := fresh "H" in
                  intros H; apply in_app_or in H;
                  destruct H as [H | H]; [contradiction | not_in_list H]
                | let H := fresh "H" in intros H; not_in_list H ]
            end ].
Qed.

End connect_order.

(** ** Bodies run from a known state *)

Section known_state.
Context {codes : Codes} {S : Type}.
Variable ok : call -> Prop.
Hypothesis ok_answered : forall iRet, ok (answered iRet).
Hypothesis ok_allocated : forall null, ok (allocated null).

Lemma Forall_snoc (tr : trace) (c : call) :
  Forall ok tr -> ok c -> Forall ok (tr ++ [c]).
Proof.
  intros H Hc. apply Forall_app. split; [exact H |].
  constructor; [exact Hc | constructor].
Qed.

Lemma known_get_bind {B} (s0 : S) (k : S -> M S B) Q E :
  triple (known ok s0) (k s0) Q E ->
  triple (known ok s0) (bind get k) Q E.
Proof.
  intros Hk s tr [-> Htr]. unfold bind, get. cbn [fst snd].
  apply (Hk s0 tr). split; [reflexivity | exact Htr].
Qed.

Lemma known_modify_bind {B} (s0 : S) (f : S -> S) (k : unit -> M S B) Q E :
  triple (known ok (f s0)) (k tt) Q E ->
  triple (known ok s0) (bind (modify f) k) Q E.
Proof.
  intros Hk s tr [-> Htr]. unfold bind, modify. cbn [fst snd].
  apply (Hk (f s0) tr). split; [reflexivity | exact Htr].
Qed.

Lemma known_CHKiRet_bind {B} (s0 : S) (c : call) (rc : Z)
  (k : unit -> M S B) Q (E : Z -> S -> trace -> Prop) :
  ok c ->
  (forall iRet s tr, failed ok iRet s tr -> E iRet s tr) ->
  triple (known ok s0) (k tt) Q E ->
  triple (known ok s0) (bind (CHKiRet c rc) k) Q E.
Proof.
  intros Hc HE Hk s tr [-> Htr].
  cbv [bind CHKiRet emit ret ABORT_FINALIZE fst snd].
  assert (Htr' : Forall ok ((tr ++ [c]) ++ [answered rc]))
    by (apply Forall_snoc; [apply Forall_snoc |]; auto).
  destruct (Z.eqb_spec rc RS_RET_OK) as [Erc | Erc].
  - apply (Hk s0 _). split; [reflexivity | exact Htr'].
  - apply HE. split; assumption.
Qed.

Lemma known_skip_bind {B} (s0 : S) (m : M S unit) (k : unit -> M S B) Q E :
  triple (known ok s0) (k tt) Q E ->
  triple (known ok s0) (bind (when false m) k) Q E.
Proof.
  intros Hk s tr H. unfold bind, when, ret. apply (Hk s tr H).
Qed.

(** A string that is copied if there is one. *)
Lemma known_copy_bind {B} (s0 : S) (x : option string) (null : bool)
  (g : S -> S) (k : unit -> M S B) Q (E : Z -> S -> trace -> Prop) :
  RS_RET_OUT_OF_MEMORY <> RS_RET_OK ->
  (forall iRet s tr, failed ok iRet s tr -> E iRet s tr) ->
  triple (known ok ((if is_null x then fun s => s else g) s0)) (k tt) Q E ->
  triple (known ok s0)
    (bind (when (negb (is_null x)) (CHKmalloc null ;; modify g)) k) Q E.
Proof.
  intros Hne HE Hk s tr [-> Htr]. destruct x as [x |]; cbn [is_null negb] in *.
  - cbv [bind when CHKmalloc emit modify ret ABORT_FINALIZE fst snd].
    assert (Htr' : Forall ok (tr ++ [allocated null]))
      by (apply Forall_snoc; auto).
    destruct null.
    + apply HE. split; assumption.
    + apply (Hk (g s0) _). split; [reflexivity | exact Htr'].
  - unfold bind, when, ret. apply (Hk s0 tr). split; [reflexivity | exact Htr].
Qed.

End known_state.

Section accept_authentication.
Context {codes : Codes} (Hok : CodesOk codes).

Lemma fn_on_pNew_state (f : nsd_mbedtls_t -> Z * nsd_mbedtls_t * trace)
  (l : accept_locals) :
  pNew (snd (fst (fn_on_pNew f l))) = snd (fst (f (pNew l)))
  /\ fst (fst (fn_on_pNew f l)) = fst (fst (f (pNew l))).
Proof.
  unfold fn_on_pNew. destruct (f (pNew l)) as [[iRet d] tr].
  split; reflexivity.
Qed.

Lemma cred_frame_accepted (pThis d d' : nsd_mbedtls_t) :
  accepted pThis d -> cred_frame d d' -> accepted pThis d'.
Proof.
  unfold accepted, inherits, same_policy, cred_frame, flag.
  intuition congruence.
Qed.

Lemma accept_body_post_failed (pThis : nsd_mbedtls_t) (iRet : Z)
  (l : accept_locals) (tr : trace) :
  failed prelude_call iRet l tr -> accept_body_post pThis iRet l tr.
Proof.
  intros [Hne Htr]. split; [apply accept_policy_other, Htr |].
  split; [apply told_before_handshake_prelude, Htr |].
  intros E. contradiction.
Qed.

Ltac accept_prelude_side :=
  first [ exact I
        | intros; exact I
        | rs_ne Hok
        | let l := fresh "l" in let H := fresh "H" in
          intros l H; exact H
        | let l := fresh "l" in let H := fresh "H" in
          intros l H; cbv beta in *;
          rewrite fn_on_pNew_trace;
          match goal with
          | |- context [fn_on_pNew ?f l] =>
              destruct (fn_on_pNew_state f l) as [-> ->]
          end;
          split;
          [ first [ apply mbedtlsInitSession_prelude
                  | apply mbedtlsInitCred_prelude ]
          | split;
            [ first [ rewrite mbedtlsInitSession_driver; exact H
                    | exact (cred_frame_accepted _ _ _ H
                               (mbedtlsInitCred_frame_all _ (pNew l))) ]
            | let Hne := fresh in intros Hne; exact Hne ] ] ].

Lemma AcceptConnReq_body_authentication (a : accept_answers)
  (pThis : nsd_mbedtls_t) (p0 : option nsd_ptcp_t) :
  iMode pThis = 1 ->
  accept_body_post pThis
    (fst (fst (exec (AcceptConnReq_body a pThis)
                 {| pNew := set_pTcp p0 calloc_nsd_mbedtls;
                    ppNew := None |})))
    (snd (fst (exec (AcceptConnReq_body a pThis)
                 {| pNew := set_pTcp p0 calloc_nsd_mbedtls;
                    ppNew := None |})))
    (snd (exec (AcceptConnReq_body a pThis)
            {| pNew := set_pTcp p0 calloc_nsd_mbedtls; ppNew := None |})).
Proof.
  intros Hmode.
  assert (Hoom : RS_RET_OUT_OF_MEMORY <> RS_RET_OK) by rs_ne Hok.
  pose proof (accept_body_post_failed pThis) as Hfail.
  set (l0 := {| pNew := set_pTcp p0 calloc_nsd_mbedtls; ppNew := None |}).
  apply (triple_exec (known prelude_call l0) _ (accept_body_post pThis));
    [| split; [reflexivity | constructor]].
  unfold AcceptConnReq_body. rewrite Hmode. change (1 =? 0) with false.
  cbv zeta.
  repeat first
    [ apply known_get_bind; cbv beta
    | apply known_modify_bind
    | apply known_skip_bind
    | apply known_CHKiRet_bind;
      [intros; exact I | exact I | exact Hfail |]
    | apply known_copy_bind;
      [intros; exact I | exact Hoom | exact Hfail |] ].
  (* from here on the new driver has what it takes from the listener *)
  assert (Hexit : forall iRet s tr,
             Exit prelude_call (fun l => accepted pThis (pNew l))
               (fun iRet => iRet <> RS_RET_OK) iRet s tr ->
             accept_body_post pThis iRet s tr).
  { intros iRet s tr [Hx [Htr _]]. apply Hfail. split; assumption. }
  match goal with
  | |- triple (known _ _) ?m ?Q ?E =>
      apply (triple_conseq _
               (Inv prelude_call (fun l => accepted pThis (pNew l)))
               m Q Q E E);
      [| intros s tr [-> Htr]; split; [exact Htr |] | auto | auto]
  end.
  2: { unfold accepted, inherits, same_policy, flag, l0. rewrite Hmode.
       destruct (pszCRLFile pThis), (pszCAFile pThis), (pszKeyFile pThis),
         (pszCertFile pThis), (pPermPeer pThis); cbn; intuition auto. }
  do 3 (apply (triple_after_step prelude_call
                 (fun l => accepted pThis (pNew l))
                 (fun iRet => iRet <> RS_RET_OK));
        [ solve [step_tac accept_prelude_side] | exact Hexit | intros ? ]).
  apply triple_bind_get. intros l s tr [[Htr HJ] ->].
  pose proof (prelude_no_handshake tr Htr) as Hno.
  pose proof (accept_policy_other pThis tr Htr) as Hpol.
  assert (Hterr : RS_RET_TLS_HANDSHAKE_ERR <> RS_RET_OK) by rs_ne Hok.
  pose proof HJ as (((H1 & H2 & H3) & _) & _).
  unfold accept_body_post, accept_hostname. rewrite H1, H2, H3.
  destruct (bChkName pThis =? 0) eqn:Ec,
    (pPermPeer pThis) as [peer |] eqn:Ep;
    cbn [negb andb is_null];
    cbv [bind emit when CHKiRet modify ret ABORT_FINALIZE fst snd];
    repeat match goal with
           | |- context [?x =? RS_RET_OK] =>
               destruct (Z.eqb_spec x RS_RET_OK)
           | |- context [if ?b then _ else _] => destruct b
           end;
    cbv [bind emit when CHKiRet modify ret ABORT_FINALIZE fst snd];
    rewrite <- ?app_assoc; cbn [app];
    (split;
     [ apply Forall_app; split;
       [ exact Hpol
       | repeat (apply Forall_cons;
                 [ first [ exact I | exact eq_refl
                         | cbn [accept_policy]; unfold accept_hostname;
                           rewrite Ec, ?Ep; reflexivity ] |]);
         apply Forall_nil ] |]);
    (split;
     [ intros Hin; apply in_app_or in Hin;
       (destruct Hin as [Hin | Hin]; [contradiction |]);
       first [ exfalso; not_in_list Hin
             | match goal with
               | |- exists tr1 tr2, ?t ++ ?l = _ /\ _ =>
                   let pre := before_handshake l in
                   let post := after_handshake l in
                   exists (t ++ pre), post;
                   split; [rewrite <- app_assoc; reflexivity |];
                   split; [apply in_or_app; right; in_list |];
                   split; [apply in_or_app; right; in_list |];
                   split;
                   [ let H := fresh "H" in
                     intros H; apply in_app_or in H;
                     destruct H as [H | H]; [contradiction | not_in_list H]
                   | let H := fresh "H" in intros H; not_in_list H ]
               end ] |]);
    intros E; try contradiction;
    (split; [| reflexivity]);
    revert HJ; unfold accepted, inherits, same_policy, flag; cbn; tauto.
Qed.

End accept_authentication.

Lemma told_before_handshake_frame (m : Z) (n : option string)
  (pre tr post : trace) :
  Forall prelude_call pre -> Forall prelude_call post ->
  told_before_handshake m n tr ->
  told_before_handshake m n (pre ++ tr ++ post).
Proof.
  intros Hpre Hpost H Hin.
  pose proof (prelude_no_handshake pre Hpre) as Npre.
  pose proof (prelude_no_handshake post Hpost) as Npost.
  rewrite !in_app_iff in Hin.
  destruct Hin as [Hin | [Hin | Hin]]; try contradiction.
  destruct (H Hin) as (tr1 & tr2 & -> & Hm & Hn & N1 & N2).
  exists (pre ++ tr1), (tr2 ++ post).
  split; [rewrite <- !app_assoc; reflexivity |].
  split; [apply in_or_app; right; exact Hm |].
  split; [apply in_or_app; right; exact Hn |].
  split; rewrite in_app_iff; tauto.
Qed.

Lemma nsd_mbedtlsDestruct_prelude {codes : Codes} (fuel : nat)
  (close_notify : nat -> Z) (pThis d : nsd_mbedtls_t) (tr : trace) :
  nsd_mbedtlsDestruct fuel close_notify pThis = Some (d, tr) ->
  Forall prelude_call tr.
Proof.
  unfold nsd_mbedtlsDestruct, nsd_mbedtlsDestruct_body, mbedtlsEndSess.
  match goal with
  | |- match match ?x with Some _ => _ | None => None end
       with Some _ => _ | None => None end = _ -> _ =>
      destruct x as [[d0 tr0] |] eqn:E; [| discriminate]
  end.
  assert (Hn : exists n, tr0 = repeat mbedtls_ssl_close_notify n).
  { destruct (iMode pThis =? 1);
      [destruct (negb (bHaveSess pThis =? 0));
       [destruct (mbedtlsEndSess_loop fuel close_notify 0) as [n |];
        [| discriminate] |] |];
      injection E as _ E; subst tr0;
      first [exists n; reflexivity | exists 0%nat; reflexivity]. }
  destruct Hn as [n ->].
  assert (Hrep : Forall prelude_call (repeat mbedtls_ssl_close_notify n)).
  { apply Forall_forall. intros c Hc. apply repeat_spec in Hc. subst c.
    exact I. }
  destruct (pTcp d0); intros H; injection H as _ H; subst tr;
    repeat (apply Forall_app; split); try exact Hrep;
    repeat (apply Forall_cons; [exact I |]); apply Forall_nil.
Qed.

(** ** Authentication *)

(** X15.  Whatever the collaborators answer, when [Connect] tells the
    library how to authenticate the server it passes on the settings of the
    driver: every [mbedtls_ssl_conf_authmode] carries [authMode], and every
    [mbedtls_ssl_set_hostname] carries the permitted peer, or the host
    connected to when there is none, if the driver checks names, and NULL if
    it does not.  No handshake is started before both have been told. *)
Theorem Connect_authentication {codes : Codes} (a : connect_answers)
  (pThis : nsd_mbedtls_t) (host : string) :
  Forall (connect_policy pThis host) (snd (Connect a pThis host))
  /\ told_before_handshake (authMode pThis) (connect_hostname pThis host)
       (snd (Connect a pThis host)).
Proof.
  split; [apply Connect_policy_calls | apply Connect_told_before_handshake].
Qed.

(** X16.  On a listener in TLS mode, whatever the collaborators answer,
    [AcceptConnReq] sets the new session up with the settings of the
    listener: every [mbedtls_ssl_conf_authmode] of the trace carries the
    [authMode] of the listener, every [mbedtls_ssl_set_hostname] carries its
    permitted peer if the listener checks names and NULL otherwise, and no
    handshake is started before both have been told. *)
Theorem AcceptConnReq_authentication {codes : Codes} (Hok : CodesOk codes)
  (fuel : nat) (close_notify : nat -> Z) (a : accept_answers)
  (pThis : nsd_mbedtls_t) (iRet : Z) (out : option nsd_mbedtls_t)
  (tr : trace) :
  iMode pThis = 1 ->
  AcceptConnReq fuel close_notify a pThis = Some (iRet, out, tr) ->
  Forall (accept_policy pThis) tr
  /\ told_before_handshake (authMode pThis) (accept_hostname pThis) tr.
Proof.
  intros Hmode. unfold AcceptConnReq, nsd_mbedtlsConstruct.
  destruct (calloc_null a).
  - intros H. injection H as _ _ <-.
    split; [repeat constructor |].
    apply told_before_handshake_prelude. repeat constructor.
  - cbn [nsd_mbedtlsInitialize fst snd]. rewrite Z.eqb_refl.
    pose proof (AcceptConnReq_body_authentication Hok a pThis
                  (snd (ret_ptcp_Construct a)) Hmode) as Hb.
    revert Hb.
    match goal with
    | |- context [exec ?body ?l0] =>
        destruct (exec body l0) as [[iRet' l] trb]
    end.
    cbn [fst snd]. intros (Hpol & Htold & _).
    match goal with
    | |- context [Some (_, _, ?p ++ trb)] =>
        assert (Hpre : Forall prelude_call p) by (repeat constructor);
        generalize dependent p
    end.
    intros pre Hpre.
    destruct (negb (iRet' =? RS_RET_OK)).
    + destruct (nsd_mbedtlsDestruct fuel close_notify (pNew l))
        as [[d' trd] |] eqn:Ed; [| discriminate].
      pose proof (nsd_mbedtlsDestruct_prelude _ _ _ _ _ Ed) as Hd.
      intros H. injection H as _ _ <-. split.
      * apply Forall_app. split;
          [apply accept_policy_other, Hpre |].
        apply Forall_app. split;
          [exact Hpol | apply accept_policy_other, Hd].
      * apply told_before_handshake_frame; assumption.
    + intros H. injection H as _ _ <-. split.
      * apply Forall_app. split;
          [apply accept_policy_other, Hpre | exact Hpol].
      * rewrite <- (app_nil_r trb).
        apply told_before_handshake_frame;
          [exact Hpre | constructor | exact Htold].
Qed.

Lemma AcceptConnReq_authentication_witness :
  CodesOk released_codes
  /\ iMode tls_configured = 1
  /\ match @AcceptConnReq released_codes 0 close_at_once (accept_good 0)
             tls_configured
     with
     | Some (iRet, out, tr) =>
         Forall (accept_policy tls_configured) tr
         /\ told_before_handshake (authMode tls_configured)
              (accept_hostname tls_configured) tr
     | None => False
     end.
Proof.
  split; [exact released_codes_ok |]. split; [reflexivity |].
  destruct (@AcceptConnReq released_codes 0 close_at_once (accept_good 0)
              tls_configured) as [[[iRet out] tr] |] eqn:E.
  - exact (@AcceptConnReq_authentication released_codes released_codes_ok
             0%nat close_at_once (accept_good 0) tls_configured iRet out tr
             eq_refl E).
  - vm_compute in E. discriminate E.
Defined.

(** The driver that [AcceptConnReq] hands out in TLS mode. *)
Lemma AcceptConnReq_handed_out {codes : Codes} (Hok : CodesOk codes)
  (fuel : nat) (close_notify : nat -> Z) (a : accept_answers)
  (pThis d : nsd_mbedtls_t) (iRet : Z) (tr : trace) :
  iMode pThis = 1 ->
  AcceptConnReq fuel close_notify a pThis = Some (iRet, Some d, tr) ->
  iRet = RS_RET_OK /\ accepted pThis d /\ bHaveSess d = 1.
Proof.
  intros Hmode Hrun.
  destruct (AcceptConnReq_spec Hok fuel close_notify a pThis Hmode)
    as (iRet0 & out0 & tr0 & Hrun0 & Hgood & Hbad).
  rewrite Hrun in Hrun0. injection Hrun0 as <- <- <-.
  destruct (Z.eq_dec iRet RS_RET_OK) as [E | E];
    [| destruct (Hbad E) as [Hnone _]; discriminate Hnone].
  destruct (Hgood E) as ((d1 & Hd1 & Hsess) & _).
  injection Hd1 as <-.
  split; [exact E |].
  revert Hrun. unfold AcceptConnReq, nsd_mbedtlsConstruct.
  destruct (calloc_null a); [discriminate |].
  cbn [nsd_mbedtlsInitialize fst snd]. rewrite Z.eqb_refl.
  pose proof (AcceptConnReq_body_authentication Hok a pThis
                (snd (ret_ptcp_Construct a)) Hmode) as Hb.
  revert Hb.
  match goal with
  | |- context [exec ?body ?l0] =>
      destruct (exec body l0) as [[iRet' l] trb]
  end.
  cbn [fst snd]. intros (_ & _ & Hacc).
  destruct (Z.eqb_spec iRet' RS_RET_OK) as [E' | E']; cbn [negb].
  - intros H. injection H as _ Hout _.
    destruct (Hacc E') as [Hin Hpp].
    rewrite Hpp in Hout. injection Hout as <-.
    split; [exact Hin | exact Hsess].
  - destruct (nsd_mbedtlsDestruct fuel close_notify (pNew l))
      as [[d' trd] |]; [| discriminate].
    intros H. injection H as Hret _ _. congruence.
Qed.

(** X17.  The driver that [AcceptConnReq] hands out on a listener in TLS
    mode has taken over the authentication mode, the name check, the
    permitted peer, the verification depth, the four credential paths and
    the mode of the listener; its abort flag is unset and it has a
    session. *)
Theorem AcceptConnReq_inherits {codes : Codes} (Hok : CodesOk codes)
  (fuel : nat) (close_notify : nat -> Z) (a : accept_answers)
  (pThis d : nsd_mbedtls_t) (iRet : Z) (tr : trace) :
  iMode pThis = 1 ->
  AcceptConnReq fuel close_notify a pThis = Some (iRet, Some d, tr) ->
  iRet = RS_RET_OK /\ inherits pThis d /\ bAbortConn d = 0
  /\ bHaveSess d = 1.
Proof.
  intros Hmode Hrun.
  destruct (AcceptConnReq_handed_out Hok _ _ _ _ _ _ _ Hmode Hrun)
    as (E & (Hin & Hab & _) & Hsess).
  auto.
Qed.
Lemma AcceptConnReq_inherits_witness :
  CodesOk released_codes
  /\ iMode tls_configured = 1
  /\ match @AcceptConnReq released_codes 0 close_at_once (accept_good 0)
             tls_configured
     with
     | Some (iRet, Some d, tr) =>
         iRet = 0 /\ inherits tls_configured d /\ bAbortConn d = 0
         /\ bHaveSess d = 1
     | _ => False
     end.
Proof.
  split; [exact released_codes_ok |]. split; [reflexivity |].
  destruct (@AcceptConnReq released_codes 0 close_at_once (accept_good 0)
              tls_configured) as [[[iRet [d |]] tr] |] eqn:E.
  - exact (@AcceptConnReq_inherits released_codes released_codes_ok
             0%nat close_at_once (accept_good 0) tls_configured d iRet tr
             eq_refl E).
  - vm_compute in E. discriminate E.
  - vm_compute in E. discriminate E.
Defined.

(** ** What holds of every driver *)

Section reachable_drivers.
Context {codes : Codes} {net : NetCodes} (Hok : CodesOk codes).

Ltac flag_raised :=
  match goal with
  | H : ?x = ?y \/ ?x = 1 |- flag ?x =>
      destruct H as [H | H]; rewrite H; [assumption | right; reflexivity]
  end.

Lemma cred_frame_inv (d d' : nsd_mbedtls_t) :
  driver_inv d -> cred_frame d d' -> driver_inv d'.
Proof.
  unfold driver_inv, cred_frame.
  intros (A1 & A2 & A3 & A4 & A5 & A6 & A7 & A8 & A9)
    (_ & _ & _ & _ & _ & C1 & C2 & C3 & C4 & C5 & _ & _ & _
     & F1 & F2 & F3 & F4).
  rewrite C1, C2, C3, C4, C5.
  repeat split; try assumption; flag_raised.
Qed.

Lemma driver_inv_session (d : nsd_mbedtls_t) :
  driver_inv d -> driver_inv (set_bHaveSess 1 d).
Proof.
  unfold driver_inv, flag. cbn. tauto.
Qed.

Lemma Connect_keeps_inv (a : connect_answers) (pThis : nsd_mbedtls_t)
  (host : string) :
  driver_inv pThis -> driver_inv (snd (fst (Connect a pThis host))).
Proof.
  intros Hinv. unfold Connect. cbv zeta.
  apply (step_exec (fun _ => True) driver_inv (fun _ => True));
    [| exact Hinv].
  step_tac ltac:(first
    [ exact I | intros; exact I
    | exact driver_inv_session
    | let d := fresh "d" in let H := fresh "H" in
      intros d H; split; [apply Forall_forall; intros; exact I |];
      split; [| intros _; exact I];
      first [ rewrite mbedtlsInitSession_driver; exact H
            | exact (cred_frame_inv _ _ H
                       (mbedtlsInitCred_frame_all (connect_cred a) d)) ]
    | let d := fresh "d" in let H := fresh "H" in
      intros d H; exact H ]).
Qed.

(** In plain TCP mode [AcceptConnReq] hands out the driver as the
    constructor left it, with the transport of the new connection. *)
Lemma AcceptConnReq_plain_handed_out (fuel : nat) (close_notify : nat -> Z)
  (a : accept_answers) (pThis d : nsd_mbedtls_t) (iRet : Z) (tr : trace) :
  iMode pThis = 0 ->
  AcceptConnReq fuel close_notify a pThis = Some (iRet, Some d, tr) ->
  iRet = RS_RET_OK
  /\ d = set_pTcp (snd (ret_ptcp_AcceptConnReq a)) calloc_nsd_mbedtls.
Proof.
  intros Hmode. unfold AcceptConnReq, nsd_mbedtlsConstruct.
  destruct (calloc_null a); [discriminate |].
  cbn [nsd_mbedtlsInitialize fst snd]. rewrite Z.eqb_refl.
  unfold AcceptConnReq_body. rewrite Hmode. change (0 =? 0) with true.
  destruct (ret_ptcp_AcceptConnReq a) as [rcA pA].
  cbv [exec bind get emit when CHKiRet modify ret ABORT_FINALIZE FINALIZE
         iRet_of fst snd].
  destruct (Z.eqb_spec (ret_ptcp_Destruct a) RS_RET_OK) as [E1 | E1];
    [destruct (Z.eqb_spec rcA RS_RET_OK) as [E2 | E2] |];
    cbv beta iota.
  - rewrite Z.eqb_refl. cbn [negb].
    intros H. injection H as <- <- _. split; reflexivity.
  - destruct (Z.eqb_spec rcA RS_RET_OK); [contradiction |]. cbn [negb].
    match goal with
    | |- context [nsd_mbedtlsDestruct ?f ?c ?x] =>
        destruct (nsd_mbedtlsDestruct f c x) as [[d' trd] |]
    end; discriminate.
  - destruct (Z.eqb_spec (ret_ptcp_Destruct a) RS_RET_OK);
      [contradiction |]. cbn [negb].
    match goal with
    | |- context [nsd_mbedtlsDestruct ?f ?c ?x] =>
        destruct (nsd_mbedtlsDestruct f c x) as [[d' trd] |]
    end; discriminate.
Qed.

Lemma reachable_driver_inv (d : nsd_mbedtls_t) :
  reachable d -> driver_inv d.
Proof.
  pose proof (verify_distinct _ Hok) as Hv.
  induction 1 as [r | d mode _ IH | d mode _ IH | d mode _ IH
                 | d p null _ IH | d s _ IH | d v _ IH | d v _ IH
                 | d n _ IH | d f null _ IH | d f null _ IH
                 | d f null _ IH | d f null _ IH | d _ IH
                 | d a host _ IH
                 | d fuel close_notify a iRet d' tr _ IH Hrun].
  - unfold driver_inv, flag. cbn. intuition (auto; discriminate).
  - unfold SetMode.
    destruct (Z.eqb_spec mode 0) as [-> | H0];
      [| destruct (Z.eqb_spec mode 1) as [-> | H1]]; cbn [negb andb fst snd];
      try exact IH;
      revert IH; unfold driver_inv, flag; cbn; tauto.
  - unfold SetAuthMode.
    repeat match goal with
           | |- context [if ?b then _ else _] => destruct b
           end;
      cbn [fst snd]; revert IH; unfold driver_inv, flag; cbn;
      intuition (auto; discriminate).
  - unfold SetPermitExpiredCerts.
    destruct (match mode with
              | Some m => negb (strcasecmp m "off" =? 0)
              | None => false
              end); exact IH.
  - unfold SetPermPeers.
    destruct p as [| p rest]; [exact IH |].
    cbv [exec bind emit when CHKmalloc modify ret ABORT_FINALIZE iRet_of
           fst snd].
    repeat match goal with
           | |- context [if ?b then _ else _] => destruct b
           | |- context [match ?l with [] => _ | _ :: _ => _ end] =>
               destruct l
           end; exact IH.
  - unfold SetGnutlsPriorityString. destruct s; exact IH.
  - exact IH.
  - exact IH.
  - exact IH.
  - destruct f, null; exact IH.
  - destruct f, null; exact IH.
  - destruct f, null; exact IH.
  - destruct f, null; exact IH.
  - unfold Abort. destruct (iMode d =? 0); exact IH.
  - exact (Connect_keeps_inv a d host IH).
  - destruct IH as (Hab & [Hm | Hm] & Hrest).
    + destruct (AcceptConnReq_plain_handed_out _ _ _ _ _ _ _ Hm Hrun)
        as [_ ->].
      unfold driver_inv, flag. cbn. intuition (auto; discriminate).
    + destruct (AcceptConnReq_handed_out Hok _ _ _ _ _ _ _ Hm Hrun)
        as (_ & Hacc & Hsess).
      destruct Hacc as (((Ha & Hc & _) & _ & _ & _ & _ & _ & Hi) & Hab'
                        & F1 & F2 & F3 & F4).
      destruct Hrest as (Hc0 & Hreq & _).
      unfold driver_inv. rewrite Hab', Hi, Hc, Ha, Hsess.
      repeat split; try assumption; right; assumption || reflexivity.
Qed.

Lemma Send_loop_calls (ssl_write : nat -> Z) (fuel : nat) :
  forall (i : nat) (e : send_exit) (n : nat),
    Send_loop fuel ssl_write i = Some (e, n) -> (i < n)%nat.
Proof.
  induction fuel as [| fuel IH]; intros i e n; cbn [Send_loop];
    [discriminate |].
  destruct (ssl_write i <=? 0).
  - destruct (negb (ssl_write i =? MBEDTLS_ERR_SSL_WANT_READ)
              && negb (ssl_write i =? MBEDTLS_ERR_SSL_WANT_WRITE)).
    + intros H. injection H as _ <-. lia.
    + intros H. apply IH in H. lia.
  - intros H. injection H as _ <-. lia.
Qed.

End reachable_drivers.

(** X18.  Every driver that the interface can produce (the constructed
    one, the result of any number of setters and [Connect]s on it, and the
    drivers that [AcceptConnReq] hands out) has its abort flag unset, a mode
    that is 0 or 1, the name check only together with
    [MBEDTLS_SSL_VERIFY_REQUIRED], and flags that are 0 or 1.  Nothing sets
    the abort flag, so on such a driver [Rcv] and [Send] never take the path
    that returns without a call to a collaborator. *)
Theorem reachable_invariant {codes : Codes} {net : NetCodes}
  (Hok : CodesOk codes) (d : nsd_mbedtls_t) :
  reachable d ->
  driver_inv d
  /\ (forall (lenBuf : Z) (ret_ptcp_Rcv : Z * Z) (n : Z),
        snd (Rcv d lenBuf ret_ptcp_Rcv n) <> [])
  /\ (forall (fuel : nat) (lenBuf : Z) (ret_ptcp_Send : Z * Z)
             (ssl_write : nat -> Z) (iRet len : Z) (tr : trace),
        Send fuel d lenBuf ret_ptcp_Send ssl_write = Some (iRet, len, tr) ->
        tr <> []).
Proof.
  intros Hr. pose proof (reachable_driver_inv Hok d Hr) as Hinv.
  split; [exact Hinv |]. destruct Hinv as (Hab & _).
  split.
  - intros lenBuf r n. unfold Rcv. rewrite Hab. cbn [Z.eqb negb].
    repeat match goal with
           | |- context [if ?b then _ else _] => destruct b
           end; discriminate.
  - intros fuel lenBuf r w iRet len tr. unfold Send. rewrite Hab.
    cbn [Z.eqb negb]. destruct (iMode d =? 0).
    + intros H. injection H as _ _ <-. discriminate.
    + destruct (Send_loop fuel w 0) as [[e n] |] eqn:E; [| discriminate].
      apply Send_loop_calls in E. destruct n as [| n]; [lia |].
      destruct e; intros H; injection H as _ _ <-; discriminate.
Qed.

Lemma reachable_invariant_witness :
  CodesOk released_codes
  /\ @reachable released_codes released_net_codes
       (@client_connected released_codes)
  /\ bAbortConn (@client_connected released_codes) = 0
  /\ snd (@Rcv released_codes (@client_connected released_codes) 4096 (0, 0)
            17) <> [].
Proof.
  assert (Hr : @reachable released_codes released_net_codes
                 (@client_connected released_codes)).
  { unfold client_connected.
    apply reach_Connect, reach_SetMode, reach_Construct. }
  destruct (@reachable_invariant released_codes released_net_codes
              released_codes_ok _ Hr) as (Hinv & Hrcv & _).
  split; [exact released_codes_ok |]. split; [exact Hr |].
  split; [apply Hinv | apply Hrcv].
Defined.

(** ** A polling round with buffered data *)

Lemma nb_buffered_app (l l' : list polled) :
  nb_buffered (l ++ l') = nb_buffered l + nb_buffered l'.
Proof.
  induction l as [| q l IH]; cbn [app nb_buffered]; lia.
Qed.

Lemma nb_buffered_unbuffered (l : list polled) :
  forallb unbuffered l = true -> nb_buffered l = 0.
Proof.
  induction l as [| q l IH]; cbn [forallb nb_buffered]; [reflexivity |].
  unfold unbuffered at 1. intros H. apply andb_prop in H.
  destruct H as [Hq Hl]. apply negb_true_iff in Hq. rewrite Hq, (IH Hl).
  reflexivity.
Qed.

Section round_buffered.
Context {codes : Codes}.

(** The test of [Add] picks the buffered drivers, as that of [IsReady]
    does. *)
Lemma Add_test_buffered (q : polled) :
  (iMode (drv q) =? 1)
  && (is_NSDSEL_RD (op q) && negb (avail q =? 0)%N)
  = buffered q.
Proof.
  unfold buffered. do 2 f_equal.
  destruct (N.eqb_spec (avail q) 0), (N.ltb_spec 0 (avail q));
    simpl; try reflexivity; lia.
Qed.

Lemma Add_all_trace (l : list polled) : forall pThis : nsdsel_mbedtls_t,
  snd (Add_all pThis l) = map ptcp_Add_call (filter unbuffered l).
Proof.
  induction l as [| q l IH]; intros pThis; cbn [Add_all filter map snd];
    [reflexivity |].
  unfold Add at 1. rewrite Add_test_buffered. unfold unbuffered at 1.
  destruct (buffered q); cbn [negb map].
  - specialize (IH (set_iBufferRcvReady
                      (int_wrap (iBufferRcvReady pThis + 1)) pThis)).
    destruct (Add_all _ l) as [p tr]. cbn [snd app] in *. exact IH.
  - specialize (IH pThis).
    destruct (Add_all _ l) as [p tr]. cbn [snd app] in *.
    rewrite IH. reflexivity.
Qed.

(** At zero, drivers without buffered data are passed on. *)
Lemma IsReady_all_passed_on (l : list polled) :
  forall pThis : nsdsel_mbedtls_t,
    iBufferRcvReady pThis = 0 ->
    forallb unbuffered l = true ->
    IsReady_all pThis l
    = (pThis, map (fun q => snd (ans_IsReady q)) l,
       map ptcp_IsReady_call l).
Proof.
  induction l as [| q l IH]; intros pThis Hz Hl; cbn [IsReady_all map];
    [reflexivity |].
  cbn [forallb] in Hl. apply andb_prop in Hl. destruct Hl as [Hq Hl].
  unfold unbuffered in Hq. apply negb_true_iff in Hq.
  unfold IsReady. fold (buffered q). rewrite Hq, Hz. cbn [Z.eqb negb].
  rewrite (IH pThis Hz Hl). reflexivity.
Qed.

(** While the count covers the buffered drivers still to come, those are
    answered ready and the others not ready, without a call. *)
Lemma IsReady_all_dummy (q : polled) (l2 : list polled) :
  buffered q = true -> forallb unbuffered l2 = true ->
  forall (l1 : list polled) (pThis : nsdsel_mbedtls_t),
    iBufferRcvReady pThis = nb_buffered (l1 ++ [q]) ->
    iBufferRcvReady pThis <= INT_MAX ->
    snd (fst (IsReady_all pThis (l1 ++ q :: l2)))
    = map (fun p => if buffered p then 1 else 0) (l1 ++ [q])
      ++ map (fun p => snd (ans_IsReady p)) l2
    /\ snd (IsReady_all pThis (l1 ++ q :: l2)) = map ptcp_IsReady_call l2.
Proof.
  intros Hq Hl2.
  induction l1 as [| p l1 IH]; intros pThis Hc Hmax.
  - cbn [app nb_buffered] in Hc. rewrite Hq in Hc.
    cbn [app IsReady_all map]. unfold IsReady. fold (buffered q).
    rewrite Hq, Hc. change (int_wrap (1 + 0 - 1)) with 0.
    rewrite (IsReady_all_passed_on l2) by (assumption || reflexivity).
    cbn [fst snd app]. split; reflexivity.
  - cbn [app nb_buffered] in Hc.
    pose proof (nb_buffered_nonneg (l1 ++ [q])) as Hnn.
    assert (Hpos : 1 <= nb_buffered (l1 ++ [q])).
    { rewrite nb_buffered_app. cbn [nb_buffered]. rewrite Hq.
      pose proof (nb_buffered_nonneg l1). lia. }
    change ((p :: l1) ++ q :: l2) with (p :: (l1 ++ q :: l2)).
    change ((p :: l1) ++ [q]) with (p :: (l1 ++ [q])).
    cbn [IsReady_all map]. unfold IsReady. fold (buffered p).
    destruct (buffered p) eqn:Hp.
    + specialize (IH (set_iBufferRcvReady
                        (int_wrap (iBufferRcvReady pThis - 1)) pThis)).
      destruct IH as [IH1 IH2].
      * cbn [iBufferRcvReady set_iBufferRcvReady].
        rewrite int_wrap_id by (unfold INT_MIN, INT_MAX in *; lia). lia.
      * cbn [iBufferRcvReady set_iBufferRcvReady].
        rewrite int_wrap_id by (unfold INT_MIN, INT_MAX in *; lia). lia.
      * destruct (IsReady_all _ (l1 ++ q :: l2)) as [[s bs] tr].
        cbn [fst snd app] in *. rewrite IH1, IH2. split; reflexivity.
    + destruct (Z.eqb_spec (iBufferRcvReady pThis) 0) as [E | E]; [lia |].
      cbn [negb].
      specialize (IH pThis). destruct IH as [IH1 IH2]; [lia | exact Hmax |].
      destruct (IsReady_all pThis (l1 ++ q :: l2)) as [[s bs] tr].
      cbn [fst snd app] in *. rewrite IH1, IH2. split; reflexivity.
Qed.

End round_buffered.

(** X19.  A round that starts from zero and has a driver [q] with buffered
    data, after which only drivers without buffered data follow.  [Add]
    passes exactly the drivers without buffered data on to
    [nsdsel_ptcp.Add], in order; [Select] then answers the number of
    buffered drivers without a call to [nsdsel_ptcp.Select]; and [IsReady],
    asked in the same order, answers ready for the buffered drivers and not
    ready for the others up to [q], without a call, while every driver
    after [q] is passed on to [nsdsel_ptcp.IsReady] and gets its answer. *)
Theorem round_with_buffered_data {codes : Codes} (pThis : nsdsel_mbedtls_t)
  (l1 l2 : list polled) (q : polled) (ret_ptcp_Select : Z * Z) :
  iBufferRcvReady pThis = 0 ->
  nb_buffered (l1 ++ [q]) <= INT_MAX ->
  buffered q = true ->
  forallb unbuffered l2 = true ->
  snd (Add_all pThis (l1 ++ q :: l2))
  = map ptcp_Add_call (filter unbuffered (l1 ++ q :: l2))
  /\ Select (fst (Add_all pThis (l1 ++ q :: l2))) ret_ptcp_Select
     = (RS_RET_OK, nb_buffered (l1 ++ [q]), [])
  /\ snd (fst (IsReady_all (fst (Add_all pThis (l1 ++ q :: l2)))
                 (l1 ++ q :: l2)))
     = map (fun p => if buffered p then 1 else 0) (l1 ++ [q])
       ++ map (fun p => snd (ans_IsReady p)) l2
  /\ snd (IsReady_all (fst (Add_all pThis (l1 ++ q :: l2))) (l1 ++ q :: l2))
     = map ptcp_IsReady_call l2.
Proof.
  intros Hz Hmax Hq Hl2.
  assert (Hnb : nb_buffered (l1 ++ q :: l2) = nb_buffered (l1 ++ [q])).
  { rewrite !nb_buffered_app. cbn [nb_buffered].
    rewrite (nb_buffered_unbuffered l2 Hl2). reflexivity. }
  assert (Hpos : 1 <= nb_buffered (l1 ++ [q])).
  { rewrite nb_buffered_app. cbn [nb_buffered]. rewrite Hq.
    pose proof (nb_buffered_nonneg l1). lia. }
  pose proof (Add_all_count (l1 ++ q :: l2) pThis) as Hadd.
  rewrite Hz, Hnb in Hadd. cbn [Z.add] in Hadd.
  assert (Hcount : iBufferRcvReady (fst (Add_all pThis (l1 ++ q :: l2)))
                   = nb_buffered (l1 ++ [q]))
    by (apply Hadd; [unfold INT_MIN; lia | exact Hmax]).
  split; [apply Add_all_trace |]. split.
  - unfold Select. rewrite Hcount.
    destruct (Z.gtb_spec (nb_buffered (l1 ++ [q])) 0); [reflexivity | lia].
  - apply IsReady_all_dummy; try assumption. rewrite Hcount. exact Hmax.
Qed.

Lemma round_with_buffered_data_witness :
  iBufferRcvReady sel_idle = 0
  /\ nb_buffered (firstn 2 round_three ++ [nth 2 round_three polled_plain])
     <= INT_MAX
  /\ @Select released_codes
       (fst (@Add_all released_codes sel_idle (round_three ++ [polled_plain])))
       (0, 0)
     = (0, 2, [])
  /\ snd (fst (@IsReady_all released_codes
                 (fst (@Add_all released_codes sel_idle
                         (round_three ++ [polled_plain])))
                 (round_three ++ [polled_plain])))
     = [1; 0; 1; 1]
  /\ snd (@IsReady_all released_codes
            (fst (@Add_all released_codes sel_idle
                    (round_three ++ [polled_plain])))
            (round_three ++ [polled_plain]))
     = [nsdsel_ptcp_IsReady (Some 8%nat) NSDSEL_RD].
Proof.
  assert (Hmax : nb_buffered
                   (firstn 2 round_three ++ [nth 2 round_three polled_plain])
                 <= INT_MAX) by (vm_compute; discriminate).
  destruct (@round_with_buffered_data released_codes sel_idle
              (firstn 2 round_three) [polled_plain]
              (nth 2 round_three polled_plain) (0, 0)
              eq_refl Hmax eq_refl eq_refl) as (_ & Hsel & Hans & Htr).
  split; [reflexivity |]. split; [exact Hmax |].
  split; [exact Hsel |]. split; [exact Hans | exact Htr].
Defined.

(** ** The session bootstrap *)

(** X20.  [mbedtlsInitSession] never writes to the driver.  It succeeds
    exactly when [gettimeofday] and [localtime_r] succeed, [asprintf] builds
    the personalisation string and [mbedtls_ctr_drbg_seed] answers 0; the
    generator is seeded exactly when [get_custom_string] has succeeded, so
    never with a string that was not built; and the one error message is
    logged exactly when the status is not [RS_RET_OK]. *)
Theorem mbedtlsInitSession_outcomes {codes : Codes} (Hok : CodesOk codes)
  (a : session_answers) (pThis : nsd_mbedtls_t) :
  snd (fst (mbedtlsInitSession a pThis)) = pThis
  /\ (get_custom_string a = RS_RET_OK
      <-> ret_gettimeofday a = RS_RET_OK /\ localtime_r_null a = false
          /\ ret_asprintf a <> -1)
  /\ (fst (fst (mbedtlsInitSession a pThis)) = RS_RET_OK
      <-> get_custom_string a = RS_RET_OK /\ ret_ctr_drbg_seed a = 0)
  /\ (In mbedtls_ctr_drbg_seed (snd (mbedtlsInitSession a pThis))
      <-> get_custom_string a = RS_RET_OK)
  /\ (In (LogError "mbedtlsInitSession failed to INIT Session")
         (snd (mbedtlsInitSession a pThis))
      <-> fst (fst (mbedtlsInitSession a pThis)) <> RS_RET_OK)
  /\ (get_custom_string a <> RS_RET_OK ->
      fst (fst (mbedtlsInitSession a pThis)) = get_custom_string a)
  /\ (get_custom_string a = RS_RET_OK ->
      fst (fst (mbedtlsInitSession a pThis)) = ret_ctr_drbg_seed a).
Proof.
  pose proof (ok_zero _ Hok) as Hz.
  assert (Hne : RS_RET_NO_ERRCODE <> RS_RET_OK) by rs_ne Hok.
  assert (Hmem : RS_RET_OUT_OF_MEMORY <> RS_RET_OK) by rs_ne Hok.
  assert (Hcust : get_custom_string a = RS_RET_OK
                  <-> ret_gettimeofday a = RS_RET_OK
                      /\ localtime_r_null a = false /\ ret_asprintf a <> -1).
  { unfold get_custom_string.
    destruct (Z.eqb_spec (ret_gettimeofday a) RS_RET_OK) as [E | E];
      cbn [negb]; [| tauto].
    destruct (localtime_r_null a); [split; [tauto | intros (_ & H & _);
                                                   discriminate H] |].
    destruct (Z.eqb_spec (ret_asprintf a) (-1)) as [E' | E']; tauto. }
  split; [apply mbedtlsInitSession_driver |].
  split; [exact Hcust |]. clear Hcust.
  unfold mbedtlsInitSession.
  cbv [exec bind CHKiRet_fn CHKiRet emit ret ABORT_FINALIZE iRet_of fst snd].
  destruct (Z.eqb_spec (get_custom_string a) RS_RET_OK) as [E | E];
    [rewrite E;
     destruct (Z.eqb_spec (ret_ctr_drbg_seed a) RS_RET_OK) as [E' | E'];
     [rewrite Z.eqb_refl
     | destruct (Z.eqb_spec (ret_ctr_drbg_seed a) RS_RET_OK);
       [contradiction |]]
    | destruct (Z.eqb_spec (get_custom_string a) RS_RET_OK);
      [contradiction |]];
    cbn [negb app In];
    repeat match goal with
           | |- _ /\ _ => split
           | |- _ <-> _ => split
           end;
    intros;
    repeat match goal with
           | |- _ /\ _ => split
           | H : _ /\ _ |- _ => destruct H
           | H : _ \/ _ |- _ => destruct H
           | H : False |- _ => destruct H
           end;
    try discriminate; try congruence; try reflexivity;
    first [ left; reflexivity
          | right; left; reflexivity
          | right; right; left; reflexivity
          | right; right; right; left; reflexivity ].
Qed.

Lemma mbedtlsInitSession_outcomes_witness :
  CodesOk released_codes
  /\ fst (fst (@mbedtlsInitSession released_codes
                 {| ret_gettimeofday := 0; localtime_r_null := false;
                    ret_asprintf := -1; ret_ctr_drbg_seed := 0 |}
                 tls_configured)) = -6
  /\ ~ In mbedtls_ctr_drbg_seed
         (snd (@mbedtlsInitSession released_codes
                 {| ret_gettimeofday := 0; localtime_r_null := false;
                    ret_asprintf := -1; ret_ctr_drbg_seed := 0 |}
                 tls_configured)).
Proof.
  destruct (@mbedtlsInitSession_outcomes released_codes released_codes_ok
              {| ret_gettimeofday := 0; localtime_r_null := false;
                 ret_asprintf := -1; ret_ctr_drbg_seed := 0 |}
              tls_configured) as (_ & _ & _ & Hseed & _ & Hfail & _).
  split; [exact released_codes_ok |]. split.
  - apply Hfail. discriminate.
  - intros Hin. apply Hseed in Hin. discriminate Hin.
Defined.

(** ** Plain TCP mode *)

Section plain_mode.
Context {codes : Codes}.

Lemma mbedtlsInitSession_bootstrap (a : session_answers)
  (d : nsd_mbedtls_t) :
  Forall bootstrap_call (snd (mbedtlsInitSession a d)).
Proof.
  unfold mbedtlsInitSession.
  match goal with
  | |- context [exec ?body d] =>
      pose proof (step_exec bootstrap_call (fun _ => True) (fun _ => True)
                    body d) as H
  end.
  destruct H as (Htr & _); [| exact I |].
  - step_tac ltac:(first [ exact I | intros; exact I
                         | intros; cbn [fst snd]; split; [constructor | auto] ]).
  - revert Htr.
    match goal with
    | |- context [exec ?body d] => destruct (exec body d) as [[iRet d'] tr]
    end.
    cbn [fst snd]. intros Htr. apply Forall_app. split; [exact Htr |].
    destruct (negb (iRet =? RS_RET_OK)); repeat constructor.
Qed.

Lemma mbedtlsInitCred_bootstrap (a : cred_answers) (d : nsd_mbedtls_t) :
  Forall bootstrap_call (snd (mbedtlsInitCred a d)).
Proof.
  unfold mbedtlsInitCred. cbv zeta.
  match goal with
  | |- context [exec ?body d] =>
      pose proof (step_exec bootstrap_call (fun _ => True) (fun _ => True)
                    body d) as H
  end.
  destruct H as (Htr & _); [| exact I |].
  - step_tac ltac:(first [ exact I | intros; exact I ]).
  - revert Htr.
    match goal with
    | |- context [exec ?body d] => destruct (exec body d) as [[iRet d'] tr]
    end.
    cbn [fst snd]. intros Htr. apply Forall_app. split; [exact Htr |].
    destruct (negb (iRet =? 0)); repeat constructor.
Qed.

Lemma bootstrap_no_Connect (p : option nsd_ptcp_t) (tr : trace) :
  Forall bootstrap_call tr -> ~ In (nsd_ptcp_Connect p) tr.
Proof.
  intros H Hin. rewrite Forall_forall in H. exact (H _ Hin).
Qed.

(** [Connect] in plain TCP mode, by the outcome of the two bootstrap
    steps. *)
Lemma Connect_plain_run (a : connect_answers) (pThis d2 : nsd_mbedtls_t)
  (host : string) (r1 r2 : Z) (t1 t2 : trace) :
  iMode pThis = 0 ->
  mbedtlsInitSession (connect_session a) pThis = (r1, pThis, t1) ->
  mbedtlsInitCred (connect_cred a) pThis = (r2, d2, t2) ->
  Connect a pThis host
  = if negb (r1 =? RS_RET_OK) then (r1, pThis, t1 ++ [answered r1])
    else if negb (r2 =? RS_RET_OK)
    then (r2, d2, (t1 ++ [answered r1]) ++ t2 ++ [answered r2])
    else (ret_ptcp_Connect a, d2,
          ((t1 ++ [answered r1]) ++ t2 ++ [answered r2])
          ++ [nsd_ptcp_Connect (pTcp pThis);
              answered (ret_ptcp_Connect a)]).
Proof.
  intros Hmode E1 E2. unfold Connect. cbv zeta. rewrite Hmode.
  change (0 =? 0) with true.
  cbv [exec bind CHKiRet_fn CHKiRet when emit FINALIZE ABORT_FINALIZE ret
         iRet_of fst snd].
  rewrite E1. cbv beta iota. cbn [app].
  destruct (Z.eqb_spec r1 RS_RET_OK) as [H1 | H1]; cbn [negb];
    [| reflexivity].
  rewrite E2. cbv beta iota.
  destruct (Z.eqb_spec r2 RS_RET_OK) as [H2 | H2]; cbn [negb];
    [| reflexivity].
  destruct (Z.eqb_spec (ret_ptcp_Connect a) RS_RET_OK) as [H3 | H3];
    rewrite <- ?H3; rewrite <- ?app_assoc; cbn [app]; reflexivity.
Qed.

End plain_mode.

(** X21.  [Connect] on a driver in plain TCP mode initialises the session
    and parses the credentials all the same, before it looks at the mode.
    Its calls are those of the two bootstrap steps and, at most, the
    [nsd_ptcp.Connect]: nothing of a TLS session is set up, no handshake is
    made, and [bHaveSess] stays as it was.  [nsd_ptcp.Connect] is called
    exactly when both bootstrap steps succeed, and then its status is the
    status of [Connect]; a credential file that does not parse makes the
    plain connection fail with the status of [mbedtlsInitCred], without a
    connection attempt. *)
Theorem Connect_plain {codes : Codes} (a : connect_answers)
  (pThis : nsd_mbedtls_t) (host : string) :
  iMode pThis = 0 ->
  Forall (fun c => bootstrap_call c \/ c = nsd_ptcp_Connect (pTcp pThis))
    (snd (Connect a pThis host))
  /\ bHaveSess (snd (fst (Connect a pThis host))) = bHaveSess pThis
  /\ (In (nsd_ptcp_Connect (pTcp pThis)) (snd (Connect a pThis host))
      <-> fst (fst (mbedtlsInitSession (connect_session a) pThis))
          = RS_RET_OK
          /\ fst (fst (mbedtlsInitCred (connect_cred a) pThis)) = RS_RET_OK)
  /\ (fst (fst (mbedtlsInitSession (connect_session a) pThis))
      <> RS_RET_OK ->
      fst (fst (Connect a pThis host))
      = fst (fst (mbedtlsInitSession (connect_session a) pThis)))
  /\ (fst (fst (mbedtlsInitSession (connect_session a) pThis)) = RS_RET_OK ->
      fst (fst (mbedtlsInitCred (connect_cred a) pThis)) <> RS_RET_OK ->
      fst (fst (Connect a pThis host))
      = fst (fst (mbedtlsInitCred (connect_cred a) pThis)))
  /\ (fst (fst (mbedtlsInitSession (connect_session a) pThis)) = RS_RET_OK ->
      fst (fst (mbedtlsInitCred (connect_cred a) pThis)) = RS_RET_OK ->
      fst (fst (Connect a pThis host)) = ret_ptcp_Connect a).
Proof.
  intros Hmode.
  pose proof (mbedtlsInitSession_driver (connect_session a) pThis) as Hd.
  pose proof (mbedtlsInitSession_bootstrap (connect_session a) pThis) as B1.
  pose proof (mbedtlsInitCred_bootstrap (connect_cred a) pThis) as B2.
  pose proof (proj2 (mbedtlsInitCred_frame (connect_cred a) pThis)) as Hs.
  destruct (mbedtlsInitSession (connect_session a) pThis)
    as [[r1 d1] t1] eqn:E1.
  destruct (mbedtlsInitCred (connect_cred a) pThis) as [[r2 d2] t2] eqn:E2.
  cbn [fst snd] in *. subst d1.
  rewrite (Connect_plain_run a pThis d2 host r1 r2 t1 t2 Hmode E1 E2).
  pose proof (bootstrap_no_Connect (pTcp pThis) t1 B1) as N1.
  pose proof (bootstrap_no_Connect (pTcp pThis) t2 B2) as N2.
  assert (L1 : Forall
                 (fun c => bootstrap_call c
                           \/ c = nsd_ptcp_Connect (pTcp pThis)) t1)
    by (revert B1; apply Forall_impl; intros c Hc; left; exact Hc).
  assert (L2 : Forall
                 (fun c => bootstrap_call c
                           \/ c = nsd_ptcp_Connect (pTcp pThis)) t2)
    by (revert B2; apply Forall_impl; intros c Hc; left; exact Hc).
  destruct (Z.eqb_spec r1 RS_RET_OK) as [H1 | H1]; cbn [negb];
    [destruct (Z.eqb_spec r2 RS_RET_OK) as [H2 | H2]; cbn [negb] |];
    cbn [fst snd].
  - split.
    { repeat (apply Forall_app; split); try assumption;
        repeat (apply Forall_cons; [first [left; exact I | right; reflexivity]
                                   |]); apply Forall_nil. }
    split; [exact Hs |]. split.
    { split; [intros _; split; assumption |].
      intros _. apply in_or_app. right. left. reflexivity. }
    split; [intros H; contradiction |].
    split; [intros _ H; contradiction | intros _ _; reflexivity].
  - split.
    { repeat (apply Forall_app; split); try assumption;
        repeat (apply Forall_cons; [left; exact I |]); apply Forall_nil. }
    split; [exact Hs |]. split.
    { split; [| intros [_ H]; contradiction].
      intros Hin. exfalso. rewrite !in_app_iff in Hin. cbn [In] in Hin.
      destruct Hin as [[Hin | [Hin | []]] | [Hin | [Hin | []]]];
        try discriminate Hin; contradiction. }
    split; [intros H; contradiction |].
    split; [intros _ _; reflexivity | intros _ H; contradiction].
  - split.
    { repeat (apply Forall_app; split); try assumption;
        repeat (apply Forall_cons; [left; exact I |]); apply Forall_nil. }
    split; [reflexivity |]. split.
    { split; [| intros [H _]; contradiction].
      intros Hin. exfalso. rewrite !in_app_iff in Hin. cbn [In] in Hin.
      destruct Hin as [Hin | [Hin | []]];
        try discriminate Hin; contradiction. }
    split; [intros _; reflexivity |].
    split; intros H; contradiction.
Qed.

Lemma Connect_plain_witness :
  iMode plain_driver = 0
  /\ fst (fst (@Connect released_codes connect_plain_bad_key plain_driver
                 "logs.example.net")) = -15616
  /\ ~ In (nsd_ptcp_Connect (Some 8%nat))
         (snd (@Connect released_codes connect_plain_bad_key plain_driver
                 "logs.example.net")).
Proof.
  destruct (@Connect_plain released_codes connect_plain_bad_key plain_driver
              "logs.example.net" eq_refl)
    as (_ & _ & Hcall & _ & Hcred & _).
  split; [reflexivity |]. split.
  - rewrite Hcred; [reflexivity | reflexivity | discriminate].
  - intros Hin. apply Hcall in Hin. destruct Hin as [_ Hin].
    discriminate Hin.
Defined.

(** X22.  On a listener in plain TCP mode [AcceptConnReq] always returns,
    whatever the bound on the close loop of the destructor, for the new
    driver has no session to close.  It parses no credential and talks to
    the TLS library only to initialise and release the contexts of the new
    driver.  It succeeds exactly when the object is allocated and
    [nsd_ptcp.Destruct] and [nsd_ptcp.AcceptConnReq] succeed; the driver
    that it then hands out is the constructed one with the accepted
    transport (none of the settings of the listener is copied), and on
    failure nothing is handed out. *)
Theorem AcceptConnReq_plain {codes : Codes} (Hok : CodesOk codes)
  (fuel : nat) (close_notify : nat -> Z) (a : accept_answers)
  (pThis : nsd_mbedtls_t) :
  iMode pThis = 0 ->
  exists (iRet : Z) (out : option nsd_mbedtls_t) (tr : trace),
    AcceptConnReq fuel close_notify a pThis = Some (iRet, out, tr)
    /\ Forall plain_accept_call tr
    /\ (iRet = RS_RET_OK
        <-> calloc_null a = false /\ ret_ptcp_Destruct a = RS_RET_OK
            /\ fst (ret_ptcp_AcceptConnReq a) = RS_RET_OK)
    /\ (iRet = RS_RET_OK ->
        out = Some (set_pTcp (snd (ret_ptcp_AcceptConnReq a))
                      calloc_nsd_mbedtls))
    /\ (iRet <> RS_RET_OK -> out = None).
Proof.
  intros Hmode.
  assert (Hmem : RS_RET_OUT_OF_MEMORY <> RS_RET_OK) by rs_ne Hok.
  unfold AcceptConnReq, nsd_mbedtlsConstruct.
  destruct (calloc_null a).
  - eexists _, _, _. split; [reflexivity |].
    split; [repeat constructor |].
    split; [split; [intros H; contradiction | intros [H _]; discriminate H] |].
    split; [intros H; contradiction | reflexivity].
  - cbn [nsd_mbedtlsInitialize fst snd]. rewrite Z.eqb_refl.
    unfold AcceptConnReq_body. rewrite Hmode. change (0 =? 0) with true.
    destruct (ret_ptcp_AcceptConnReq a) as [rcA pA].
    destruct (ret_ptcp_Construct a) as [rcC pC].
    cbv [exec bind get emit when CHKiRet modify ret ABORT_FINALIZE FINALIZE
           iRet_of fst snd].
    destruct (Z.eqb_spec (ret_ptcp_Destruct a) RS_RET_OK) as [E1 | E1];
      [destruct (Z.eqb_spec rcA RS_RET_OK) as [E2 | E2] |];
      cbv beta iota.
    + rewrite Z.eqb_refl. cbn [negb].
      eexists _, _, _. split; [reflexivity |].
      split; [cbn [app]; repeat constructor |].
      split; [tauto |]. split; [reflexivity | intros H; contradiction].
    + destruct (Z.eqb_spec rcA RS_RET_OK); [contradiction |]. cbn [negb].
      destruct pA as [p |];
        (eexists _, _, _; split; [reflexivity |];
         split; [cbn; repeat constructor |];
         split; [tauto |]; split; [intros H; contradiction | reflexivity]).
    + destruct (Z.eqb_spec (ret_ptcp_Destruct a) RS_RET_OK);
        [contradiction |]. cbn [negb].
      destruct pC as [p |];
        (eexists _, _, _; split; [reflexivity |];
         split; [cbn; repeat constructor |];
         split; [tauto |]; split; [intros H; contradiction | reflexivity]).
Qed.

Lemma AcceptConnReq_plain_witness :
  CodesOk released_codes
  /\ iMode plain_driver = 0
  /\ exists tr,
       @AcceptConnReq released_codes 0 close_at_once (accept_good 0)
         plain_driver
       = Some (0, Some (set_pTcp (Some 10%nat) calloc_nsd_mbedtls), tr)
       /\ Forall plain_accept_call tr.
Proof.
  split; [exact released_codes_ok |]. split; [reflexivity |].
  destruct (@AcceptConnReq_plain released_codes released_codes_ok 0%nat
              close_at_once (accept_good 0) plain_driver eq_refl)
    as (iRet & out & tr & Hrun & Hcalls & Hiff & Hout & _).
  assert (E : iRet = @RS_RET_OK released_codes)
    by (apply Hiff; repeat split; reflexivity).
  exists tr. rewrite Hrun, (Hout E), E. split; [reflexivity | exact Hcalls].
Defined.

(** ** The new driver of a failed accept *)

Section known_exit.
Context {codes : Codes} {S : Type}.
Variable ok : call -> Prop.





End known_exit.

Section accept_new_driver.
Context {codes : Codes} (Hok : CodesOk codes).




End accept_new_driver.



